(** * CurrencyExchangeBot: the rates cache and the currency resolver

    A shallow embedding of [extensions.py] (classes [RatesStorage] and
    [API]) together with the properties of the cache, of the two lookups and
    of the conversion.

    Conventions of the embedding:
    - a Python [str] is the list of its code points ([pystr]);
    - a Python [float] is a binary64 number of [PrimFloat];
    - a currency [dict] with the four keys the code reads is the record
      [currency]; the value of a name or of a code is a [str] or [None]
      ([text]), as the parser of the feeds gives it;
    - the methods of [RatesStorage] run in a state-and-exception monad over
      the fields of the instance; a raised exception keeps the state reached
      so far, as in Python;
    - [datetime.now()] and the two documents served by the bank are inputs
      ([world]); every [requests.get] is recorded in a log;
    - where it matters which object a list or a dict is (what a caller can
      do with the list that [data] returns), the same methods are written
      once more over a heap of list and dict objects ([Objects]), and the
      two versions are shown to compute the same values. *)

From Stdlib Require Import ZArith NArith List Lia Floats String Ascii Bool.
From stdpp Require Import gmap list.

Local Open Scope list_scope.

(** ** Strings *)

Definition pystr : Type := list N.

Module Utf8.

(** Decoding of the UTF-8 bytes of a literal into code points, so that the
    names of the source can be written as they are. *)
Fixpoint decode (bytes : list N) : pystr :=
  match bytes with
  | [] => []
  | b0 :: rest =>
      if (b0 <? 128)%N then b0 :: decode rest
      else match rest with
      | [] => [b0]
      | b1 :: rest1 =>
          if (b0 <? 224)%N
          then ((b0 - 192) * 64 + (b1 - 128))%N :: decode rest1
          else match rest1 with
          | [] => [b0; b1]
          | b2 :: rest2 =>
              if (b0 <? 240)%N
              then ((b0 - 224) * 4096 + (b1 - 128) * 64 + (b2 - 128))%N
                     :: decode rest2
              else match rest2 with
              | [] => [b0; b1; b2]
              | b3 :: rest3 =>
                  ((b0 - 240) * 262144 + (b1 - 128) * 4096
                   + (b2 - 128) * 64 + (b3 - 128))%N :: decode rest3
              end
          end
      end
  end.

Definition of_string (s : string) : pystr :=
  decode (List.map N_of_ascii (list_ascii_of_string s)).

End Utf8.

Notation "'u' s" := (Utf8.of_string s) (at level 1, s at level 0, only parsing).

(** The [text] attribute of an XML element, and so the value of a name or
    of a code in a currency dict: a [str], or [None] for an element that is
    empty. The same holds for [item.get("ID")] when the attribute is
    missing. *)
Inductive text :=
| Str (s : pystr)
| NoneText.

Coercion Str : pystr >-> text.

#[global] Instance text_eq_dec : EqDecision text.
Proof. solve_decision. Defined.

#[global] Instance text_countable : Countable text.
Proof.
  refine (inj_countable'
            (fun t => match t with Str s => Some s | NoneText => None end)
            (fun o => match o with Some s => Str s | None => NoneText end) _).
  intros []; reflexivity.
Defined.

(** ** The parts of the Python runtime that are taken as given

    [str.lower] (the Unicode case mapping) and [float] applied to a string
    (the numeric grammar of Python) are not written out in full: every
    general statement below holds for any implementation of them.
    [py_float s = None] stands for the [ValueError] of [float(s)]. *)

Class PyRuntime := {
  lower : pystr -> pystr;
  py_float : pystr -> option float
}.

(** ** [Levenshtein.distance]

    The edit distance with unit costs, computed row by row
    (Wagner and Fischer), as the library does. *)

Fixpoint lev_cells (x : N) (s2 : list N) (above : list nat) (diag left : nat)
  : list nat :=
  match s2, above with
  | y :: s2', up :: above' =>
      let subst := (diag + (if (x =? y)%N then 0 else 1))%nat in
      let cell := Nat.min (Nat.min (S up) (S left)) subst in
      cell :: lev_cells x s2' above' up cell
  | _, _ => []
  end.

Definition lev_row (s2 : list N) (above : list nat) (x : N) : list nat :=
  match above with
  | [] => []
  | d0 :: above' => S d0 :: lev_cells x s2 above' d0 (S d0)
  end.

Definition distance (s1 s2 : pystr) : nat :=
  List.last (fold_left (lev_row s2) s1 (seq 0 (S (length s2)))) 0%nat.

(** The textbook recursion, used to cross-check [distance]. *)
Fixpoint levenshtein (s1 : list N) : list N -> nat :=
  match s1 with
  | [] => fun s2 => length s2
  | x :: s1' =>
      fix inner (s2 : list N) : nat :=
        match s2 with
        | [] => S (length s1')
        | y :: s2' =>
            Nat.min (Nat.min (S (levenshtein s1' s2)) (S (inner s2')))
                    (levenshtein s1' s2' + (if (x =? y)%N then 0 else 1))
        end
  end.

(** ** Floats: [==], [<=], [/], [*] and [round(x, ndigits)] *)

(** Nearest integer to [a / b], ties to even ([0 <= a], [0 < b]). *)
Definition div_half_even (a b : Z) : Z :=
  let q := (a / b)%Z in
  match (2 * (a mod b) ?= b)%Z with
  | Lt => q
  | Gt => (q + 1)%Z
  | Eq => if Z.even q then q else (q + 1)%Z
  end.

(** [round(x, ndigits)] for [0 <= ndigits]: CPython prints the exact binary
    value of [x] with [ndigits] decimals, correctly rounded (ties to even),
    and reads the decimal back as the nearest double. Infinities and NaN
    round to themselves; a zero result keeps the sign of [x]. *)
Definition round (x : float) (ndigits : N) : float :=
  match Prim2SF x with
  | S754_finite s m e =>
      let p := (10 ^ Z.of_N ndigits)%Z in
      let n := if (0 <=? e)%Z then (Zpos m * 2 ^ e * p)%Z
               else div_half_even (Zpos m * p) (2 ^ (- e)) in
      match n with
      | Zpos n' =>
          SF2Prim (SFdiv prec emax (S754_finite s n' 0)
                                   (S754_finite false (Z.to_pos p) 0))
      | _ => SF2Prim (S754_zero s)
      end
  | _ => x
  end.

(** [a == b] on floats inside a container comparison: the interpreter first
    tests identity and then IEEE equality. The floats of the published copy
    are the very objects of the working list ([deepcopy] does not duplicate
    a float), so a NaN rate matches itself. *)
Definition float_eq (a b : float) : bool :=
  PrimFloat.eqb a b || (PrimFloat.is_nan a && PrimFloat.is_nan b).

(** ** Data model *)

(** A currency [dict] as the lookups read it. *)
Record currency := mkCurrency {
  rus_name : text;
  eng_name : text;
  code : text;
  rub_rate : float
}.

(** A [dict] of the vocabulary: the names, and the two keys [fill] adds. *)
Record voc_dict := mkVocDict {
  v_rus_name : text;
  v_eng_name : text;
  v_code : option text;
  v_rub_rate : option float
}.

(** [x == y] on two currency dicts. *)
Definition currency_eq (x y : currency) : bool :=
  bool_decide (rus_name x = rus_name y)
  && bool_decide (eng_name x = eng_name y)
  && bool_decide (code x = code y)
  && float_eq (rub_rate x) (rub_rate y).

(** The built-in exceptions of the code. Inside [get_vocabulary] and [fill]
    they are caught, and their class name is part of the message. *)
Inductive pyexc :=
| RequestException (cls : pystr)
| ParseError
| KeyError
| AttributeError
| ValueError.

(** The messages of [APIException], by kind and arguments. *)
Inductive api_error :=
| AmountNotNumber
| AmountNotPositive
| BaseNotFound (request : pystr)
| QuoteNotFound (request : pystr)
| SameCurrency
| VocabularyNotFetched (e : pyexc)
| VocabularyNotParsed (e : pyexc)
| RatesNotFetched (date : pystr) (e : pyexc)
| RatesNotParsed (date : pystr) (e : pyexc).

(** What a method can raise: an [APIException], the [IndexError] of
    [lev_distances[0]], the [ZeroDivisionError] of the division of two
    rates, and a built-in exception raised where nothing catches it (the
    [AttributeError] of [None.lower()]). *)
Inductive exn :=
| APIException (message : api_error)
| IndexError
| ZeroDivisionError
| Error (e : pyexc).

Inductive result (A : Type) :=
| Return (a : A)
| Raise (e : exn).
Arguments Return {A} a.
Arguments Raise {A} e.

(** ** The outside world *)

(** What [requests.get(url).text] followed by [ETree.fromstring] gives. *)
Inductive response (A : Type) :=
| Unreachable (cls : pystr)
| NotXml
| Xml (items : list A).
Arguments Unreachable {A} cls.
Arguments NotXml {A}.
Arguments Xml {A} items.

(** An [Item] element of the vocabulary: [item.get("ID")], and for each
    child what [item.find(...)] gives: [None] is a missing child,
    [Some t] a child whose [text] is [t] ([NoneText] when it is empty). *)
Record voc_item := mkItem {
  item_ID : text;
  item_Name : option text;
  item_EngName : option text
}.

(** A [Valute] element of the daily rates, in the same way. *)
Record valute := mkValute {
  valute_ID : text;
  valute_CharCode : option text;
  valute_VunitRate : option text
}.

Record world := mkWorld {
  today : pystr;
  vocabulary_feed : response voc_item;
  rates_feed : pystr -> response valute
}.

Inductive request :=
| GetVocabulary
| GetRates (date : pystr).

(** ** The state of a [RatesStorage] instance *)

Record RatesStorage := mkStorage {
  _data_write_only : list currency;
  _data_read_only : list currency;
  _cached_date : option pystr;
  requests_log : list request
}.

(** [RatesStorage()] *)
Definition __init__ : RatesStorage :=
  {| _data_write_only := []; _data_read_only := []; _cached_date := None;
     requests_log := [] |}.

Definition M (A : Type) : Type := world -> RatesStorage -> result A * RatesStorage.

Definition ret {A} (a : A) : M A := fun _ self => (Return a, self).
Definition raise {A} (e : exn) : M A := fun _ self => (Raise e, self).
Definition bind {A B} (m : M A) (k : A -> M B) : M B :=
  fun w self =>
    match m w self with
    | (Return a, self') => k a w self'
    | (Raise e, self') => (Raise e, self')
    end.

Notation "'do' x <- m ; k" := (bind m (fun x => k))
  (at level 10, x name, m at level 100, k at level 200).
Notation "'run' m ; k" := (bind m (fun _ => k))
  (at level 10, m at level 100, k at level 200).

Definition requests_get (r : request) : M unit :=
  fun _ self =>
    (Return tt,
     {| _data_write_only := _data_write_only self;
        _data_read_only := _data_read_only self;
        _cached_date := _cached_date self;
        requests_log := requests_log self ++ [r] |}).

Definition set_storage (wo ro : list currency) (d : option pystr) : M unit :=
  fun _ self =>
    (Return tt,
     {| _data_write_only := wo; _data_read_only := ro; _cached_date := d;
        requests_log := requests_log self |}).

Section Storage.

Context `{PyRuntime}.

(** ** [RatesStorage] *)

(** [copy.deepcopy] of a list of dicts of strings and floats: new list and
    dict objects holding the same values. *)
Definition deepcopy (l : list currency) : list currency := l.

(** [lists_match] of the property [data]; the two operands of
    [type(x) == type(y)] are dicts. *)
Definition lists_match (l1 l2 : list currency) : bool :=
  if negb (length l1 =? length l2)%nat then false
  else forallb (fun xy => currency_eq (fst xy) (snd xy) && true)
               (combine l1 l2).

(** [RatesStorage.reset] *)
Definition reset : M unit :=
  fun _ self =>
    (Return tt,
     {| _data_write_only := []; _data_read_only := []; _cached_date := None;
        requests_log := requests_log self |}).

(** The loop of [RatesStorage.get_vocabulary] over the [Item] elements:
    [result[id] = {...}]. A missing [Name] or [EngName] raises
    ([None.text]); the text of an empty one is [None] and is stored as it
    is. *)
Fixpoint vocabulary_items (items : list voc_item)
    (result : gmap text voc_dict) : pyexc + gmap text voc_dict :=
  match items with
  | [] => inr result
  | item :: rest =>
      match item_Name item with
      | None => inl AttributeError
      | Some rus =>
          match item_EngName item with
          | None => inl AttributeError
          | Some eng =>
              vocabulary_items rest
                (<[item_ID item :=
                     {| v_rus_name := rus; v_eng_name := eng;
                        v_code := None; v_rub_rate := None |}]> result)
          end
      end
  end.

(** [RatesStorage.get_vocabulary] *)
Definition get_vocabulary : M (gmap text voc_dict) :=
  fun w =>
    (run requests_get GetVocabulary;
     match vocabulary_feed w with
     | Unreachable cls =>
         raise (APIException (VocabularyNotFetched (RequestException cls)))
     | NotXml => raise (APIException (VocabularyNotParsed ParseError))
     | Xml items =>
         match vocabulary_items items ∅ with
         | inl e => raise (APIException (VocabularyNotParsed e))
         | inr result => ret result
         end
     end) w.

(** [s.replace(",", ".")] *)
Definition replace_comma (s : pystr) : pystr :=
  List.map (fun ch => if (ch =? 44)%N then 46%N else ch) s.

(** The loop of [fill] over the [Valute] elements. [vocabulary] holds the
    dict objects, [appended] the references put in [_data_write_only], in
    order: the loop writes [code] and [rub_rate] into the dict of the
    vocabulary itself, so two elements with one [ID] share one dict.
    The text of an empty [CharCode] is [None] and is stored as it is; a
    missing [CharCode] or [VunitRate] raises ([None.text]), and so does an
    empty [VunitRate] ([None.replace]).
    The result is the exception that stopped the loop, if any, and the
    objects and references at that point. *)
Fixpoint valute_items (items : list valute)
    (vocabulary : gmap text voc_dict) (appended : list text)
  : option pyexc * gmap text voc_dict * list text :=
  match items with
  | [] => (None, vocabulary, appended)
  | item :: rest =>
      let id := valute_ID item in
      match vocabulary !! id with
      | None => (Some KeyError, vocabulary, appended)
      | Some currency_data =>
          match valute_CharCode item with
          | None => (Some AttributeError, vocabulary, appended)
          | Some char_code =>
              let currency_data :=
                {| v_rus_name := v_rus_name currency_data;
                   v_eng_name := v_eng_name currency_data;
                   v_code := Some char_code;
                   v_rub_rate := v_rub_rate currency_data |} in
              let vocabulary := <[id := currency_data]> vocabulary in
              match valute_VunitRate item with
              | None | Some NoneText =>
                  (Some AttributeError, vocabulary, appended)
              | Some (Str unit_rate) =>
                  match py_float (replace_comma unit_rate) with
                  | None => (Some ValueError, vocabulary, appended)
                  | Some rate =>
                      let currency_data :=
                        {| v_rus_name := v_rus_name currency_data;
                           v_eng_name := v_eng_name currency_data;
                           v_code := v_code currency_data;
                           v_rub_rate := Some rate |} in
                      valute_items rest (<[id := currency_data]> vocabulary)
                                   (appended ++ [id])
                  end
              end
          end
      end
  end.

(** The value of a dict that has its four keys. *)
Definition as_currency (d : voc_dict) : option currency :=
  match v_code d, v_rub_rate d with
  | Some c, Some r =>
      Some {| rus_name := v_rus_name d; eng_name := v_eng_name d;
              code := c; rub_rate := r |}
  | _, _ => None
  end.

(** The values of the dicts a list of references points to. Every dict
    that [valute_items] appended has its four keys ([valute_items_spec]),
    so none is left out ([contents_length]). *)
Definition contents (vocabulary : gmap text voc_dict)
    (appended : list text) : list currency :=
  omap (fun id => vocabulary !! id ≫= as_currency) appended.

(** The rouble, appended by [fill] after the fetched currencies. *)
Definition RUR : currency :=
  {| code := u"RUR";
     rus_name := u"Российский рубль";
     eng_name := u"Russian Ruble";
     rub_rate := 1.0%float |}.

(** [RatesStorage.fill]. The date is stored before anything is fetched.
    The dicts that the loop appended are written to [_data_write_only]
    when the loop ends, by its last element or by an exception: they stay
    in the list in both cases. [_data_read_only] is assigned only after
    the rouble is appended. *)
Definition fill : M unit :=
  fun w =>
    (run reset;
     run (fun _ self =>
            set_storage (_data_write_only self) (_data_read_only self)
                        (Some (today w)) w self);
     let requested_date := today w in
     do vocabulary <- get_vocabulary;
     run requests_get (GetRates requested_date);
     match rates_feed w requested_date with
     | Unreachable cls =>
         raise (APIException
                  (RatesNotFetched requested_date (RequestException cls)))
     | NotXml => raise (APIException (RatesNotParsed requested_date ParseError))
     | Xml items =>
         match valute_items items vocabulary [] with
         | (Some e, vocabulary', appended) =>
             run set_storage (contents vocabulary' appended) []
                             (Some requested_date);
             raise (APIException (RatesNotParsed requested_date e))
         | (None, vocabulary', appended) =>
             let write_only := contents vocabulary' appended ++ [RUR] in
             set_storage write_only (deepcopy write_only)
                         (Some requested_date)
         end
     end) w.

(** The property [RatesStorage.data] *)
Definition data : M (list currency) :=
  fun w self =>
    (run (if negb (bool_decide (Some (today w) = _cached_date self))
          then fill else ret tt);
     run (fun w self =>
            if negb (lists_match (_data_write_only self) (_data_read_only self))
            then set_storage (_data_write_only self)
                             (deepcopy (_data_write_only self))
                             (_cached_date self) w self
            else ret tt w self);
     fun _ self => (Return (_data_read_only self), self)) w self.

(** [RatesStorage.find_currency_by_code]; [==] between a code and the
    argument raises nothing, also when one of them is [None]. *)
Definition find_currency_by_code (code0 : text) : M (option currency) :=
  do d <- data;
  let filtered := List.filter (fun c => bool_decide (code c = code0)) d in
  ret (if (length filtered =? 0)%nat then None else head filtered).

(** [value.lower()] on the value of a name or of a code: [None] has no
    such method. *)
Definition lower_method (value : text) : result pystr :=
  match value with
  | Str s => Return (lower s)
  | NoneText => Raise (Error AttributeError)
  end.

(** [equality_comparator] of [get_currency_data]; [or] evaluates its
    operands from the left and stops at the first that is true. *)
Definition equality_comparator (c : currency) (request : pystr)
  : result bool :=
  let lower_request := lower request in
  match lower_method (code c) with
  | Raise e => Raise e
  | Return lower_code =>
      if bool_decide (lower_code = lower_request) then Return true
      else
        match lower_method (rus_name c) with
        | Raise e => Raise e
        | Return lower_rus =>
            if bool_decide (lower_rus = lower_request) then Return true
            else
              match lower_method (eng_name c) with
              | Raise e => Raise e
              | Return lower_eng =>
                  Return (bool_decide (lower_eng = lower_request))
              end
        end
  end.

(** [list(filter(f, l))] for an [f] that can raise: the elements are
    tested in order, and the first exception ends the call. *)
Fixpoint filter_list {A} (f : A -> result bool) (l : list A)
  : result (list A) :=
  match l with
  | [] => Return []
  | x :: l' =>
      match f x with
      | Raise e => Raise e
      | Return keep =>
          match filter_list f l' with
          | Raise e => Raise e
          | Return filtered => Return (if keep then x :: filtered else filtered)
          end
      end
  end.

(** An entry of [lev_distances]. *)
Record lev_entry := mkLev { lev_code : text; lev_distance : nat }.

(** [list.sort(key=...)] is stable: an element goes before the first
    element of the sorted rest whose key is not smaller. *)
Fixpoint insert_by_distance (x : lev_entry) (l : list lev_entry)
  : list lev_entry :=
  match l with
  | [] => [x]
  | y :: l' =>
      if (lev_distance x <=? lev_distance y)%nat then x :: y :: l'
      else y :: insert_by_distance x l'
  end.

Definition sort_by_distance (l : list lev_entry) : list lev_entry :=
  foldr insert_by_distance [] l.

(** The body of the loop that fills [lev_distances], for one currency:
    the entry it appends, or the exception of [None.lower()]. *)
Definition lev_distance_entry (c : currency) (request : pystr)
  : result lev_entry :=
  match lower_method (rus_name c) with
  | Raise e => Raise e
  | Return lower_rus =>
      let rus_distance := distance lower_rus (lower request) in
      match lower_method (eng_name c) with
      | Raise e => Raise e
      | Return lower_eng =>
          let eng_distance := distance lower_eng (lower request) in
          Return {| lev_code := code c;
                    lev_distance := Nat.min rus_distance eng_distance |}
      end
  end.

(** The loop itself. *)
Fixpoint lev_distances_loop (d : list currency) (request : pystr)
  : result (list lev_entry) :=
  match d with
  | [] => Return []
  | c :: d' =>
      match lev_distance_entry c request with
      | Raise e => Raise e
      | Return entry =>
          match lev_distances_loop d' request with
          | Raise e => Raise e
          | Return entries => Return (entry :: entries)
          end
      end
  end.

(** A computation that reads and writes no attribute of the instance. *)
Definition lift {A} (r : result A) : M A := fun _ self => (r, self).

(** [RatesStorage.get_currency_data] *)
Definition get_currency_data (request : pystr) : M (option currency) :=
  do d <- data;
  do equality_filtered <-
    lift (filter_list (fun c => equality_comparator c request) d);
  match equality_filtered with
  | c :: _ => ret (Some c)
  | [] =>
      do d <- data;
      do lev_distances <- lift (lev_distances_loop d request);
      let lev_distances := sort_by_distance lev_distances in
      match lev_distances with
      | [] => raise IndexError
      | first :: _ =>
          if (lev_distance first <=? 3)%nat
          then find_currency_by_code (lev_code first)
          else ret None
      end
  end.

(** ** [API.get_price] *)

(** The text returned by [get_price], by its parts: the sentence with the
    amount, the two currencies and the converted quantity, or the message
    of the [APIException] that was caught. *)
Inductive reply :=
| Price (amount : float) (base_data : currency) (base_quantity : float)
        (quote_data : currency)
| Message (e : api_error).

(** [try: ... except APIException as e: return f"{e}"] *)
Definition catch_api (m : M reply) : M reply :=
  fun w self =>
    match m w self with
    | (Raise (APIException e), self') => (Return (Message e), self')
    | other => other
    end.

(** [API.get_price]. [API.storage] is the state: the first request creates
    it with [RatesStorage()], that is, starts from [__init__]. The amount
    arrives as the text matched in the message. *)
Definition get_price (base quote amount : pystr) : M reply :=
  catch_api
    (match py_float amount with
     | None => raise (APIException AmountNotNumber)
     | Some amount =>
         if PrimFloat.leb amount 0%float
         then raise (APIException AmountNotPositive)
         else
           do base_data <- get_currency_data base;
           match base_data with
           | None => raise (APIException (BaseNotFound base))
           | Some base_data =>
               do quote_data <- get_currency_data quote;
               match quote_data with
               | None => raise (APIException (QuoteNotFound quote))
               | Some quote_data =>
                   if bool_decide (code base_data = code quote_data)
                   then raise (APIException SameCurrency)
                   else if PrimFloat.eqb (rub_rate quote_data) 0%float
                   then raise ZeroDivisionError
                   else
                     let base_quantity :=
                       round (rub_rate base_data / rub_rate quote_data
                              * amount)%float 2 in
                     ret (Price amount base_data base_quantity quote_data)
               end
           end
     end).

End Storage.


(** ** The objects behind the two lists

    The methods above are written over the values of the two lists. What
    a caller can do with the list that [data] hands out depends on which
    objects the lists are: [Objects] is [RatesStorage] once more, with the
    two attributes as references to list objects and the lists as
    references to dict objects. Strings and floats are values: Python
    cannot change them in place. *)

(** The methods over values, under names that stay in reach where the
    methods over objects bear the names of the source. *)
Abbreviation value_lists_match := lists_match (only parsing).
Abbreviation value_init := __init__ (only parsing).
Abbreviation value_fill := fill (only parsing).
Abbreviation value_data := data (only parsing).

Module Objects.

(** The identity of an object. *)
Definition ref : Type := nat.

(** What a reference in a list can lead to: a dict with the four keys of
    a currency, whose values are strings, [None] and a float as [fill]
    stores them, or any other object that [==] tells apart from every
    such dict (a dict with other keys, a list, a number). Objects that
    are not such a dict and that [==] does not tell apart from one (a
    rate that is the [int] 1 for the float 1.0) are not represented. *)
Inductive object :=
| Dict (c : currency)
| Other.

(** The objects of the process: the state of every object that a list can
    refer to, the elements of every list, and the identity that the next
    new object gets. *)
Record heap := mkHeap {
  obj_at : gmap ref object;
  list_at : gmap ref (list ref);
  next_ref : ref
}.

(** A dict display [{...}] or another constructor: a new object. *)
Definition new_object (x : object) (h : heap) : ref * heap :=
  (next_ref h,
   mkHeap (<[next_ref h := x]> (obj_at h)) (list_at h) (S (next_ref h))).

(** A list display [[...]]: a new list. *)
Definition new_list (refs : list ref) (h : heap) : ref * heap :=
  (next_ref h,
   mkHeap (obj_at h) (<[next_ref h := refs]> (list_at h)) (S (next_ref h))).

(** [l.append(x)], [del l[i]], [l[i] = x], ...: the list [l] changes in
    place. *)
Definition set_list (l : ref) (refs : list ref) (h : heap) : heap :=
  mkHeap (obj_at h) (<[l := refs]> (list_at h)) (next_ref h).

(** [d[key] = value], [del d[key]], ...: the object [r] changes in
    place. *)
Definition set_object (r : ref) (x : object) (h : heap) : heap :=
  mkHeap (<[r := x]> (obj_at h)) (list_at h) (next_ref h).

Definition elements (h : heap) (l : ref) : list ref :=
  default [] (list_at h !! l).

(** What the elements of the list [l] are at the moment. *)
Definition values (h : heap) (l : ref) : list (option object) :=
  List.map (fun r => obj_at h !! r) (elements h l).

(** New objects with the values of the objects that [keys] name, one per
    key: a key met again gets the object made for it before ([memo]).
    This is the memo of [copy.deepcopy], with the identities of the
    copied objects as keys, and it is how the dicts of the vocabulary
    reach the working list in [fill], with the ids as keys: two [Valute]
    elements with one id append one dict twice. *)
Fixpoint copy_all {K} `{Countable K} (value_of : K -> option object)
    (keys : list K) (memo : gmap K ref) (h : heap)
  : list ref * gmap K ref * heap :=
  match keys with
  | [] => ([], memo, h)
  | k :: rest =>
      match memo !! k with
      | Some r =>
          let '(refs, memo', h') := copy_all value_of rest memo h in
          (r :: refs, memo', h')
      | None =>
          match value_of k with
          | Some x =>
              let '(r, h1) := new_object x h in
              let '(refs, memo', h') :=
                copy_all value_of rest (<[k := r]> memo) h1 in
              (r :: refs, memo', h')
          | None => copy_all value_of rest memo h
          end
      end
  end.

(** [copy.deepcopy(l)] for a list of dicts of strings and floats: a new
    list of new dicts with the same values; elements that are one object
    in [l] are one object in the copy. *)
Definition deepcopy (l : ref) (h : heap) : ref * heap :=
  let '(refs, _, h1) :=
    copy_all (fun r => obj_at h !! r) (elements h l) ∅ h in
  new_list refs h1.

(** The attributes of a [RatesStorage] instance; [log] is the log of the
    requests, as in [requests_log]. *)
Record attributes := mkAttributes {
  write_only : ref;
  read_only : ref;
  cached_date : option pystr;
  log : list request
}.

Definition state : Type := heap * attributes.

(** [x == y and type(x) == type(y)] on two elements. An object that is
    not a dict with the four keys equals no such dict; the working list
    holds such dicts only ([separated]), so the case of two other objects
    does not arise. The floats are compared as [float_eq] does; which
    float object a NaN is, is not followed. *)
Definition object_eq (x y : option object) : bool :=
  match x, y with
  | Some (Dict a), Some (Dict b) => currency_eq a b
  | _, _ => false
  end.

(** [lists_match] of the property [data]. *)
Definition lists_match (l1 l2 : list (option object)) : bool :=
  if negb (length l1 =? length l2)%nat then false
  else forallb (fun xy => object_eq (fst xy) (snd xy) && true)
               (combine l1 l2).

(** [RatesStorage()] *)
Definition __init__ (h : heap) : state :=
  let '(wo, h1) := new_list [] h in
  let '(ro, h2) := new_list [] h1 in
  (h2, mkAttributes wo ro None []).

(** [RatesStorage.reset] *)
Definition reset (st : state) : state :=
  let '(wo, h1) := new_list [] (fst st) in
  let '(ro, h2) := new_list [] h1 in
  (h2, mkAttributes wo ro None (log (snd st))).

Section Storage.

Context `{PyRuntime}.

(** [RatesStorage.fill]. The loops are [vocabulary_items] and
    [valute_items]; the dicts that the loop appended become objects, one
    per id, and the working list gets the references in place. The rouble
    is one more new dict, and the published list is a deep copy made at
    the end. *)
Definition fill (w : world) (st : state) : result unit * state :=
  let '(h, self) := reset st in
  let wo := write_only self in
  let ro := read_only self in
  let requested_date := today w in
  let sent := log self ++ [GetVocabulary] in
  match vocabulary_feed w with
  | Unreachable cls =>
      (Raise (APIException (VocabularyNotFetched (RequestException cls))),
       (h, mkAttributes wo ro (Some requested_date) sent))
  | NotXml =>
      (Raise (APIException (VocabularyNotParsed ParseError)),
       (h, mkAttributes wo ro (Some requested_date) sent))
  | Xml items =>
      match vocabulary_items items ∅ with
      | inl e =>
          (Raise (APIException (VocabularyNotParsed e)),
           (h, mkAttributes wo ro (Some requested_date) sent))
      | inr vocabulary =>
          let sent := sent ++ [GetRates requested_date] in
          match rates_feed w requested_date with
          | Unreachable cls =>
              (Raise (APIException
                        (RatesNotFetched requested_date (RequestException cls))),
               (h, mkAttributes wo ro (Some requested_date) sent))
          | NotXml =>
              (Raise (APIException (RatesNotParsed requested_date ParseError)),
               (h, mkAttributes wo ro (Some requested_date) sent))
          | Xml valutes =>
              let '(stopped, vocabulary', appended) :=
                valute_items valutes vocabulary [] in
              let '(refs, _, h1) :=
                copy_all (fun id => Dict <$> (vocabulary' !! id ≫= as_currency))
                         appended ∅ h in
              match stopped with
              | Some e =>
                  (Raise (APIException (RatesNotParsed requested_date e)),
                   (set_list wo refs h1,
                    mkAttributes wo ro (Some requested_date) sent))
              | None =>
                  let '(rouble, h2) := new_object (Dict RUR) h1 in
                  let h3 := set_list wo (refs ++ [rouble]) h2 in
                  let '(ro, h4) := deepcopy wo h3 in
                  (Return tt, (h4, mkAttributes wo ro (Some requested_date) sent))
              end
          end
      end
  end.

(** The property [RatesStorage.data]: it returns the list object
    [_data_read_only] itself. *)
Definition data (w : world) (st : state) : result ref * state :=
  let '(r, st1) :=
    if negb (bool_decide (Some (today w) = cached_date (snd st)))
    then fill w st else (Return tt, st) in
  match r with
  | Raise e => (Raise e, st1)
  | Return _ =>
      let '(h, self) := st1 in
      if negb (lists_match (values h (write_only self))
                           (values h (read_only self)))
      then
        let '(ro, h1) := deepcopy (write_only self) h in
        (Return ro,
         (h1, mkAttributes (write_only self) ro (cached_date self) (log self)))
      else (Return (read_only self), st1)
  end.

End Storage.

(** *** Callers

    What happens to the storage and to the objects in a process: a read
    of [data] (every lookup starts with one), and what the code that got
    a list from [data] can do with the objects it holds: change an object
    in place, change a list in place, create an object of its own. *)
Inductive action :=
| Read (w : world)
| Write (r : ref) (x : object)
| Rebuild (l : ref) (refs : list ref)
| Create (x : object).

(** The process: the objects, the attributes of the one storage, and the
    references that its callers hold. *)
Record process := mkProcess {
  objects : heap;
  storage : attributes;
  held : list ref
}.

(** A process with a new storage, of which nothing was read yet. *)
Definition start : process :=
  let '(h, self) := __init__ (mkHeap ∅ ∅ 0) in mkProcess h self [].

(** One action, and what a read returned. A read hands its caller the
    returned list, and with it the elements of that list. A caller
    reaches only objects that it holds, and puts only such objects in a
    list. *)
Definition act `{PyRuntime} (a : action) (p : process)
  : process * option (result (list (option object))) :=
  match a with
  | Read w =>
      match data w (objects p, storage p) with
      | (Return l, (h, self)) =>
          (mkProcess h self (l :: elements h l ++ held p),
           Some (Return (values h l)))
      | (Raise e, (h, self)) => (mkProcess h self (held p), Some (Raise e))
      end
  | Write r x =>
      if bool_decide (r ∈ held p)
         && bool_decide (is_Some (obj_at (objects p) !! r))
      then (mkProcess (set_object r x (objects p)) (storage p) (held p), None)
      else (p, None)
  | Rebuild l refs =>
      if bool_decide (l ∈ held p)
         && bool_decide (is_Some (list_at (objects p) !! l))
         && forallb (fun r => bool_decide (r ∈ held p)) refs
      then (mkProcess (set_list l refs (objects p)) (storage p) (held p), None)
      else (p, None)
  | Create x =>
      let '(r, h) := new_object x (objects p) in
      (mkProcess h (storage p) (r :: held p), None)
  end.

(** The process after a sequence of actions, and what its reads returned,
    in order. *)
Fixpoint session `{PyRuntime} (actions : list action) (p : process)
  : process * list (result (list (option object))) :=
  match actions with
  | [] => (p, [])
  | a :: rest =>
      let '(p1, seen) := act a p in
      let '(p2, answers) := session rest p1 in
      (p2, match seen with Some r => r :: answers | None => answers end)
  end.

(** *** Vocabulary of the statements on objects *)

(** Every object and list has an identity below [next_ref], and so has
    every element of a list. *)
Definition wf (h : heap) : Prop :=
  (forall r x, obj_at h !! r = Some x -> r < next_ref h)
  /\ (forall l refs, list_at h !! l = Some refs ->
        l < next_ref h /\ Forall (fun r => r < next_ref h) refs).

Definition is_dict (h : heap) (r : ref) : Prop :=
  exists c, obj_at h !! r = Some (Dict c).

(** The working list is a list of dicts; no caller holds it or one of its
    dicts, and the published list is another list that has none of them
    as an element. *)
Definition separated (h : heap) (self : attributes) (held : list ref) : Prop :=
  wf h
  /\ Forall (fun r => r < next_ref h) held
  /\ (exists working,
        list_at h !! write_only self = Some working
        /\ Forall (is_dict h) working
        /\ Forall (fun r => r ∉ held) working
        /\ Forall (fun r => (r ∉ working) /\ r <> write_only self)
                  (elements h (read_only self))
        /\ (read_only self ∉ working))
  /\ (write_only self ∉ held)
  /\ read_only self <> write_only self
  /\ read_only self < next_ref h.

(** [h'] keeps the objects and lists of [h]. *)
Definition extends (h h' : heap) : Prop :=
  next_ref h <= next_ref h'
  /\ (forall r, r < next_ref h -> obj_at h' !! r = obj_at h !! r)
  /\ (forall l, l < next_ref h -> list_at h' !! l = list_at h !! l).

(** The records of a list of dicts, and the storage as the methods over
    values see it. *)
Definition record_of (v : option object) : option currency :=
  match v with
  | Some (Dict c) => Some c
  | _ => None
  end.

Definition records (h : heap) (l : ref) : list currency :=
  omap record_of (values h l).

Definition view (st : state) : RatesStorage :=
  {| _data_write_only := records (fst st) (write_only (snd st));
     _data_read_only := records (fst st) (read_only (snd st));
     _cached_date := cached_date (snd st);
     requests_log := log (snd st) |}.



(** The reads of [data] over values, one after the other. *)
Fixpoint reads `{PyRuntime} (worlds : list world) (self : RatesStorage)
  : RatesStorage * list (result (list currency)) :=
  match worlds with
  | [] => (self, [])
  | w :: rest =>
      let '(r, self1) := value_data w self in
      let '(self2, answers) := reads rest self1 in
      (self2, r :: answers)
  end.

(** What a read on the objects returned, as records. *)
Definition answer_records (r : result (list (option object)))
  : result (list currency) :=
  match r with
  | Return vals => Return (omap record_of vals)
  | Raise e => Raise e
  end.

End Objects.

(** ** [API.get_vocabulary] and its helper [align_and_pad] *)

(** [sep.join(rows)] *)
Fixpoint join (sep : pystr) (rows : list pystr) : pystr :=
  match rows with
  | [] => []
  | row :: rest =>
      match rest with
      | [] => row
      | _ :: _ => row ++ sep ++ join sep rest
      end
  end.

(** [f"{value}"] for the value of a name or of a code. *)
Definition format_text (value : text) : pystr :=
  match value with
  | Str s => s
  | NoneText => u"None"
  end.

(** The line of the listing for one currency:
    [f"{item['code']}, {item['rus_name']}, {item['eng_name']}"]. *)
Definition vocabulary_row (item : currency) : pystr :=
  format_text (code item) ++ u", " ++ format_text (rus_name item) ++ u", "
  ++ format_text (eng_name item).

Definition dashes : pystr := repeat 45%N 59.

Definition vocabulary_header : list pystr :=
  [u"СПРАВОЧНИК ВАЛЮТ";
   u"(Код валюты, русское и английское названия)";
   dashes].

Definition vocabulary_footer : list pystr :=
  [dashes; u"Чтобы вывести справку, наберите /start или /help"].

(** What [API.get_vocabulary] returns: the listing, or the message of the
    [APIException] that was caught. *)
Inductive listing :=
| Listing (text : pystr)
| ListingMessage (e : api_error).

(** [API.get_vocabulary]; [API.storage] is the state, as in [get_price]. *)
Definition API_get_vocabulary `{PyRuntime} : M listing :=
  fun w self =>
    match data w self with
    | (Return items, self') =>
        let rows := vocabulary_header ++ List.map vocabulary_row items
                    ++ vocabulary_footer in
        (Return (Listing (join [10%N] rows)), self')
    | (Raise (APIException e), self') => (Return (ListingMessage e), self')
    | (Raise e, self') => (Raise e, self')
    end.

(** [txt.ljust(width, fillchar)], [txt.rjust(width, fillchar)] and
    [txt.center(width, fillchar)] with a fill string of one character. *)
Definition ljust (txt : pystr) (width : Z) (fillchar : N) : pystr :=
  txt ++ repeat fillchar (Z.to_nat (width - Z.of_nat (length txt))).

Definition rjust (txt : pystr) (width : Z) (fillchar : N) : pystr :=
  repeat fillchar (Z.to_nat (width - Z.of_nat (length txt))) ++ txt.

Definition center (txt : pystr) (width : Z) (fillchar : N) : pystr :=
  let marg := (width - Z.of_nat (length txt))%Z in
  if (marg <=? 0)%Z then txt
  else
    let left := (marg / 2 + Z.land (Z.land marg width) 1)%Z in
    repeat fillchar (Z.to_nat left) ++ txt
    ++ repeat fillchar (Z.to_nat (marg - left)).

(** [align_and_pad] of [API.get_vocabulary]: the method is looked up in a
    dict with the keys [l], [c] and [r]. *)
Definition align_and_pad (txt : pystr) (width : Z) (filler : N) (align : pystr)
  : pyexc + pystr :=
  if bool_decide (align = u"l") then inr (ljust txt width filler)
  else if bool_decide (align = u"c") then inr (center txt width filler)
  else if bool_decide (align = u"r") then inr (rjust txt width filler)
  else inl KeyError.

(** ** [handle_message] of [app.py] *)

(** [\s] of the module [re] on a [str]. *)
Definition is_whitespace (ch : N) : bool :=
  ((9 <=? ch) && (ch <=? 13) || (28 <=? ch) && (ch <=? 32)
   || (ch =? 133) || (ch =? 160) || (ch =? 5760)
   || (8192 <=? ch) && (ch <=? 8202) || (ch =? 8232) || (ch =? 8233)
   || (ch =? 8239) || (ch =? 8287) || (ch =? 12288))%N.

(** [\s*]: the text after its leading white space. *)
Fixpoint skip_whitespace (s : pystr) : pystr :=
  match s with
  | ch :: s' => if is_whitespace ch then skip_whitespace s' else s
  | [] => []
  end.

(** [[^>]*]: the longest prefix without [>], and what follows it. *)
Fixpoint until_gt (s : pystr) : pystr * pystr :=
  match s with
  | ch :: s' =>
      if (ch =? 62)%N then ([], s)
      else let '(g, rest) := until_gt s' in (ch :: g, rest)
  | [] => ([], [])
  end.

(** [<([^>]+)>]: the group and the text after the closing [>]. *)
Definition group (s : pystr) : option (pystr * pystr) :=
  match s with
  | opening :: s' =>
      if (opening =? 60)%N then
        match until_gt s' with
        | (first :: more, closing :: rest) =>
            if (closing =? 62)%N then Some (first :: more, rest) else None
        | _ => None
        end
      else None
  | [] => None
  end.

(** [re.match(r'^\s*<([^>]+)>\s*<([^>]+)>\s<([^>]+)>\s*$', text)]: the
    three groups. No step of the pattern can match in two ways, so the
    search never has to go back. *)
Definition re_match (text : pystr) : option (pystr * pystr * pystr) :=
  match group (skip_whitespace text) with
  | Some (g1, rest1) =>
      match group (skip_whitespace rest1) with
      | Some (g2, blank :: rest2) =>
          if is_whitespace blank then
            match group rest2 with
            | Some (g3, rest3) =>
                match skip_whitespace rest3 with
                | [] => Some (g1, g2, g3)
                | _ :: _ => None
                end
            | None => None
            end
          else None
      | _ => None
      end
  | None => None
  end.

(** What [handle_message] sends with [bot.send_message]: the text of
    [get_price], or the message of the [APIException] it raises itself
    when the text does not match. *)
Inductive outgoing :=
| SendPrice (r : reply)
| SendBadFormat.

(** [handle_message] on [message.text]. *)
Definition handle_message `{PyRuntime} (text : pystr) : M outgoing :=
  match re_match text with
  | None => ret SendBadFormat
  | Some (g1, g2, g3) =>
      do r <- get_price g1 g2 g3;
      ret (SendPrice r)
  end.

(** ** A runtime for the examples

    [str.lower] on the Latin and Cyrillic letters of the feeds (every other
    code point is left as it is), and [float] on decimal literals with an
    optional sign, fraction and exponent and on [inf], [infinity] and [nan],
    surrounded by blanks; the value is the double nearest to the decimal,
    as in CPython. *)

Module Examples.

Definition lower_char (ch : N) : N :=
  if ((65 <=? ch) && (ch <=? 90))%N then (ch + 32)%N
  else if ((192 <=? ch) && (ch <=? 222) && negb (ch =? 215))%N then (ch + 32)%N
  else if ((1024 <=? ch) && (ch <=? 1039))%N then (ch + 80)%N
  else if ((1040 <=? ch) && (ch <=? 1071))%N then (ch + 32)%N
  else ch.

Definition is_space (ch : N) : bool :=
  ((9 <=? ch) && (ch <=? 13) || (ch =? 32))%N.

Fixpoint lstrip (s : pystr) : pystr :=
  match s with
  | ch :: s' => if is_space ch then lstrip s' else s
  | [] => []
  end.

Definition strip (s : pystr) : pystr := rev (lstrip (rev (lstrip s))).

(** The leading digits of [s]: their value after [acc], how many there
    are, and the rest of [s]. *)
Fixpoint digits (s : pystr) (acc : Z) (count : Z) : Z * Z * pystr :=
  match s with
  | ch :: s' =>
      if ((48 <=? ch) && (ch <=? 57))%N
      then digits s' (acc * 10 + Z.of_N (ch - 48))%Z (count + 1)%Z
      else (acc, count, s)
  | [] => (acc, count, [])
  end.

(** The double nearest to [m * 10 ^ e], with sign [s]. *)
Definition nearest (s : bool) (m e : Z) : float :=
  match m with
  | Zpos _ =>
      let num := if (0 <=? e)%Z then (m * 10 ^ e)%Z else m in
      let den := if (0 <=? e)%Z then 1%Z else (10 ^ (- e))%Z in
      SF2Prim (SFdiv prec emax (S754_finite s (Z.to_pos num) 0)
                               (S754_finite false (Z.to_pos den) 0))
  | _ => SF2Prim (S754_zero s)
  end.

Definition exponent (s : pystr) : option Z :=
  match s with
  | [] => Some 0%Z
  | ch :: s' =>
      if ((ch =? 101) || (ch =? 69))%N then
        let '(neg, s'') :=
          match s' with
          | 45%N :: t => (true, t)
          | 43%N :: t => (false, t)
          | _ => (false, s')
          end in
        match digits s'' 0 0 with
        | (v, n, []) =>
            if (0 <? n)%Z then Some (if neg then (- v)%Z else v) else None
        | _ => None
        end
      else None
  end.

Definition unsigned (s : bool) (body : pystr) : option float :=
  let word := List.map lower_char body in
  if bool_decide (word = u"nan") then Some nan
  else if bool_decide (word = u"inf") || bool_decide (word = u"infinity")
  then Some (if s then neg_infinity else infinity)
  else
    let '(v1, n1, rest1) := digits body 0 0 in
    let '(v2, n2, rest2) :=
      match rest1 with
      | 46%N :: t => digits t v1 0
      | _ => (v1, 0%Z, rest1)
      end in
    if (n1 + n2 =? 0)%Z then None
    else match exponent rest2 with
         | Some e => Some (nearest s v2 (e - n2))
         | None => None
         end.

Definition float_of_str (s : pystr) : option float :=
  match strip s with
  | 45%N :: body => unsigned true body
  | 43%N :: body => unsigned false body
  | body => unsigned false body
  end.

#[export] Instance runtime : PyRuntime :=
  {| lower := List.map lower_char; py_float := float_of_str |}.

End Examples.

(** ** Scenarios *)

Module Scenario.

Import Examples.

Definition day : pystr := u"04/11/2026".

Definition item (id rus eng : pystr) : voc_item :=
  {| item_ID := id; item_Name := Some (Str rus);
     item_EngName := Some (Str eng) |}.

Definition rate (id char_code unit_rate : pystr) : valute :=
  {| valute_ID := id; valute_CharCode := Some (Str char_code);
     valute_VunitRate := Some (Str unit_rate) |}.

Definition names : list voc_item :=
  [item (u"R01235") (u"Доллар США") (u"US Dollar");
   item (u"R01239") (u"Евро") (u"Euro")].

(** A day on which the dollar costs 90 roubles and the euro 100. *)
Definition bank : world :=
  {| today := day;
     vocabulary_feed := Xml names;
     rates_feed := fun _ =>
       Xml [rate (u"R01235") (u"USD") (u"90,0000");
            rate (u"R01239") (u"EUR") (u"100,0000")] |}.

Definition USD : currency :=
  {| code := u"USD"; rus_name := u"Доллар США"; eng_name := u"US Dollar";
     rub_rate := 90.0%float |}.

Definition EUR : currency :=
  {| code := u"EUR"; rus_name := u"Евро"; eng_name := u"Euro";
     rub_rate := 100.0%float |}.

(** The bank cannot be reached. *)
Definition offline : world :=
  {| today := day;
     vocabulary_feed := Unreachable (u"ConnectionError");
     rates_feed := fun _ => Unreachable (u"ConnectionError") |}.

(** The second [Valute] element names a currency the vocabulary lacks. *)
Definition unknown_id : world :=
  {| today := day;
     vocabulary_feed := Xml names;
     rates_feed := fun _ =>
       Xml [rate (u"R01235") (u"USD") (u"90,0000");
            rate (u"R09999") (u"EUR") (u"100,0000")] |}.

(** Two [Valute] elements carry the same [CharCode]. *)
Definition same_code : world :=
  {| today := day;
     vocabulary_feed := Xml names;
     rates_feed := fun _ =>
       Xml [rate (u"R01239") (u"XXX") (u"100,0000");
            rate (u"R01235") (u"XXX") (u"90,0000")] |}.

(** The two records of [same_code]. *)
Definition XXX_euro : currency :=
  {| code := u"XXX"; rus_name := u"Евро"; eng_name := u"Euro";
     rub_rate := 100.0%float |}.

Definition XXX_dollar : currency :=
  {| code := u"XXX"; rus_name := u"Доллар США"; eng_name := u"US Dollar";
     rub_rate := 90.0%float |}.

(** The storage after a first read of the day at the bank. *)
Definition open_bank : RatesStorage := snd (data bank __init__).

(** The storage after a read that found the bank unreachable. *)
Definition after_failure : RatesStorage := snd (data offline __init__).

(** Two [Valute] elements carry the same [ID]. *)
Definition same_id : world :=
  {| today := day;
     vocabulary_feed := Xml names;
     rates_feed := fun _ =>
       Xml [rate (u"R01235") (u"USD") (u"90,0000");
            rate (u"R01235") (u"AUD") (u"60,5")] |}.

(** The record that [same_id] gives twice. *)
Definition AUD_dollar : currency :=
  {| code := u"AUD"; rus_name := u"Доллар США"; eng_name := u"US Dollar";
     rub_rate := 60.5%float |}.

(** A currency with a name of three letters. *)
Definition korea : world :=
  {| today := day;
     vocabulary_feed := Xml [item (u"R01815") (u"Вон") (u"Won")];
     rates_feed := fun _ => Xml [rate (u"R01815") (u"KRW") (u"0,0625")] |}.

Definition KRW : currency :=
  {| code := u"KRW"; rus_name := u"Вон"; eng_name := u"Won";
     rub_rate := 0.0625%float |}.

(** The bank publishes a rate of zero for the euro. *)
Definition zero_rate : world :=
  {| today := day;
     vocabulary_feed := Xml names;
     rates_feed := fun _ =>
       Xml [rate (u"R01235") (u"USD") (u"90,0000");
            rate (u"R01239") (u"EUR") (u"0")] |}.

(** The English name of one currency is the code of another. *)
Definition name_is_code : world :=
  {| today := day;
     vocabulary_feed :=
       Xml [item (u"R09001") (u"Расчётная единица") (u"Eur");
            item (u"R01239") (u"Евро") (u"Euro")];
     rates_feed := fun _ =>
       Xml [rate (u"R09001") (u"XEU") (u"50");
            rate (u"R01239") (u"EUR") (u"100,0000")] |}.

Definition XEU : currency :=
  {| code := u"XEU"; rus_name := u"Расчётная единица"; eng_name := u"Eur";
     rub_rate := 50.0%float |}.

(** The [EngName] element of the euro is empty. *)
Definition empty_name : world :=
  {| today := day;
     vocabulary_feed :=
       Xml [item (u"R01235") (u"Доллар США") (u"US Dollar");
            {| item_ID := u"R01239"; item_Name := Some (Str (u"Евро"));
               item_EngName := Some NoneText |}];
     rates_feed := fun _ =>
       Xml [rate (u"R01235") (u"USD") (u"90,0000");
            rate (u"R01239") (u"EUR") (u"100,0000")] |}.

Definition EUR_unnamed : currency :=
  {| code := u"EUR"; rus_name := u"Евро"; eng_name := NoneText;
     rub_rate := 100.0%float |}.

(** The feed of the bank has an element for the rouble itself. *)
Definition own_rouble : world :=
  {| today := day;
     vocabulary_feed :=
       Xml [item (u"R00001") (u"Российский рубль") (u"Russian Ruble")];
     rates_feed := fun _ => Xml [rate (u"R00001") (u"RUR") (u"1")] |}.

(** The euro of [zero_rate], and the same record with the rate [-0.0]. *)
Definition EUR_free : currency :=
  {| code := u"EUR"; rus_name := u"Евро"; eng_name := u"Euro";
     rub_rate := 0%float |}.

Definition EUR_negative : currency :=
  {| code := u"EUR"; rus_name := u"Евро"; eng_name := u"Euro";
     rub_rate := (-0)%float |}.

(** A storage filled on another day. *)
Definition old_cache : RatesStorage :=
  {| _data_write_only := [EUR; RUR]; _data_read_only := [EUR; RUR];
     _cached_date := Some (u"03/11/2026"); requests_log := [] |}.

End Scenario.

(** * Vocabulary of the statements *)

(** [c] is the first element of [s], in order, that satisfies [P]. *)
Definition first_such {A} (P : A -> bool) (s : list A) (c : A) : Prop :=
  exists l1 l2, s = l1 ++ c :: l2 /\ P c = true /\ Forall (fun x => P x = false) l1.

(** The table that [distance] fills, in terms of [levenshtein]. Strings are
    read from their last character: [rpre] is a prefix of the second
    string, reversed, and [cells_of f rpre s2] lists [f] on the prefixes
    that extend it by one, two, ... characters of [s2]. *)
Fixpoint cells_of (f : list N -> nat) (rpre s2 : list N) : list nat :=
  match s2 with
  | [] => []
  | y :: s2' => f (y :: rpre) :: cells_of f (y :: rpre) s2'
  end.

(** The row of the table for the reversed prefix [a] of the first string. *)
Definition row_of (s2 a : list N) : list nat :=
  levenshtein a [] :: cells_of (levenshtein a) [] s2.

Section Vocabulary.

Context `{PyRuntime}.

(** ** The cache *)

(** A cache that needs neither a refresh nor a new copy. *)
Definition settled (w : world) (self : RatesStorage) : Prop :=
  _cached_date self = Some (today w)
  /\ lists_match (_data_write_only self) (_data_read_only self) = true.

(** The state after the second step of [data]: the published list is
    replaced by a copy of the working list when the two do not match. *)
Definition republish (self : RatesStorage) : RatesStorage :=
  if lists_match (_data_write_only self) (_data_read_only self) then self
  else mkStorage (_data_write_only self) (_data_write_only self)
                 (_cached_date self) (requests_log self).

(** ** The lookups on the snapshot that [data] returns *)

(** A record whose code and names are strings. *)
Definition strings (c : currency) : Prop :=
  exists k r e, code c = Str k /\ rus_name c = Str r /\ eng_name c = Str e.

(** The comparator returns [True]. *)
Definition matches (c : currency) (request : pystr) : bool :=
  match equality_comparator c request with
  | Return found => found
  | Raise _ => false
  end.

(** The distance that the loop of [get_currency_data] records for [c]; it
    is read only for records on which the loop does not raise. *)
Definition min_distance (c : currency) (request : pystr) : nat :=
  match lev_distance_entry c request with
  | Return entry => lev_distance entry
  | Raise _ => 0
  end.

(** [best] has the smallest [min_distance] to [request] among the records
    of [s], and is the first record of [s] that has it. *)
Definition closest (request : pystr) (s : list currency) (best : currency)
  : Prop :=
  exists l1 l2,
    s = l1 ++ best :: l2
    /\ Forall (fun x => min_distance best request < min_distance x request) l1
    /\ Forall (fun x => min_distance best request <= min_distance x request) l2.

(** [find_currency_by_code] on the snapshot [s]. *)
Definition find_in (s : list currency) (code0 : text) : option currency :=
  head (List.filter (fun c => bool_decide (code c = code0)) s).

(** The second stage of [get_currency_data], by edit distance, on records
    with names. *)
Definition fuzzy_in (s : list currency) (request : pystr)
  : result (option currency) :=
  match sort_by_distance
          (List.map (fun c => {| lev_code := code c;
                                 lev_distance := min_distance c request |})
                    s) with
  | [] => Raise IndexError
  | first :: _ =>
      if (lev_distance first <=? 3)%nat
      then Return (find_in s (lev_code first))
      else Return None
  end.

(** [get_currency_data] on the snapshot [s]. *)
Definition resolve_in (s : list currency) (request : pystr)
  : result (option currency) :=
  match filter_list (fun c => equality_comparator c request) s with
  | Raise e => Raise e
  | Return (c :: _) => Return (Some c)
  | Return [] =>
      match lev_distances_loop s request with
      | Raise e => Raise e
      | Return lev_distances =>
          match sort_by_distance lev_distances with
          | [] => Raise IndexError
          | first :: _ =>
              if (lev_distance first <=? 3)%nat
              then Return (find_in s (lev_code first))
              else Return None
          end
      end
  end.

(** ** The loop of [fill] *)

(** Every reference of [appended] points to a dict with its four keys. *)
Definition complete (vocabulary : gmap text voc_dict) (appended : list text)
  : Prop :=
  Forall (fun id => exists d c r, vocabulary !! id = Some d
                                  /\ v_code d = Some c
                                  /\ v_rub_rate d = Some r) appended.

(** Every [code] written in a dict satisfies [P]. *)
Definition codes_in (P : text -> Prop) (vocabulary : gmap text voc_dict)
  : Prop :=
  forall id d c, vocabulary !! id = Some d -> v_code d = Some c -> P c.

(** ** Claims on the lookups, as they are stated *)


(** C2 as stated, on the request that is a code: a request equal, up to
    case, to the code of a record of the snapshot returns that record. *)
Definition returns_record_of_code (w : world) (self : RatesStorage)
    (request : pystr) : Prop :=
  forall s self' r,
    data w self = (Return s, self') ->
    r ∈ s ->
    lower_method (code r) = Return (lower request) ->
    get_currency_data request w self = (Return (Some r), self').

(** C4 as stated: [find_currency_by_code] finds a record whose code is the
    argument up to case whenever the snapshot has one. *)
Definition finds_ignoring_case (w : world) (self : RatesStorage) (code0 : pystr)
  : Prop :=
  forall s self',
    data w self = (Return s, self') ->
    (exists c, c ∈ s /\ lower_method (code c) = Return (lower code0)) ->
    exists c, find_currency_by_code code0 w self = (Return (Some c), self')
              /\ lower_method (code c) = Return (lower code0).

End Vocabulary.

(** ** Vocabulary for the feeds *)

(** The last element of [l] that satisfies [P]. *)
Fixpoint last_with {A} (P : A -> bool) (l : list A) : option A :=
  match l with
  | [] => None
  | x :: l' =>
      match last_with P l' with
      | Some y => Some y
      | None => if P x then Some x else None
      end
  end.

Section FeedVocabulary.

Context `{PyRuntime}.

(** An [Item] with both names. *)
Definition item_ok (it : voc_item) : bool :=
  match item_Name it, item_EngName it with
  | Some _, Some _ => true
  | _, _ => false
  end.

(** A [Valute] whose id is one of [ids], with a code and a rate that
    [float] accepts once the comma is replaced. *)
Definition valute_ok (ids : list text) (v : valute) : bool :=
  bool_decide (valute_ID v ∈ ids)
  && match valute_CharCode v, valute_VunitRate v with
     | Some _, Some (Str unit_rate) =>
         match py_float (replace_comma unit_rate) with
         | Some _ => true
         | None => false
         end
     | _, _ => false
     end.

(** Both documents arrive, are XML, and have all their parts. *)
Definition feeds_ok (w : world) : bool :=
  match vocabulary_feed w, rates_feed w (today w) with
  | Xml items, Xml valutes =>
      forallb item_ok items
      && forallb (valute_ok (List.map item_ID items)) valutes
  | _, _ => false
  end.

(** The vocabulary document arrives, is XML, and has all its parts. *)
Definition vocabulary_ok (w : world) : bool :=
  match vocabulary_feed w with
  | Xml items => forallb item_ok items
  | _ => false
  end.

(** The record [c] is what the feeds say about the id of [v]: the names of
    the last [Item] with that id, the code and the rate of the last
    [Valute] with that id. *)
Definition merged (items : list voc_item) (valutes : list valute)
    (v : valute) (c : currency) : Prop :=
  exists it lv unit_rate,
    last_with (fun i => bool_decide (item_ID i = valute_ID v)) items = Some it
    /\ last_with (fun x => bool_decide (valute_ID x = valute_ID v)) valutes
       = Some lv
    /\ item_Name it = Some (rus_name c)
    /\ item_EngName it = Some (eng_name c)
    /\ valute_CharCode lv = Some (code c)
    /\ valute_VunitRate lv = Some (Str unit_rate)
    /\ py_float (replace_comma unit_rate) = Some (rub_rate c).

(** C7 as stated: every snapshot that a read publishes has exactly one
    record with the code of the rouble and the rate 1.0, and that record
    is its last element. *)
Definition publishes_one_rouble (w : world) (self : RatesStorage) : Prop :=
  forall s self',
    data w self = (Return s, self') ->
    exists fetched,
      s = fetched ++ [RUR]
      /\ Forall (fun c => ~ (code c = code RUR /\ rub_rate c = 1.0%float))
                fetched.

End FeedVocabulary.

(** ** Vocabulary for [get_price] and the front end *)

(** The messages that report a failure of one of the two feeds. *)
Definition upstream (m : api_error) : bool :=
  match m with
  | VocabularyNotFetched _ | VocabularyNotParsed _
  | RatesNotFetched _ _ | RatesNotParsed _ _ => true
  | _ => false
  end.

(** The difference of the lengths of two strings. *)
Definition length_gap (a b : pystr) : nat :=
  (length a - length b) + (length b - length a).

(** [s.split(sep)] for a separator of one character. *)
Fixpoint split (sep : N) (s : pystr) : list pystr :=
  match s with
  | [] => [[]]
  | ch :: s' =>
      if (ch =? sep)%N then [] :: split sep s'
      else match split sep s' with
           | row :: rows => (ch :: row) :: rows
           | [] => [[ch]]
           end
  end.

(** A message as [handle_message] accepts it: the three fields between
    angle brackets, white space before, between and after them, and one
    white space character between the second and the third. *)
Definition framed (ws1 a ws2 b : pystr) (blank : N) (c ws3 : pystr) : pystr :=
  ws1 ++ [60%N] ++ a ++ [62%N] ++ ws2 ++ [60%N] ++ b ++ [62%N]
  ++ [blank] ++ [60%N] ++ c ++ [62%N] ++ ws3.

(** A field: not empty and without [>]. *)
Definition field (a : pystr) : Prop :=
  a <> [] /\ Forall (fun ch => ch <> 62%N) a.

Definition blanks (ws : pystr) : Prop :=
  Forall (fun ch => is_whitespace ch = true) ws.

(** [n] is an integer nearest to the quotient [a / b], and the even one
    when two integers are equally near ([0 < b]). *)
Definition nearest_even (a b n : Z) : Prop :=
  (Z.abs (2 * a - 2 * n * b) <= b)%Z
  /\ ((Z.abs (2 * a - 2 * n * b) = b)%Z -> Z.even n = true).

(** The double nearest to [n / 100], with the sign [sign]: the float that
    Python writes with the two decimals of [n] ([of_hundredths false 912]
    is [9.12]). *)
Definition of_hundredths (sign : bool) (n : Z) : float :=
  match n with
  | Zpos n' =>
      SF2Prim (SFdiv prec emax (S754_finite sign n' 0)
                               (S754_finite false 100 0))
  | _ => SF2Prim (S754_zero sign)
  end.

Section PriceVocabulary.

Context `{PyRuntime}.

(** [get_price] on the snapshot [s], once the amount [x] is accepted. *)
Definition price_in (s : list currency) (base quote : pystr) (x : float)
  : result reply :=
  match resolve_in s base with
  | Raise e => Raise e
  | Return None => Return (Message (BaseNotFound base))
  | Return (Some base_data) =>
      match resolve_in s quote with
      | Raise e => Raise e
      | Return None => Return (Message (QuoteNotFound quote))
      | Return (Some quote_data) =>
          if bool_decide (code base_data = code quote_data)
          then Return (Message SameCurrency)
          else if PrimFloat.eqb (rub_rate quote_data) 0%float
          then Raise ZeroDivisionError
          else Return (Price x base_data
                         (round (rub_rate base_data / rub_rate quote_data
                                 * x)%float 2)
                         quote_data)
      end
  end.

(** The amount parses and is not refused by [amount <= 0]. *)
Definition amount_accepted (amount : pystr) : bool :=
  match py_float amount with
  | Some x => negb (PrimFloat.leb x 0%float)
  | None => false
  end.

End PriceVocabulary.

(** * Lemmas *)

Ltac unfold_monad :=
  unfold bind, ret, raise, requests_get, set_storage in *; simpl in *.

Ltac conjs := repeat match goal with |- _ /\ _ => split end.

Section DistanceFacts.

Lemma levenshtein_nil_r (a : list N) : levenshtein a [] = length a.
Proof. destruct a; reflexivity. Qed.

Lemma cells_of_length (rpre s2 : list N) :
  cells_of (@length N) rpre s2 = seq (S (length rpre)) (length s2).
Proof.
  revert rpre. induction s2 as [|y s2 IH]; intros rpre; simpl; [reflexivity|].
  f_equal. apply (IH (y :: rpre)).
Qed.

Lemma lev_cells_cells_of (x : N) (a s2 : list N) :
  forall rpre,
    lev_cells x s2 (cells_of (levenshtein a) rpre s2)
              (levenshtein a rpre) (levenshtein (x :: a) rpre)
    = cells_of (levenshtein (x :: a)) rpre s2.
Proof.
  induction s2 as [|y s2 IH]; intros rpre; [reflexivity|].
  cbn [cells_of lev_cells]. f_equal.
  change (levenshtein (x :: a) (y :: rpre))
    with (Nat.min (Nat.min (S (levenshtein a (y :: rpre)))
                           (S (levenshtein (x :: a) rpre)))
                  (levenshtein a rpre + (if (x =? y)%N then 0 else 1))).
  apply (IH (y :: rpre)).
Qed.

Lemma lev_row_row_of (s2 a : list N) (x : N) :
  lev_row s2 (row_of s2 a) x = row_of s2 (x :: a).
Proof.
  unfold lev_row, row_of. f_equal.
  - rewrite !levenshtein_nil_r. reflexivity.
  - replace (S (levenshtein a [])) with (levenshtein (x :: a) [])
      by (rewrite !levenshtein_nil_r; reflexivity).
    apply lev_cells_cells_of.
Qed.

Lemma fold_lev_row (s1 s2 : list N) :
  forall a, fold_left (lev_row s2) s1 (row_of s2 a) = row_of s2 (rev s1 ++ a).
Proof.
  induction s1 as [|x s1 IH]; intros a; [reflexivity|].
  cbn [fold_left rev]. rewrite lev_row_row_of, IH, <- app_assoc. reflexivity.
Qed.

Lemma last_cells_of (f : list N -> nat) (s2 : list N) :
  forall rpre d,
    List.last (f rpre :: cells_of f rpre s2) d = f (rev s2 ++ rpre).
Proof.
  induction s2 as [|y s2 IH]; intros rpre d; [reflexivity|].
  change (List.last (f rpre :: cells_of f rpre (y :: s2)) d)
    with (List.last (f (y :: rpre) :: cells_of f (y :: rpre) s2) d).
  rewrite IH. simpl. rewrite <- app_assoc. reflexivity.
Qed.

(** [distance] fills the table of the textbook recursion, taken from the
    last characters of the two strings. *)
Lemma distance_levenshtein (s1 s2 : pystr) :
  distance s1 s2 = levenshtein (rev s1) (rev s2).
Proof.
  unfold distance.
  replace (seq 0 (S (length s2))) with (row_of s2 []).
  - rewrite fold_lev_row. unfold row_of.
    rewrite last_cells_of, !app_nil_r. reflexivity.
  - unfold row_of. simpl. f_equal. apply (cells_of_length [] s2).
Qed.

End DistanceFacts.

Section CacheFacts.

Context `{PyRuntime}.

Lemma float_eq_refl (a : float) : float_eq a a = true.
Proof.
  unfold float_eq, PrimFloat.is_nan.
  destruct (PrimFloat.eqb a a); reflexivity.
Qed.

Lemma currency_eq_refl (c : currency) : currency_eq c c = true.
Proof.
  unfold currency_eq.
  rewrite !bool_decide_eq_true_2 by reflexivity.
  rewrite float_eq_refl. reflexivity.
Qed.

Lemma lists_match_refl (l : list currency) : lists_match l l = true.
Proof.
  unfold lists_match. rewrite Nat.eqb_refl. simpl.
  induction l as [|c l IH]; simpl; [reflexivity|].
  rewrite currency_eq_refl, IH. reflexivity.
Qed.

(** What one run of [fill] does, case by case. *)
Lemma fill_unfold (w : world) (self : RatesStorage) :
  fill w self =
  let log1 := requests_log self ++ [GetVocabulary] in
  let log2 := log1 ++ [GetRates (today w)] in
  let failed e log wo := (Raise (APIException e), mkStorage wo [] (Some (today w)) log) in
  let voc_failed e := failed (VocabularyNotParsed e) log1 [] in
  match vocabulary_feed w with
  | Unreachable cls =>
      failed (VocabularyNotFetched (RequestException cls)) log1 []
  | NotXml => voc_failed ParseError
  | Xml items =>
      match vocabulary_items items ∅ with
      | inl e => voc_failed e
      | inr vocabulary =>
          match rates_feed w (today w) with
          | Unreachable cls =>
              failed (RatesNotFetched (today w) (RequestException cls)) log2 []
          | NotXml => failed (RatesNotParsed (today w) ParseError) log2 []
          | Xml valutes =>
              match valute_items valutes vocabulary [] with
              | (Some e, vocabulary', appended) =>
                  failed (RatesNotParsed (today w) e) log2
                         (contents vocabulary' appended)
              | (None, vocabulary', appended) =>
                  let write_only := contents vocabulary' appended ++ [RUR] in
                  (Return tt,
                   mkStorage write_only write_only (Some (today w)) log2)
              end
          end
      end
  end.
Proof.
  unfold fill, get_vocabulary, reset, deepcopy. unfold_monad.
  destruct (vocabulary_feed w) as [cls| |items]; simpl; try reflexivity.
  destruct (vocabulary_items items ∅) as [e|vocabulary]; simpl; try reflexivity.
  destruct (rates_feed w (today w)) as [cls| |valutes]; simpl; try reflexivity.
  destruct (valute_items valutes vocabulary []) as [[[e|] vocabulary'] appended];
    reflexivity.
Qed.

(** Whatever its outcome, [fill] leaves the date of today in the cache. *)
Lemma fill_cached_date (w : world) (self self' : RatesStorage) (r : result unit) :
  fill w self = (r, self') -> _cached_date self' = Some (today w).
Proof.
  rewrite fill_unfold. cbv zeta.
  repeat match goal with
         | |- context [match ?x with _ => _ end] => destruct x
         end; intros [= <- <-]; reflexivity.
Qed.

(** When [fill] returns, both lists hold the same records. *)
Lemma fill_return_lists (w : world) (self self' : RatesStorage) :
  fill w self = (Return tt, self') ->
  _data_read_only self' = _data_write_only self'.
Proof.
  rewrite fill_unfold. cbv zeta.
  repeat match goal with
         | |- context [match ?x with _ => _ end] => destruct x
         end; intros [= <-]; reflexivity.
Qed.

Lemma data_unfold (w : world) (self : RatesStorage) :
  data w self =
  match (if bool_decide (Some (today w) = _cached_date self)
         then (Return tt, self) else fill w self) with
  | (Return _, self1) =>
      (Return (_data_read_only (republish self1)), republish self1)
  | (Raise e, self1) => (Raise e, self1)
  end.
Proof.
  unfold data, republish, deepcopy. unfold_monad.
  destruct (bool_decide (Some (today w) = _cached_date self)); simpl.
  - destruct (lists_match _ _); reflexivity.
  - destruct (fill w self) as [[[]|e] self1]; [|reflexivity].
    destruct (lists_match _ _); reflexivity.
Qed.

Lemma republish_facts (self : RatesStorage) :
  lists_match (_data_write_only self) (_data_read_only (republish self)) = true
  /\ _data_write_only (republish self) = _data_write_only self
  /\ _cached_date (republish self) = _cached_date self
  /\ requests_log (republish self) = requests_log self.
Proof.
  unfold republish.
  destruct (lists_match (_data_write_only self) (_data_read_only self)) eqn:Hm;
    simpl; repeat split; auto using lists_match_refl.
Qed.

Lemma republish_settled (w : world) (self : RatesStorage) :
  settled w self -> republish self = self.
Proof. intros [_ Hm]. unfold republish. rewrite Hm. reflexivity. Qed.

Lemma settled_republish (w : world) (self : RatesStorage) :
  _cached_date self = Some (today w) -> settled w (republish self).
Proof.
  intros Hdate. destruct (republish_facts self) as (Hm & Hwo & Hd & _).
  split; [congruence|]. rewrite Hwo. exact Hm.
Qed.

Lemma data_settled (w : world) (self : RatesStorage) :
  settled w self -> data w self = (Return (_data_read_only self), self).
Proof.
  intros Hs. rewrite data_unfold.
  destruct Hs as [Hdate Hm] eqn:E.
  rewrite bool_decide_eq_true_2 by congruence.
  rewrite (republish_settled w self) by (split; assumption). reflexivity.
Qed.

(** After any read, returned or raised, the cache carries today's date. *)
Lemma data_cached_date (w : world) (self self' : RatesStorage)
    (r : result (list currency)) :
  data w self = (r, self') -> _cached_date self' = Some (today w).
Proof.
  rewrite data_unfold.
  destruct (bool_decide (Some (today w) = _cached_date self)) eqn:Hd.
  - apply bool_decide_eq_true in Hd. intros [= <- <-].
    destruct (republish_facts self) as (_ & _ & -> & _). congruence.
  - destruct (fill w self) as [[[]|e] self1] eqn:Hfill;
      pose proof (fill_cached_date _ _ _ _ Hfill) as Hdate;
      intros [= <- <-]; [|assumption].
    destruct (republish_facts self1) as (_ & _ & -> & _). assumption.
Qed.

(** A read that returns leaves a settled cache and returns its
    published list. *)
Lemma data_return (w : world) (self self' : RatesStorage) (s : list currency) :
  data w self = (Return s, self') ->
  settled w self' /\ s = _data_read_only self'.
Proof.
  intros Hdata. pose proof (data_cached_date _ _ _ _ Hdata) as Hdate.
  revert Hdata. rewrite data_unfold.
  destruct (if bool_decide _ then _ else _) as [[[]|e] self1]; intros [= <- <-].
  split; [|reflexivity].
  destruct (republish_facts self1) as (Hm & Hwo & Hd & _).
  split; [assumption|]. rewrite Hwo. exact Hm.
Qed.

(** A read on the day of the cache sends no request and leaves the
    working list alone. *)
Lemma data_same_day (w : world) (self : RatesStorage) :
  _cached_date self = Some (today w) ->
  data w self = (Return (_data_read_only (republish self)), republish self).
Proof.
  intros Hdate. rewrite data_unfold.
  rewrite bool_decide_eq_true_2 by congruence. reflexivity.
Qed.

Lemma data_again (w : world) (self self' : RatesStorage) (s : list currency) :
  data w self = (Return s, self') -> data w self' = (Return s, self').
Proof.
  intros [Hs ->]%data_return. apply data_settled, Hs.
Qed.

(** What [lists_match] accepts: lists of one length whose records are
    pairwise [==]. *)
Lemma lists_match_Forall2 (l1 l2 : list currency) :
  lists_match l1 l2 = true <-> Forall2 (fun x y => currency_eq x y = true) l1 l2.
Proof.
  unfold lists_match. revert l2.
  induction l1 as [|x l1 IH]; intros [|y l2]; simpl.
  - split; [constructor|reflexivity].
  - split; [discriminate|inversion 1].
  - split; [discriminate|inversion 1].
  - specialize (IH l2). simpl in IH.
    destruct (length l1 =? length l2)%nat; simpl in *.
    + rewrite andb_true_r, andb_true_iff. split.
      * intros [Hxy Hrest]. constructor; [assumption|]. apply IH, Hrest.
      * inversion 1; subst. split; [assumption|]. apply IH. assumption.
    + split; [discriminate|]. inversion 1; subst.
      apply IH. assumption.
Qed.

End CacheFacts.

Section ListFacts.

Context {A : Type}.

Lemma filter_cons_first (P : A -> bool) (s : list A) (c : A) (rest : list A) :
  List.filter P s = c :: rest -> first_such P s c.
Proof.
  induction s as [|x s IH]; simpl; [discriminate|].
  destruct (P x) eqn:Hx.
  - intros [= -> _]. exists [], s. auto.
  - intros Hf. destruct (IH Hf) as (l1 & l2 & -> & Hc & Hl1).
    exists (x :: l1), l2. auto.
Qed.

Lemma first_such_filter (P : A -> bool) (s : list A) (c : A) :
  first_such P s c -> exists rest, List.filter P s = c :: rest.
Proof.
  intros (l1 & l2 & -> & Hc & Hl1).
  induction Hl1 as [|x l1 Hx _ IH]; simpl.
  - rewrite Hc. eauto.
  - rewrite Hx. exact IH.
Qed.

Lemma first_such_unique (P : A -> bool) (s : list A) (c c' : A) :
  first_such P s c -> first_such P s c' -> c = c'.
Proof.
  intros [r Hr]%first_such_filter [r' Hr']%first_such_filter. congruence.
Qed.

Lemma filter_nil_all (P : A -> bool) (s : list A) :
  List.filter P s = [] <-> Forall (fun x => P x = false) s.
Proof.
  induction s as [|x s IH]; simpl.
  - split; auto.
  - destruct (P x) eqn:Hx; split.
    + discriminate.
    + intros HF. inversion HF; congruence.
    + intros Hf. constructor; [assumption|]. apply IH, Hf.
    + intros HF. inversion HF; subst. apply IH. assumption.
Qed.

(** If some element satisfies [P], there is a first one. *)
Lemma first_such_exists (P : A -> bool) (s : list A) (x : A) :
  x ∈ s -> P x = true -> exists c, first_such P s c.
Proof.
  intros Hin Hx.
  destruct (List.filter P s) as [|c rest] eqn:Hf.
  - apply filter_nil_all in Hf. rewrite Forall_forall in Hf.
    specialize (Hf x Hin). congruence.
  - exists c. eapply filter_cons_first, Hf.
Qed.

Lemma injective_on_NoDup {B} (f : A -> B) (s : list A) (x y : A) :
  NoDup (List.map f s) -> x ∈ s -> y ∈ s -> f x = f y -> x = y.
Proof.
  induction s as [|z s IH]; simpl; intros Hnd Hx Hy Hxy.
  - inversion Hx.
  - apply NoDup_cons in Hnd as [Hz Hnd].
    apply elem_of_cons in Hx as [->|Hx]; apply elem_of_cons in Hy as [->|Hy];
      auto.
    + exfalso. apply Hz. rewrite Hxy. apply list_elem_of_In, in_map.
      apply list_elem_of_In, Hy.
    + exfalso. apply Hz. rewrite <- Hxy. apply list_elem_of_In, in_map.
      apply list_elem_of_In, Hx.
Qed.

End ListFacts.

Section ResolverFacts.

Context `{PyRuntime}.

Lemma closest_exists (request : pystr) (s : list currency) :
  s <> [] -> exists best, closest request s best.
Proof.
  induction s as [|c s IH]; [congruence|]. intros _.
  destruct s as [|c' s'].
  - exists c, [], []. auto.
  - destruct IH as (best & l1 & l2 & Hs & Hl1 & Hl2); [congruence|].
    destruct (le_lt_dec (min_distance c request) (min_distance best request))
      as [Hle|Hlt].
    + exists c, [], (c' :: s'). split; [reflexivity|]. split; [constructor|].
      rewrite Hs. apply Forall_app. split; [|constructor; [assumption|]].
      * eapply Forall_impl; [exact Hl1|]. simpl. intros; lia.
      * eapply Forall_impl; [exact Hl2|]. simpl. intros; lia.
    + exists best, (c :: l1), l2. rewrite Hs. auto.
Qed.

Lemma closest_unique (request : pystr) (s : list currency) (b b' : currency) :
  closest request s b -> closest request s b' ->
  min_distance b request = min_distance b' request.
Proof.
  intros (l1 & l2 & Hs & Hl1 & Hl2) (l1' & l2' & Hs' & Hl1' & Hl2').
  assert (Hb : b ∈ s) by (rewrite Hs; apply elem_of_app; right; left).
  assert (Hb' : b' ∈ s) by (rewrite Hs'; apply elem_of_app; right; left).
  assert (min_distance b request <= min_distance b' request).
  { rewrite Hs in Hb'. rewrite Forall_forall in Hl1, Hl2.
    apply elem_of_app in Hb' as [Hi|Hi]; [apply Hl1 in Hi; lia|].
    apply elem_of_cons in Hi as [->|Hi]; [lia|]. apply Hl2 in Hi; lia. }
  assert (min_distance b' request <= min_distance b request).
  { rewrite Hs' in Hb. rewrite Forall_forall in Hl1', Hl2'.
    apply elem_of_app in Hb as [Hi|Hi]; [apply Hl1' in Hi; lia|].
    apply elem_of_cons in Hi as [->|Hi]; [lia|]. apply Hl2' in Hi; lia. }
  lia.
Qed.

(** *** The stable sort puts the first closest entry in front *)

Lemma insert_by_distance_elem (x y : lev_entry) (l : list lev_entry) :
  y ∈ insert_by_distance x l -> y = x \/ y ∈ l.
Proof.
  induction l as [|z l IH]; simpl.
  - intros ->%list_elem_of_singleton. auto.
  - destruct (lev_distance x <=? lev_distance z)%nat.
    + intros [->|Hy]%elem_of_cons; auto.
    + intros [->|Hy]%elem_of_cons; [right; left|].
      destruct (IH Hy); [auto|right; right; assumption].
Qed.

Lemma sort_by_distance_elem (y : lev_entry) (l : list lev_entry) :
  y ∈ sort_by_distance l -> y ∈ l.
Proof.
  induction l as [|x l IH]; simpl; [auto|].
  intros [->|Hy]%insert_by_distance_elem; [left|right; auto].
Qed.

Lemma sort_by_distance_first (l1 l2 : list lev_entry) (e : lev_entry) :
  Forall (fun x => lev_distance e < lev_distance x) l1 ->
  Forall (fun x => lev_distance e <= lev_distance x) l2 ->
  exists rest, sort_by_distance (l1 ++ e :: l2) = e :: rest.
Proof.
  intros Hl1 Hl2. induction Hl1 as [|x l1 Hx _ IH]; simpl.
  - destruct (sort_by_distance l2) as [|y r] eqn:Hsort; simpl; [eauto|].
    assert (Hy : y ∈ l2) by (apply sort_by_distance_elem; rewrite Hsort; left).
    rewrite Forall_forall in Hl2. apply Hl2 in Hy.
    apply Nat.leb_le in Hy. rewrite Hy. eauto.
  - destruct IH as [rest ->]. simpl.
    apply Nat.leb_gt in Hx. rewrite Hx. eauto.
Qed.

(** *** The comparator and the loop on records with and without strings *)

Lemma lower_method_Return (value : text) (l : pystr) :
  lower_method value = Return l <-> exists s, value = Str s /\ lower s = l.
Proof.
  destruct value as [s|]; simpl; split.
  - intros [= <-]. eauto.
  - intros (s' & [= <-] & <-). reflexivity.
  - discriminate.
  - intros (s' & Hs & _). discriminate.
Qed.

Lemma equality_comparator_false (c : currency) (request : pystr) :
  equality_comparator c request = Return false <->
  exists k r e,
    code c = Str k /\ rus_name c = Str r /\ eng_name c = Str e
    /\ lower k <> lower request /\ lower r <> lower request
    /\ lower e <> lower request.
Proof.
  unfold equality_comparator.
  destruct (code c) as [k|], (rus_name c) as [r|], (eng_name c) as [e|];
    simpl; repeat case_bool_decide; simpl;
    (split;
     [ intros Heq; try discriminate Heq; try (exists k, r, e; auto 10)
     | intros (k' & r' & e' & Hk & Hr & He & Hnk & Hnr & Hne);
       try discriminate Hk; try discriminate Hr; try discriminate He;
       try (injection Hk as <-); try (injection Hr as <-);
       try (injection He as <-); try contradiction; try reflexivity ]).
Qed.

Lemma equality_comparator_true (c : currency) (request : pystr) :
  equality_comparator c request = Return true ->
  lower_method (code c) = Return (lower request)
  \/ lower_method (rus_name c) = Return (lower request)
  \/ lower_method (eng_name c) = Return (lower request).
Proof.
  unfold equality_comparator.
  destruct (code c) as [k|], (rus_name c) as [r|], (eng_name c) as [e|];
    simpl; repeat case_bool_decide; simpl; intros Heq;
    try discriminate Heq; auto; try (left; congruence);
    try (right; left; congruence); try (right; right; congruence).
Qed.

Lemma equality_comparator_code (c : currency) (request : pystr) :
  lower_method (code c) = Return (lower request) ->
  equality_comparator c request = Return true.
Proof.
  unfold equality_comparator. intros ->.
  rewrite bool_decide_eq_true_2 by reflexivity. reflexivity.
Qed.

Lemma equality_comparator_strings (c : currency) (request : pystr) :
  strings c ->
  equality_comparator c request = Return (matches c request).
Proof.
  intros (k & r & e & Hk & Hr & He). unfold matches, equality_comparator.
  rewrite Hk, Hr, He. simpl. repeat case_bool_decide; reflexivity.
Qed.

Lemma equality_comparator_raise (c : currency) (request : pystr) (e : exn) :
  equality_comparator c request = Raise e ->
  e = Error AttributeError /\ ~ strings c.
Proof.
  intros Hraise. split.
  - unfold equality_comparator in Hraise.
    destruct (code c), (rus_name c), (eng_name c); simpl in Hraise;
      repeat case_bool_decide; congruence.
  - intros Hs. rewrite (equality_comparator_strings _ _ Hs) in Hraise.
    discriminate.
Qed.

Lemma equality_comparator_raise_iff (c : currency) (request : pystr) :
  equality_comparator c request = Raise (Error AttributeError) <->
  code c = NoneText
  \/ (lower_method (code c) <> Return (lower request)
      /\ (rus_name c = NoneText
          \/ (lower_method (rus_name c) <> Return (lower request)
              /\ eng_name c = NoneText))).
Proof.
  unfold equality_comparator.
  destruct (code c) as [k|], (rus_name c) as [r|], (eng_name c) as [e|];
    simpl; repeat case_bool_decide; simpl;
    (split;
     [ intros Heq; try discriminate Heq; auto;
       try (right; split; [congruence|];
            first [ solve [left; reflexivity]
                  | right; split; [congruence|reflexivity] ])
     | intros [Hk|[Hnk [Hr|[Hnr He]]]]; try discriminate;
       try reflexivity; try congruence ]).
Qed.

Lemma matches_true (c : currency) (request : pystr) :
  matches c request = true <-> equality_comparator c request = Return true.
Proof.
  unfold matches. destruct (equality_comparator c request) as [[]|]; split;
    congruence.
Qed.

Lemma matches_false (c : currency) (request : pystr) :
  equality_comparator c request = Return false -> matches c request = false.
Proof. unfold matches. intros ->. reflexivity. Qed.

Lemma min_distance_strings (c : currency) (request : pystr) (r e : pystr) :
  rus_name c = Str r -> eng_name c = Str e ->
  min_distance c request
  = Nat.min (distance (lower r) (lower request))
            (distance (lower e) (lower request)).
Proof.
  intros Hr He. unfold min_distance, lev_distance_entry.
  rewrite Hr, He. reflexivity.
Qed.

Lemma lev_distance_entry_strings (c : currency) (request : pystr) :
  strings c ->
  lev_distance_entry c request
  = Return {| lev_code := code c; lev_distance := min_distance c request |}.
Proof.
  intros (k & r & e & Hk & Hr & He). unfold min_distance, lev_distance_entry.
  rewrite Hr, He. reflexivity.
Qed.

Lemma equality_comparator_false_strings (c : currency) (request : pystr) :
  equality_comparator c request = Return false -> strings c.
Proof.
  intros (k & r & e & Hk & Hr & He & _)%equality_comparator_false.
  exists k, r, e. auto.
Qed.

(** *** [list(filter(...))] with a function that can raise *)

Lemma filter_list_Return {A} (f : A -> result bool) (g : A -> bool)
    (l : list A) :
  Forall (fun x => f x = Return (g x)) l ->
  filter_list f l = Return (List.filter g l).
Proof.
  induction 1 as [|x l Hx _ IH]; simpl; [reflexivity|].
  rewrite Hx, IH. destruct (g x); reflexivity.
Qed.

Lemma filter_list_Raise {A} (f : A -> result bool) (l : list A) (e : exn) :
  filter_list f l = Raise e -> exists x, x ∈ l /\ f x = Raise e.
Proof.
  induction l as [|x l IH]; simpl; [discriminate|].
  destruct (f x) as [keep|e'] eqn:Hx.
  - destruct (filter_list f l) as [filtered|e'']; [discriminate|].
    intros [= ->]. destruct IH as (y & Hy & Hfy); [reflexivity|].
    exists y. split; [right; assumption|assumption].
  - intros [= ->]. exists x. split; [left|assumption].
Qed.

Lemma filter_list_elem {A} (f : A -> result bool) (l filtered : list A) :
  filter_list f l = Return filtered ->
  Forall (fun x => exists keep, f x = Return keep) l
  /\ filtered
     = List.filter (fun x => match f x with
                             | Return keep => keep
                             | Raise _ => false
                             end) l.
Proof.
  revert filtered. induction l as [|x l IH]; simpl; intros filtered.
  - intros [= <-]. split; [constructor|reflexivity].
  - destruct (f x) as [keep|e] eqn:Hx; [|discriminate].
    destruct (filter_list f l) as [rest|e]; [|discriminate].
    intros [= <-]. destruct (IH rest eq_refl) as [Hall ->].
    split; [constructor; eauto|]. destruct keep; reflexivity.
Qed.

Lemma filter_list_raises {A} (f : A -> result bool) (l : list A) (x : A)
    (e : exn) :
  x ∈ l -> f x = Raise e -> exists e', filter_list f l = Raise e'.
Proof.
  induction l as [|y l IH]; simpl; [intros Hx; inversion Hx|].
  intros [->|Hx]%elem_of_cons Hfx.
  - rewrite Hfx. eauto.
  - destruct (f y); [|eauto].
    destruct (IH Hx Hfx) as [e' ->]. eauto.
Qed.

Lemma lev_distances_loop_strings (s : list currency) (request : pystr) :
  Forall strings s ->
  lev_distances_loop s request
  = Return (List.map (fun c => {| lev_code := code c;
                                  lev_distance := min_distance c request |})
                     s).
Proof.
  induction 1 as [|c s Hc _ IH]; simpl; [reflexivity|].
  rewrite (lev_distance_entry_strings _ _ Hc), IH. reflexivity.
Qed.

(** *** [get_currency_data] and [find_currency_by_code] on the snapshot
    that [data] returns *)

Lemma find_currency_by_code_snapshot (w : world) (self self' : RatesStorage)
    (s : list currency) (code0 : text) :
  data w self = (Return s, self') ->
  find_currency_by_code code0 w self = (Return (find_in s code0), self').
Proof.
  intros Hdata. unfold find_currency_by_code, bind. rewrite Hdata.
  unfold ret, find_in.
  destruct (List.filter _ s); reflexivity.
Qed.

Lemma get_currency_data_snapshot (w : world) (self self' : RatesStorage)
    (s : list currency) (request : pystr) :
  data w self = (Return s, self') ->
  get_currency_data request w self = (resolve_in s request, self').
Proof.
  intros Hdata. pose proof (data_again _ _ _ _ Hdata) as Hagain.
  unfold get_currency_data, resolve_in. unfold bind at 1. rewrite Hdata.
  unfold bind at 1, lift.
  destruct (filter_list _ s) as [[|c rest]|e]; [|reflexivity|reflexivity].
  unfold bind at 1. rewrite Hagain. unfold bind at 1.
  destruct (lev_distances_loop s request) as [entries|e]; [|reflexivity].
  destruct (sort_by_distance entries) as [|first rest]; [reflexivity|].
  destruct (lev_distance first <=? 3)%nat; [|reflexivity].
  apply find_currency_by_code_snapshot, Hagain.
Qed.

Lemma get_currency_data_raise (w : world) (self self' : RatesStorage)
    (e : exn) (request : pystr) :
  data w self = (Raise e, self') ->
  get_currency_data request w self = (Raise e, self').
Proof.
  intros Hdata. unfold get_currency_data. unfold bind at 1.
  rewrite Hdata. reflexivity.
Qed.

(** The fuzzy stage in terms of [closest]. *)
Lemma fuzzy_in_closest (s : list currency) (request : pystr) (best : currency) :
  closest request s best ->
  fuzzy_in s request =
  if (min_distance best request <=? 3)%nat
  then Return (find_in s (code best)) else Return None.
Proof.
  intros (l1 & l2 & Hs & Hl1 & Hl2). unfold fuzzy_in.
  set (entry := fun c => {| lev_code := code c;
                            lev_distance := min_distance c request |}).
  destruct (sort_by_distance_first (List.map entry l1) (List.map entry l2)
                                   (entry best)) as [rest Hsort].
  - apply Forall_forall. intros x [c [<- Hc]]%list_elem_of_In%in_map_iff.
    rewrite Forall_forall in Hl1. apply Hl1, list_elem_of_In, Hc.
  - apply Forall_forall. intros x [c [<- Hc]]%list_elem_of_In%in_map_iff.
    rewrite Forall_forall in Hl2. apply Hl2, list_elem_of_In, Hc.
  - rewrite Hs, map_app. simpl. fold entry. rewrite Hsort. reflexivity.
Qed.

(** The first stage finds the first record on which the comparator returns
    [True], when it raises on none. *)
Lemma resolve_in_exact (s : list currency) (request : pystr) (c : currency) :
  Forall (fun x => exists found, equality_comparator x request = Return found)
         s ->
  first_such (fun x => matches x request) s c ->
  resolve_in s request = Return (Some c).
Proof.
  intros Hall [rest Hf]%first_such_filter. unfold resolve_in.
  rewrite (filter_list_Return _ (fun x => matches x request)), Hf;
    [reflexivity|].
  eapply Forall_impl; [exact Hall|]. simpl. intros x [found Hx].
  unfold matches. rewrite Hx. reflexivity.
Qed.

Lemma resolve_in_no_exact (s : list currency) (request : pystr) :
  Forall (fun c => equality_comparator c request = Return false) s ->
  resolve_in s request = fuzzy_in s request.
Proof.
  intros Hno. unfold resolve_in, fuzzy_in.
  rewrite (filter_list_Return _ (fun _ => false)) by exact Hno.
  replace (List.filter (fun _ => false) s) with (@nil currency)
    by (clear; induction s; simpl; auto).
  rewrite lev_distances_loop_strings; [reflexivity|].
  eapply Forall_impl; [exact Hno|]. simpl.
  intros c Hc. eapply equality_comparator_false_strings, Hc.
Qed.

Lemma find_in_first (s : list currency) (code0 : text) (c : currency) :
  find_in s code0 = Some c <->
  first_such (fun x => bool_decide (code x = code0)) s c.
Proof.
  unfold find_in. split.
  - destruct (List.filter _ s) as [|c' rest] eqn:Hf; simpl; [discriminate|].
    intros [= ->]. eapply filter_cons_first, Hf.
  - intros [rest ->]%first_such_filter. reflexivity.
Qed.

Lemma find_in_none (s : list currency) (code0 : text) :
  find_in s code0 = None <-> Forall (fun x => code x <> code0) s.
Proof.
  unfold find_in. rewrite <- (Forall_iff (fun x => bool_decide (code x = code0) = false)).
  - rewrite <- filter_nil_all. destruct (List.filter _ s); simpl; split; congruence.
  - intros x. apply bool_decide_eq_false.
Qed.

End ResolverFacts.

Section FillFacts.

Context `{PyRuntime}.

Lemma complete_insert_code vocabulary appended id d c :
  vocabulary !! id = Some d ->
  complete vocabulary appended ->
  complete (<[id := {| v_rus_name := v_rus_name d; v_eng_name := v_eng_name d;
                       v_code := Some c; v_rub_rate := v_rub_rate d |}]>
              vocabulary) appended.
Proof.
  intros Hd Hc. unfold complete in *. eapply Forall_impl; [exact Hc|].
  intros id' (d' & c' & r' & Hd' & Hc' & Hr'). simpl.
  destruct (decide (id = id')) as [->|Hne].
  - rewrite lookup_insert_eq. rewrite Hd in Hd'. injection Hd' as ->.
    eexists _, c, r'. simpl. auto.
  - rewrite lookup_insert_ne by assumption. eauto 6.
Qed.

Lemma complete_insert_full vocabulary appended id d :
  is_Some (v_code d) -> is_Some (v_rub_rate d) ->
  complete vocabulary appended ->
  complete (<[id := d]> vocabulary) (appended ++ [id]).
Proof.
  intros [c Hc] [r Hr] Hcomp. unfold complete in *.
  apply Forall_app. split.
  - eapply Forall_impl; [exact Hcomp|].
    intros id' (d' & c' & r' & Hd' & Hc' & Hr'). simpl.
    destruct (decide (id = id')) as [->|Hne].
    + rewrite lookup_insert_eq. eauto 6.
    + rewrite lookup_insert_ne by assumption. eauto 6.
  - constructor; [|constructor]. rewrite lookup_insert_eq. eauto 6.
Qed.

Lemma codes_in_insert (P : text -> Prop) vocabulary id d :
  codes_in P vocabulary ->
  (forall c, v_code d = Some c -> P c) ->
  codes_in P (<[id := d]> vocabulary).
Proof.
  intros Hcodes Hd id' d' c. destruct (decide (id = id')) as [->|Hne].
  - rewrite lookup_insert_eq. intros [= <-]. apply Hd.
  - rewrite lookup_insert_ne by assumption. apply Hcodes.
Qed.

(** The loop keeps the appended dicts complete, appends one reference per
    element when it runs to the end, and writes only codes of the feed. *)
Lemma valute_items_spec (items : list valute) :
  forall vocabulary appended r vocabulary' appended' (P : text -> Prop),
    valute_items items vocabulary appended = (r, vocabulary', appended') ->
    complete vocabulary appended ->
    codes_in P vocabulary ->
    (forall v c, v ∈ items -> valute_CharCode v = Some c -> P c) ->
    complete vocabulary' appended'
    /\ codes_in P vocabulary'
    /\ (r = None -> length appended' = length appended + length items).
Proof.
  induction items as [|item rest IH]; simpl;
    intros vocabulary appended r vocabulary' appended' P Hrun Hcomp Hcodes HP.
  - injection Hrun as <- <- <-. repeat split; auto.
  - assert (HPrest : forall v c, v ∈ rest -> valute_CharCode v = Some c -> P c).
    { intros v c Hv. apply HP. right. exact Hv. }
    destruct (vocabulary !! valute_ID item) as [d|] eqn:Hd;
      [|injection Hrun as <- <- <-; repeat split; auto; discriminate].
    destruct (valute_CharCode item) as [char_code|] eqn:Hcode;
      [|injection Hrun as <- <- <-; repeat split; auto; discriminate].
    assert (Hitem : P char_code) by (apply (HP item); [left|assumption]).
    pose proof (complete_insert_code _ _ _ _ char_code Hd Hcomp) as Hcomp1.
    assert (Hcodes1 : codes_in P
              (<[valute_ID item :=
                   {| v_rus_name := v_rus_name d; v_eng_name := v_eng_name d;
                      v_code := Some char_code; v_rub_rate := v_rub_rate d |}]>
                 vocabulary)).
    { apply codes_in_insert; [assumption|]. simpl. intros c [= <-]. assumption. }
    destruct (valute_VunitRate item) as [[unit_rate|]|];
      [|injection Hrun as <- <- <-; repeat split; auto; discriminate..].
    destruct (py_float (replace_comma unit_rate)) as [rate|];
      [|injection Hrun as <- <- <-; repeat split; auto; discriminate].
    simpl in Hrun.
    destruct (IH _ _ _ _ _ P Hrun) as (Hc' & Hcd' & Hlen); auto.
    + apply complete_insert_full; simpl; eauto.
    + apply codes_in_insert; [assumption|]. simpl. intros c [= <-]. assumption.
    + repeat split; auto. intros Hr. rewrite (Hlen Hr), length_app. simpl. lia.
Qed.

Lemma contents_length vocabulary appended :
  complete vocabulary appended ->
  length (contents vocabulary appended) = length appended.
Proof.
  unfold contents. induction 1 as [|id l (d & c & r & Hd & Hc & Hr) _ IH];
    simpl; [reflexivity|].
  rewrite Hd. simpl. unfold as_currency. rewrite Hc, Hr. simpl.
  f_equal. exact IH.
Qed.

Lemma contents_codes (P : text -> Prop) vocabulary appended :
  codes_in P vocabulary ->
  Forall (fun c => P (code c)) (contents vocabulary appended).
Proof.
  intros Hcodes. unfold contents.
  induction appended as [|id l IH]; simpl; [constructor|].
  destruct (vocabulary !! id) as [d|] eqn:Hd; simpl; [|exact IH].
  unfold as_currency.
  destruct (v_code d) as [c|] eqn:Hc; [|exact IH].
  destruct (v_rub_rate d) as [r|]; [|exact IH].
  constructor; [|exact IH]. simpl. eapply Hcodes; eauto.
Qed.

Lemma vocabulary_items_no_code (items : list voc_item) :
  forall result vocabulary (P : text -> Prop),
    vocabulary_items items result = inr vocabulary ->
    codes_in P result -> codes_in P vocabulary.
Proof.
  induction items as [|item rest IH]; simpl; intros result vocabulary P.
  - intros [= <-]. auto.
  - destruct (item_Name item); [|discriminate].
    destruct (item_EngName item); [|discriminate].
    intros Hrun Hcodes. eapply IH; [exact Hrun|].
    apply codes_in_insert; [assumption|]. simpl. discriminate.
Qed.

(** A run of [fill] that returns: the working list and the published list
    are the fetched records, one per [Valute] element, followed by
    [RUR]. *)
Lemma fill_return (w : world) (self self' : RatesStorage) :
  fill w self = (Return tt, self') ->
  exists valutes fetched,
    rates_feed w (today w) = Xml valutes
    /\ length fetched = length valutes
    /\ Forall (fun c => exists v, v ∈ valutes
                                  /\ valute_CharCode v = Some (code c)) fetched
    /\ _data_write_only self' = fetched ++ [RUR]
    /\ _data_read_only self' = fetched ++ [RUR].
Proof.
  rewrite fill_unfold. cbv zeta.
  destruct (vocabulary_feed w) as [cls| |items]; try discriminate.
  destruct (vocabulary_items items ∅) as [e|vocabulary] eqn:Hvoc;
    try discriminate.
  destruct (rates_feed w (today w)) as [cls| |valutes]; try discriminate.
  destruct (valute_items valutes vocabulary [])
    as [[[e|] vocabulary'] appended] eqn:Hloop; try discriminate.
  intros [= <-]. simpl.
  set (P := fun c => exists v, v ∈ valutes /\ valute_CharCode v = Some c).
  destruct (valute_items_spec _ _ _ _ _ _ P Hloop) as (Hcomp & Hcodes & Hlen).
  - constructor.
  - eapply vocabulary_items_no_code; [exact Hvoc|].
    intros id d c. rewrite lookup_empty. discriminate.
  - intros v c Hv Hc. exists v. auto.
  - exists valutes, (contents vocabulary' appended).
    split; [reflexivity|]. split.
    + rewrite contents_length by assumption. rewrite Hlen; reflexivity.
    + split; [|auto]. apply (contents_codes P). exact Hcodes.
Qed.

End FillFacts.

Section RoundFacts.

Lemma div_half_even_nearest (a b : Z) :
  (0 <= a)%Z -> (0 < b)%Z ->
  (0 <= div_half_even a b)%Z /\ nearest_even a b (div_half_even a b).
Proof.
  intros Ha Hb. unfold div_half_even, nearest_even.
  pose proof (Z.div_mod a b ltac:(lia)) as Hdm.
  pose proof (Z.mod_pos_bound a b Hb) as Hr.
  pose proof (Z.div_pos a b Ha Hb) as Hq.
  set (q := (a / b)%Z) in *. set (r := (a mod b)%Z) in *.
  assert (Heq : (2 * a - 2 * q * b = 2 * r)%Z) by lia.
  assert (Heq1 : (2 * a - 2 * (q + 1) * b = 2 * r - 2 * b)%Z) by lia.
  destruct (Z.compare_spec (2 * r) b) as [He|Hl|Hg].
  - destruct (Z.even q) eqn:Hev.
    + rewrite Heq. split; [lia|]. split; [lia|auto].
    + rewrite Heq1. split; [lia|]. split; [lia|]. intros _.
      rewrite Z.even_add, Hev. reflexivity.
  - rewrite Heq. split; [lia|]. split; lia.
  - rewrite Heq1. split; [lia|]. split; lia.
Qed.

(** There is one such integer. *)
Lemma nearest_even_unique (a b n n' : Z) :
  (0 < b)%Z -> nearest_even a b n -> nearest_even a b n' -> n = n'.
Proof.
  intros Hb [H1 E1] [H2 E2].
  destruct (Z.eq_dec n n') as [|Hne]; [assumption|exfalso].
  assert (Hcases : (n' = n + 1 \/ n = n' + 1)%Z) by nia.
  destruct Hcases as [-> | ->].
  - assert (Z.abs (2 * a - 2 * n * b) = b)%Z by nia.
    assert (Z.abs (2 * a - 2 * (n + 1) * b) = b)%Z by nia.
    specialize (E1 ltac:(assumption)). specialize (E2 ltac:(assumption)).
    rewrite Z.even_add, E1 in E2. discriminate.
  - assert (Z.abs (2 * a - 2 * n' * b) = b)%Z by nia.
    assert (Z.abs (2 * a - 2 * (n' + 1) * b) = b)%Z by nia.
    specialize (E1 ltac:(assumption)). specialize (E2 ltac:(assumption)).
    rewrite Z.even_add, E2 in E1. discriminate.
Qed.

(** [round(x, 2)] of a finite [x] with the exact value [m * 2 ^ e]: the
    hundredths nearest to that value, ties to the even one, read back as
    the nearest double. *)
Lemma round_hundredths (x : float) :
  match Prim2SF x with
  | S754_finite sign m e =>
      exists n : Z,
        (0 <= n)%Z
        /\ nearest_even (Zpos m * 100 * 2 ^ Z.max e 0) (2 ^ Z.max (- e) 0) n
        /\ round x 2 = of_hundredths sign n
  | _ => round x 2 = x
  end.
Proof.
  unfold round. destruct (Prim2SF x) as [sign|sign| |sign m e]; try reflexivity.
  change (10 ^ Z.of_N 2)%Z with 100%Z. cbv zeta.
  destruct (0 <=? e)%Z eqn:He.
  - apply Z.leb_le in He. exists (Zpos m * 2 ^ e * 100)%Z.
    assert (Hp : (0 < 2 ^ e)%Z) by (apply Z.pow_pos_nonneg; lia).
    rewrite Z.max_l by lia. rewrite Z.max_r by lia.
    split; [lia|]. split; [|reflexivity].
    change (2 ^ 0)%Z with 1%Z. unfold nearest_even.
    replace (2 * (Zpos m * 100 * 2 ^ e) - 2 * (Zpos m * 2 ^ e * 100) * 1)%Z
      with 0%Z by ring.
    simpl. split; [lia|discriminate].
  - apply Z.leb_gt in He.
    assert (Hp : (0 < 2 ^ (- e))%Z) by (apply Z.pow_pos_nonneg; lia).
    destruct (div_half_even_nearest (Zpos m * 100) (2 ^ (- e)))
      as [Hn Hnear]; [lia|assumption|].
    exists (div_half_even (Zpos m * 100) (2 ^ (- e))).
    rewrite Z.max_r by lia. rewrite Z.max_l by lia.
    change (2 ^ 0)%Z with 1%Z. rewrite Z.mul_1_r.
    split; [assumption|]. split; [assumption|reflexivity].
Qed.

End RoundFacts.

Section PriceFacts.

Context `{PyRuntime}.

Lemma get_price_not_number (w : world) (self : RatesStorage)
    (base quote amount : pystr) :
  py_float amount = None ->
  get_price base quote amount w self = (Return (Message AmountNotNumber), self).
Proof. intros Hp. unfold get_price, catch_api. rewrite Hp. reflexivity. Qed.

Lemma get_price_not_positive (w : world) (self : RatesStorage)
    (base quote amount : pystr) (a : float) :
  py_float amount = Some a -> PrimFloat.leb a 0%float = true ->
  get_price base quote amount w self = (Return (Message AmountNotPositive), self).
Proof. intros Hp Ha. unfold get_price, catch_api. rewrite Hp, Ha. reflexivity. Qed.

(** The run of [get_price] once the amount is accepted and both
    currencies are found. *)
Lemma get_price_resolved (w : world) (self self1 self2 : RatesStorage)
    (base quote amount : pystr) (a : float) (b q : currency) :
  py_float amount = Some a -> PrimFloat.leb a 0%float = false ->
  get_currency_data base w self = (Return (Some b), self1) ->
  get_currency_data quote w self1 = (Return (Some q), self2) ->
  get_price base quote amount w self =
  (if bool_decide (code b = code q) then Return (Message SameCurrency)
   else if PrimFloat.eqb (rub_rate q) 0%float then Raise ZeroDivisionError
   else Return (Price a b (round (rub_rate b / rub_rate q * a)%float 2) q),
   self2).
Proof.
  intros Hp Ha Hb Hq. unfold get_price, catch_api. rewrite Hp, Ha.
  unfold bind. rewrite Hb, Hq.
  destruct (bool_decide (code b = code q)); [reflexivity|].
  destruct (PrimFloat.eqb (rub_rate q) 0%float); reflexivity.
Qed.

End PriceFacts.

Section LastFacts.

Context {A : Type}.

Lemma last_with_Some (P : A -> bool) (l : list A) (x : A) :
  last_with P l = Some x -> P x = true /\ x ∈ l.
Proof.
  induction l as [|y l IH]; simpl; [discriminate|].
  destruct (last_with P l) as [z|].
  - intros [= ->]. destruct IH as [HP Hin]; [reflexivity|]. split; [assumption|].
    right. assumption.
  - destruct (P y) eqn:Hy; [|discriminate].
    intros [= ->]. split; [assumption|left].
Qed.

Lemma last_with_None (P : A -> bool) (l : list A) :
  last_with P l = None <-> Forall (fun x => P x = false) l.
Proof.
  induction l as [|y l IH]; simpl.
  - split; [constructor|reflexivity].
  - destruct (last_with P l) as [z|].
    + split; [discriminate|]. intros HF. apply Forall_cons in HF as [_ HF].
      apply IH in HF. discriminate.
    + destruct (P y) eqn:Hy.
      * split; [discriminate|]. intros HF. apply Forall_cons in HF as [HF _].
        congruence.
      * split; [|reflexivity]. intros _. constructor; [assumption|].
        apply IH. reflexivity.
Qed.

Lemma last_with_elem (P : A -> bool) (l : list A) (x : A) :
  x ∈ l -> P x = true -> exists y, last_with P l = Some y.
Proof.
  intros Hin Hx. destruct (last_with P l) as [y|] eqn:Hl; [eauto|].
  apply last_with_None in Hl. rewrite Forall_forall in Hl.
  specialize (Hl x Hin). congruence.
Qed.

End LastFacts.

Section FeedFacts.

Context `{PyRuntime}.

(** *** The vocabulary *)

Lemma vocabulary_items_result (items : list voc_item) :
  forall result,
    if forallb item_ok items
    then exists vocabulary, vocabulary_items items result = inr vocabulary
    else vocabulary_items items result = inl AttributeError.
Proof.
  induction items as [|item rest IH]; intros result; simpl; [eauto|].
  unfold item_ok at 1.
  destruct (item_Name item) as [rus|]; [|reflexivity].
  destruct (item_EngName item) as [eng|]; [|reflexivity].
  simpl. apply IH.
Qed.

(** After the loop, an id stands for the names of the last [Item] that
    carries it. *)
Lemma vocabulary_items_lookup (items : list voc_item) (id : text) :
  forall result vocabulary,
    vocabulary_items items result = inr vocabulary ->
    match last_with (fun i => bool_decide (item_ID i = id)) items with
    | Some it =>
        exists rus eng,
          item_Name it = Some rus /\ item_EngName it = Some eng
          /\ vocabulary !! id = Some (mkVocDict rus eng None None)
    | None => vocabulary !! id = result !! id
    end.
Proof.
  induction items as [|item rest IH]; intros result vocabulary; simpl.
  - intros [= <-]. reflexivity.
  - destruct (item_Name item) as [rus|] eqn:Hrus; [|discriminate].
    destruct (item_EngName item) as [eng|] eqn:Heng; [|discriminate].
    intros Hrun. specialize (IH _ _ Hrun).
    destruct (last_with _ rest) as [it|]; [exact IH|].
    destruct (bool_decide (item_ID item = id)) eqn:Hid.
    + apply bool_decide_eq_true in Hid. subst id.
      rewrite lookup_insert_eq in IH. eauto.
    + apply bool_decide_eq_false in Hid.
      rewrite lookup_insert_ne in IH by assumption. exact IH.
Qed.

Lemma vocabulary_items_ids (items : list voc_item)
    (vocabulary : gmap text voc_dict) (id : text) :
  vocabulary_items items ∅ = inr vocabulary ->
  is_Some (vocabulary !! id) <-> id ∈ List.map item_ID items.
Proof.
  intros Hrun. pose proof (vocabulary_items_lookup items id _ _ Hrun) as Hl.
  destruct (last_with _ items) as [it|] eqn:Hlast.
  - destruct Hl as (rus & eng & _ & _ & ->).
    apply last_with_Some in Hlast as [Hid Hin].
    apply bool_decide_eq_true in Hid. subst id.
    split; [intros _|eauto].
    apply list_elem_of_In, in_map, list_elem_of_In, Hin.
  - rewrite Hl, lookup_empty. split; [intros [? [=]]|].
    intros [it [<- Hin]]%list_elem_of_In%in_map_iff. exfalso.
    apply last_with_None in Hlast. rewrite Forall_forall in Hlast.
    specialize (Hlast it (proj2 (list_elem_of_In _ _) Hin)).
    apply bool_decide_eq_false in Hlast. congruence.
Qed.

(** *** The rates *)

(** The loop runs to its end exactly on elements that are all well formed;
    the ids known to the vocabulary do not change on the way. *)
Lemma valute_items_result (ids : list text) (items : list valute) :
  forall vocabulary appended,
    (forall id, is_Some (vocabulary !! id) <-> id ∈ ids) ->
    (valute_items items vocabulary appended).1.1 = None
    <-> forallb (valute_ok ids) items = true.
Proof.
  induction items as [|item rest IH]; intros vocabulary appended Hids; simpl.
  - split; reflexivity.
  - unfold valute_ok at 1.
    destruct (vocabulary !! valute_ID item) as [d|] eqn:Hd.
    + rewrite (bool_decide_eq_true_2 (valute_ID item ∈ ids))
        by (apply Hids; eauto).
      destruct (valute_CharCode item) as [c|]; [|simpl; split; discriminate].
      destruct (valute_VunitRate item) as [[unit_rate|]|];
        [|simpl; split; discriminate..].
      destruct (py_float (replace_comma unit_rate)) as [r|];
        [|simpl; split; discriminate].
      simpl. apply IH. intros id. rewrite <- Hids.
      destruct (decide (valute_ID item = id)) as [<-|Hne].
      * rewrite lookup_insert_eq, Hd. split; eauto.
      * rewrite !lookup_insert_ne by assumption. reflexivity.
    + rewrite (bool_decide_eq_false_2 (valute_ID item ∈ ids)).
      * simpl. split; discriminate.
      * intros Hin. apply Hids in Hin as [d' Hd']. congruence.
Qed.

(** After a loop that ran to its end, the references are the ids of the
    elements, and the dict of an id carries the names it had before and
    the code and rate of the last element with that id. *)
Lemma valute_items_lookup (items : list valute) (id : text) :
  forall vocabulary appended vocabulary' appended',
    valute_items items vocabulary appended = (None, vocabulary', appended') ->
    appended' = appended ++ List.map valute_ID items
    /\ match last_with (fun x => bool_decide (valute_ID x = id)) items with
       | Some lv =>
           exists d c unit_rate r,
             vocabulary !! id = Some d
             /\ valute_CharCode lv = Some c
             /\ valute_VunitRate lv = Some (Str unit_rate)
             /\ py_float (replace_comma unit_rate) = Some r
             /\ vocabulary' !! id
                = Some (mkVocDict (v_rus_name d) (v_eng_name d) (Some c) (Some r))
       | None => vocabulary' !! id = vocabulary !! id
       end.
Proof.
  induction items as [|item rest IH];
    intros vocabulary appended vocabulary' appended'; simpl.
  - intros [= <- <-]. rewrite app_nil_r. auto.
  - destruct (vocabulary !! valute_ID item) as [d0|] eqn:Hd0; [|discriminate].
    destruct (valute_CharCode item) as [c0|] eqn:Hc0; [|discriminate].
    destruct (valute_VunitRate item) as [[t0|]|] eqn:Ht0; [|discriminate..].
    destruct (py_float (replace_comma t0)) as [r0|] eqn:Hr0; [|discriminate].
    simpl. intros Hrun. destruct (IH _ _ _ _ Hrun) as [Happ Hlook].
    split; [rewrite Happ, <- app_assoc; reflexivity|].
    destruct (last_with _ rest) as [lv|].
    + destruct Hlook as (d & c & unit_rate & r & Hd & Hc & Ht & Hr & Hv).
      destruct (decide (valute_ID item = id)) as [<-|Hne].
      * rewrite lookup_insert_eq in Hd. injection Hd as <-. simpl in Hv.
        exists d0, c, unit_rate, r. auto.
      * rewrite !lookup_insert_ne in Hd by assumption.
        exists d, c, unit_rate, r. auto.
    + destruct (bool_decide (valute_ID item = id)) eqn:Hid.
      * apply bool_decide_eq_true in Hid. subst id.
        rewrite lookup_insert_eq in Hlook.
        exists d0, c0, t0, r0. auto.
      * apply bool_decide_eq_false in Hid.
        rewrite !lookup_insert_ne in Hlook by assumption. exact Hlook.
Qed.

End FeedFacts.

Section RequestFacts.

Context `{PyRuntime}.

(** A read raises only while it refreshes, and then what [fill] raised. *)
Lemma data_raise_inv (w : world) (self self' : RatesStorage) (e : exn) :
  data w self = (Raise e, self') ->
  _cached_date self <> Some (today w)
  /\ fill w self = (Raise e, self')
  /\ exists m, e = APIException m /\ upstream m = true
                /\ _data_read_only self' = [].
Proof.
  rewrite data_unfold.
  destruct (bool_decide (Some (today w) = _cached_date self)) eqn:Hd;
    [discriminate|].
  apply bool_decide_eq_false in Hd.
  destruct (fill w self) as [[[]|e0] self1] eqn:Hfill; [discriminate|].
  intros Heq. injection Heq as <- <-.
  split; [congruence|]. split; [reflexivity|].
  revert Hfill. rewrite fill_unfold. cbv zeta.
  repeat match goal with
         | |- context [match ?x with _ => _ end] => destruct x
         end; intros [= <- <-]; eauto.
Qed.

(** What a read adds to the log. *)
Lemma data_requests (w : world) (self self' : RatesStorage)
    (r : result (list currency)) :
  data w self = (r, self') ->
  requests_log self'
  = requests_log self
    ++ (if bool_decide (Some (today w) = _cached_date self) then []
        else GetVocabulary
             :: (if vocabulary_ok w then [GetRates (today w)] else [])).
Proof.
  rewrite data_unfold.
  destruct (bool_decide (Some (today w) = _cached_date self)).
  - intros [= <- <-]. rewrite app_nil_r. apply republish_facts.
  - destruct (fill w self) as [[[]|e] self1] eqn:Hfill; intros [= <- <-].
    + destruct (republish_facts self1) as (_ & _ & _ & ->).
      revert Hfill. clear. rewrite fill_unfold. cbv zeta. unfold vocabulary_ok.
      destruct (vocabulary_feed w) as [cls| |items]; try discriminate.
      pose proof (vocabulary_items_result items ∅) as Hvoc.
      destruct (forallb item_ok items);
        [destruct Hvoc as [vocabulary ->]|rewrite Hvoc; discriminate].
      destruct (rates_feed w (today w)) as [cls| |valutes]; try discriminate.
      destruct (valute_items valutes vocabulary [])
        as [[[e|] vocabulary'] appended]; [discriminate|].
      intros [= <-]. simpl. rewrite <- app_assoc. reflexivity.
    + revert Hfill. clear. rewrite fill_unfold. cbv zeta. unfold vocabulary_ok.
      destruct (vocabulary_feed w) as [cls| |items];
        try (intros [= <- <-]; reflexivity).
      pose proof (vocabulary_items_result items ∅) as Hvoc.
      destruct (forallb item_ok items);
        [destruct Hvoc as [vocabulary ->]
        |rewrite Hvoc; intros [= <- <-]; reflexivity].
      destruct (rates_feed w (today w)) as [cls| |valutes];
        try (intros [= <- <-]; simpl; rewrite <- app_assoc; reflexivity).
      destruct (valute_items valutes vocabulary [])
        as [[[e0|] vocabulary'] appended]; [|discriminate].
      intros [= <- <-]. simpl. rewrite <- app_assoc. reflexivity.
Qed.

(** The cache is settled for every world of the same day. *)
Lemma settled_same_day (w w' : world) (self : RatesStorage) :
  today w' = today w -> settled w self -> settled w' self.
Proof. intros Hday [Hdate Hm]. split; [congruence|assumption]. Qed.

(** The outcomes of the lookup on a snapshot. *)
Lemma sort_by_distance_nil (l : list lev_entry) :
  sort_by_distance l = [] -> l = [].
Proof.
  destruct l as [|x l]; [reflexivity|]. simpl.
  destruct (sort_by_distance l) as [|y r]; simpl; [discriminate|].
  destruct (lev_distance x <=? lev_distance y)%nat; discriminate.
Qed.

Lemma find_in_elem (s : list currency) (code0 : text) (c : currency) :
  find_in s code0 = Some c -> c ∈ s /\ code c = code0.
Proof.
  intros (l1 & l2 & -> & Hc & _)%find_in_first.
  apply bool_decide_eq_true in Hc. split; [|assumption].
  apply elem_of_app. right. left.
Qed.

Lemma resolve_in_outcomes (s : list currency) (request : pystr) :
  match resolve_in s request with
  | Raise e =>
      (e = IndexError /\ s = [])
      \/ (e = Error AttributeError
          /\ exists c, c ∈ s
                /\ equality_comparator c request = Raise (Error AttributeError))
  | Return (Some c) =>
      c ∈ s
      /\ (equality_comparator c request = Return true
          \/ exists best, best ∈ s /\ code c = code best
                          /\ min_distance best request <= 3)
  | Return None =>
      s <> []
      /\ Forall (fun c => equality_comparator c request = Return false) s
  end.
Proof.
  unfold resolve_in.
  destruct (filter_list _ s) as [[|c rest]|e] eqn:Hf.
  - apply filter_list_elem in Hf as [Hall Hf]. symmetry in Hf.
    apply filter_nil_all in Hf.
    assert (Hno : Forall (fun c => equality_comparator c request = Return false)
                         s).
    { rewrite Forall_forall in Hall, Hf. apply Forall_forall. intros c Hc.
      specialize (Hf c Hc). destruct (Hall c Hc) as [found Hfound].
      rewrite Hfound in Hf. congruence. }
    rewrite lev_distances_loop_strings
      by (eapply Forall_impl; [exact Hno|];
          intros c Hc; eapply equality_comparator_false_strings, Hc).
    destruct (sort_by_distance _) as [|first rest] eqn:Hsort.
    + apply sort_by_distance_nil in Hsort. left. split; [reflexivity|].
      destruct s; [reflexivity|discriminate].
    + assert (Hfirst : first ∈ sort_by_distance
                (List.map (fun c => {| lev_code := code c;
                                       lev_distance := min_distance c request |})
                          s)) by (rewrite Hsort; left).
      apply sort_by_distance_elem, list_elem_of_In, in_map_iff in Hfirst
        as (best & <- & Hbest). simpl.
      destruct (min_distance best request <=? 3)%nat eqn:Hnear.
      * destruct (find_in s (code best)) as [c|] eqn:Hfind.
        -- apply find_in_elem in Hfind as [Hc Hcode]. split; [assumption|].
           right. exists best. apply Nat.leb_le in Hnear.
           split; [apply list_elem_of_In, Hbest|auto].
        -- split; [|assumption]. intros ->. inversion Hbest.
      * split; [|assumption]. intros ->. inversion Hbest.
  - apply filter_list_elem in Hf as [_ Hf]. symmetry in Hf.
    apply filter_cons_first in Hf as (l1 & l2 & -> & Hc & _).
    split; [apply elem_of_app; right; left|]. left.
    destruct (equality_comparator c request) as [[]|]; congruence.
  - right. apply filter_list_Raise in Hf as (c & Hc & Hraise).
    destruct (equality_comparator_raise _ _ _ Hraise) as [-> _]. eauto.
Qed.

(** [get_price], case by case: the amount, then the one read that may
    refresh, then the snapshot. *)
Lemma get_price_cases (w : world) (self : RatesStorage)
    (base quote amount : pystr) :
  get_price base quote amount w self =
  match py_float amount with
  | None => (Return (Message AmountNotNumber), self)
  | Some x =>
      if PrimFloat.leb x 0%float
      then (Return (Message AmountNotPositive), self)
      else match data w self with
           | (Return s, self1) => (price_in s base quote x, self1)
           | (Raise (APIException m), self1) => (Return (Message m), self1)
           | (Raise e, self1) => (Raise e, self1)
           end
  end.
Proof.
  unfold get_price, catch_api.
  destruct (py_float amount) as [x|]; [|reflexivity].
  destruct (PrimFloat.leb x 0%float); [reflexivity|].
  destruct (data w self) as [[s|e] self1] eqn:Hdata.
  - pose proof (data_again _ _ _ _ Hdata) as Hagain.
    unfold bind, price_in.
    rewrite (get_currency_data_snapshot _ _ _ _ base Hdata).
    destruct (resolve_in s base) as [[b|]|e] eqn:Hb.
    + rewrite (get_currency_data_snapshot _ _ _ _ quote Hagain).
      destruct (resolve_in s quote) as [[q|]|e] eqn:Hq.
      * destruct (bool_decide (code b = code q)); [reflexivity|].
        destruct (PrimFloat.eqb (rub_rate q) 0%float); reflexivity.
      * reflexivity.
      * pose proof (resolve_in_outcomes s quote) as Hout.
        rewrite Hq in Hout. destruct Hout as [[-> _]|[-> _]]; reflexivity.
    + reflexivity.
    + pose proof (resolve_in_outcomes s base) as Hout.
      rewrite Hb in Hout. destruct Hout as [[-> _]|[-> _]]; reflexivity.
  - unfold bind. rewrite (get_currency_data_raise _ _ _ _ base Hdata).
    destruct e; reflexivity.
Qed.

(** The closest record is at most as far as any record. *)
Lemma closest_le (request : pystr) (s : list currency) (best x : currency) :
  closest request s best -> x ∈ s ->
  min_distance best request <= min_distance x request.
Proof.
  intros (l1 & l2 & -> & Hl1 & Hl2) Hx.
  rewrite Forall_forall in Hl1, Hl2.
  apply elem_of_app in Hx as [Hx|Hx]; [apply Hl1 in Hx; lia|].
  apply elem_of_cons in Hx as [->|Hx]; [lia|]. apply Hl2 in Hx; lia.
Qed.

(** A record that the lookup returns: the first on which the comparator
    returns [True], or, when it returns [False] on all, the first record
    with the code of the closest one, which is near enough. *)
Lemma resolve_in_found (s : list currency) (request : pystr) (c : currency) :
  resolve_in s request = Return (Some c) ->
  (exists l1 l2,
      s = l1 ++ c :: l2
      /\ equality_comparator c request = Return true
      /\ Forall (fun x => equality_comparator x request = Return false) l1)
  \/ (Forall (fun x => equality_comparator x request = Return false) s
      /\ exists best,
          closest request s best
          /\ min_distance best request <= 3
          /\ first_such (fun x => bool_decide (code x = code best)) s c).
Proof.
  intros Hres. assert (Hres' := Hres). unfold resolve_in in Hres'.
  destruct (filter_list _ s) as [[|c0 rest]|e] eqn:Hf; [| |discriminate].
  - clear Hres'. right.
    apply filter_list_elem in Hf as [Hall Hf]. symmetry in Hf.
    apply filter_nil_all in Hf.
    assert (Hno : Forall (fun x => equality_comparator x request = Return false)
                         s).
    { rewrite Forall_forall in Hall, Hf. apply Forall_forall. intros x Hx.
      specialize (Hf x Hx). destruct (Hall x Hx) as [found Hfound].
      rewrite Hfound in Hf. congruence. }
    split; [exact Hno|].
    rewrite (resolve_in_no_exact _ _ Hno) in Hres.
    destruct (closest_exists request s) as [best Hbest].
    { intros ->. discriminate Hres. }
    rewrite (fuzzy_in_closest _ _ _ Hbest) in Hres.
    destruct (min_distance best request <=? 3)%nat eqn:Hnear;
      [|discriminate Hres].
    injection Hres as Hfind. apply Nat.leb_le in Hnear.
    exists best. split; [exact Hbest|]. split; [exact Hnear|].
    apply find_in_first, Hfind.
  - injection Hres' as ->. left.
    apply filter_list_elem in Hf as [Hall Hf]. symmetry in Hf.
    apply filter_cons_first in Hf as (l1 & l2 & Hs & Hc & Hl1).
    exists l1, l2. split; [exact Hs|]. split.
    + destruct (equality_comparator c request) as [[]|]; congruence.
    + rewrite Forall_forall in Hall, Hl1. apply Forall_forall. intros x Hx.
      specialize (Hl1 x Hx). simpl in Hl1.
      destruct (Hall x) as [found Hfound].
      { rewrite Hs. apply elem_of_app. left. exact Hx. }
      rewrite Hfound in Hl1. congruence.
Qed.

End RequestFacts.

Section DistanceBounds.

Lemma levenshtein_cons (x y : N) (a b : list N) :
  levenshtein (x :: a) (y :: b)
  = Nat.min (Nat.min (S (levenshtein a (y :: b))) (S (levenshtein (x :: a) b)))
            (levenshtein a b + (if (x =? y)%N then 0 else 1)).
Proof. reflexivity. Qed.

Lemma levenshtein_lower_bound (a : list N) :
  forall b, length_gap a b <= levenshtein a b.
Proof.
  unfold length_gap. induction a as [|x a IHa]; intros b.
  - simpl. lia.
  - induction b as [|y b IHb].
    + rewrite levenshtein_nil_r. simpl. lia.
    + rewrite levenshtein_cons.
      pose proof (IHa (y :: b)). pose proof (IHa b).
      simpl length in *. destruct (x =? y)%N; lia.
Qed.

Lemma levenshtein_upper_bound (a : list N) :
  forall b, levenshtein a b <= Nat.max (length a) (length b).
Proof.
  induction a as [|x a IHa]; intros b.
  - simpl. lia.
  - destruct b as [|y b].
    + rewrite levenshtein_nil_r. simpl. lia.
    + rewrite levenshtein_cons. pose proof (IHa b).
      simpl length. destruct (x =? y)%N; lia.
Qed.

Lemma distance_lower_bound (a b : pystr) : length_gap a b <= distance a b.
Proof.
  rewrite distance_levenshtein.
  pose proof (levenshtein_lower_bound (rev a) (rev b)) as Hb.
  unfold length_gap in *. rewrite !length_rev in Hb. exact Hb.
Qed.

Lemma distance_upper_bound (a b : pystr) :
  distance a b <= Nat.max (length a) (length b).
Proof.
  rewrite distance_levenshtein.
  pose proof (levenshtein_upper_bound (rev a) (rev b)) as Hb.
  rewrite !length_rev in Hb. exact Hb.
Qed.

End DistanceBounds.

Section TextFacts.

Lemma split_without (sep : N) (row : pystr) :
  Forall (fun ch => ch <> sep) row -> split sep row = [row].
Proof.
  induction 1 as [|ch row Hch _ IH]; simpl; [reflexivity|].
  apply N.eqb_neq in Hch. rewrite Hch, IH. reflexivity.
Qed.

Lemma split_app (sep : N) (row rest : pystr) :
  Forall (fun ch => ch <> sep) row ->
  split sep (row ++ sep :: rest) = row :: split sep rest.
Proof.
  induction 1 as [|ch row Hch _ IH]; simpl.
  - rewrite N.eqb_refl. reflexivity.
  - apply N.eqb_neq in Hch. rewrite Hch, IH. reflexivity.
Qed.

(** Splitting what was joined gives the rows back. *)
Lemma split_join (sep : N) (rows : list pystr) :
  rows <> [] ->
  Forall (Forall (fun ch => ch <> sep)) rows ->
  split sep (join [sep] rows) = rows.
Proof.
  intros Hne Hrows. revert Hne.
  induction Hrows as [|row rest Hrow Hrest IH]; intros Hne;
    [exfalso; apply Hne; reflexivity|].
  destruct rest as [|row' rest'].
  - simpl. apply split_without, Hrow.
  - change (join [sep] (row :: row' :: rest'))
      with (row ++ sep :: join [sep] (row' :: rest')).
    rewrite split_app by assumption. f_equal. apply IH. discriminate.
Qed.

Lemma skip_whitespace_blanks (ws rest : pystr) :
  blanks ws ->
  skip_whitespace (ws ++ rest) = skip_whitespace rest.
Proof.
  induction 1 as [|ch ws Hch _ IH]; simpl; [reflexivity|].
  rewrite Hch. exact IH.
Qed.

Lemma skip_whitespace_split (s : pystr) :
  exists ws, s = ws ++ skip_whitespace s /\ blanks ws.
Proof.
  induction s as [|ch s (ws & Hs & Hws)]; simpl.
  - exists []. split; [reflexivity|constructor].
  - destruct (is_whitespace ch) eqn:Hch.
    + exists (ch :: ws). split; [simpl; f_equal; exact Hs|constructor; assumption].
    + exists []. split; [reflexivity|constructor].
Qed.

Lemma skip_whitespace_nil (s : pystr) :
  skip_whitespace s = [] <-> blanks s.
Proof.
  induction s as [|ch s IH]; simpl.
  - split; [constructor|reflexivity].
  - destruct (is_whitespace ch) eqn:Hch.
    + rewrite IH. split; [constructor; assumption|].
      intros Hb. apply Forall_cons in Hb as [_ Hb]. exact Hb.
    + split; [discriminate|]. intros Hb. apply Forall_cons in Hb as [Hb _].
      congruence.
Qed.

Lemma until_gt_field (g rest : pystr) :
  Forall (fun ch => ch <> 62%N) g ->
  until_gt (g ++ 62%N :: rest) = (g, 62%N :: rest).
Proof.
  induction 1 as [|ch g Hch _ IH]; simpl; [reflexivity|].
  apply N.eqb_neq in Hch. rewrite Hch, IH. reflexivity.
Qed.

Lemma until_gt_split (s g rest : pystr) :
  until_gt s = (g, rest) ->
  s = g ++ rest /\ Forall (fun ch => ch <> 62%N) g.
Proof.
  revert g rest. induction s as [|ch s IH]; simpl; intros g rest.
  - intros [= <- <-]. split; [reflexivity|constructor].
  - destruct (ch =? 62)%N eqn:Hch.
    + intros [= <- <-]. split; [reflexivity|constructor].
    + destruct (until_gt s) as [g' rest'].
      intros [= <- <-]. destruct (IH _ _ eq_refl) as [-> Hg].
      split; [reflexivity|]. constructor; [apply N.eqb_neq, Hch|assumption].
Qed.

(** [group] reads one field between angle brackets, and nothing else. *)
Lemma group_iff (s g rest : pystr) :
  group s = Some (g, rest) <-> field g /\ s = 60%N :: g ++ 62%N :: rest.
Proof.
  unfold group, field. split.
  - destruct s as [|opening s]; [discriminate|].
    destruct (opening =? 60)%N eqn:Hopen; [|discriminate].
    apply N.eqb_eq in Hopen. subst opening.
    destruct (until_gt s) as [g' rest'] eqn:Hu.
    apply until_gt_split in Hu as [-> Hg].
    destruct g' as [|first more]; [discriminate|].
    destruct rest' as [|closing rest']; [discriminate|].
    destruct (closing =? 62)%N eqn:Hclose; [|discriminate].
    apply N.eqb_eq in Hclose. subst closing.
    intros [= <- <-]. split; [split; [discriminate|assumption]|reflexivity].
  - intros [[Hne Hg] ->]. simpl. rewrite (until_gt_field _ _ Hg).
    destruct g; [congruence|reflexivity].
Qed.

Lemma header_footer_lines :
  Forall (Forall (fun ch => ch <> 10%N)) vocabulary_header
  /\ Forall (Forall (fun ch => ch <> 10%N)) vocabulary_footer.
Proof. split; apply (bool_decide_unpack _); vm_compute; exact I. Qed.

Lemma whitespace_not_bracket (ch : N) :
  is_whitespace ch = true -> (ch =? 60)%N = false.
Proof.
  intros Hch. destruct (N.eqb_spec ch 60) as [->|]; [discriminate|reflexivity].
Qed.

(** [re_match] on three fields between angle brackets with white space
    around them: all depends on the white space before the third. *)
Lemma re_match_blanks (ws1 a ws2 b ws c ws3 : pystr) :
  blanks ws1 -> blanks ws2 -> blanks ws -> blanks ws3 ->
  field a -> field b -> field c ->
  re_match (ws1 ++ 60%N :: a ++ 62%N :: ws2 ++ 60%N :: b ++ 62%N
              :: ws ++ 60%N :: c ++ 62%N :: ws3)
  = match ws with
    | [_] => Some (a, b, c)
    | _ => None
    end.
Proof.
  intros H1 H2 Hws H3 Ha Hb Hc. unfold re_match.
  rewrite (skip_whitespace_blanks ws1) by assumption.
  change (skip_whitespace (60%N :: ?t)) with (60%N :: t).
  rewrite (proj2 (group_iff _ a _) (conj Ha eq_refl)).
  rewrite (skip_whitespace_blanks ws2) by assumption.
  change (skip_whitespace (60%N :: ?t)) with (60%N :: t).
  rewrite (proj2 (group_iff _ b _) (conj Hb eq_refl)).
  destruct ws as [|w1 [|w2 ws']]; simpl app.
  - reflexivity.
  - apply Forall_cons in Hws as [-> _].
    rewrite (proj2 (group_iff _ c _) (conj Hc eq_refl)).
    rewrite (proj2 (skip_whitespace_nil ws3) H3). reflexivity.
  - apply Forall_cons in Hws as [-> Hws].
    apply Forall_cons in Hws as [Hw2 _].
    unfold group. rewrite (whitespace_not_bracket _ Hw2). reflexivity.
Qed.

End TextFacts.

(** ** The objects *)

Section HeapFacts.

Import Objects.

Lemma extends_refl h : extends h h.
Proof. repeat split; auto. Qed.

Lemma extends_trans h1 h2 h3 : extends h1 h2 -> extends h2 h3 -> extends h1 h3.
Proof.
  intros (Hn & Ho & Hl) (Hn' & Ho' & Hl'). split; [lia|]. split.
  - intros r Hr. rewrite Ho' by lia. auto.
  - intros l Hl0. rewrite Hl' by lia. auto.
Qed.

Lemma new_object_spec (x : object) (h : heap) :
  wf h ->
  let '(r, h') := new_object x h in
  r = next_ref h /\ wf h' /\ extends h h' /\ next_ref h' = S (next_ref h)
  /\ obj_at h' !! r = Some x /\ list_at h' = list_at h.
Proof.
  intros [Ho Hl]. simpl. split; [reflexivity|]. split; [split|].
  - intros r y. simpl. destruct (decide (next_ref h = r)) as [<-|Hne].
    + lia.
    + rewrite lookup_insert_ne by assumption. intros Hr%Ho. lia.
  - intros l refs. simpl. intros [Hlt Hall]%Hl. split; [lia|].
    eapply Forall_impl; [exact Hall|]. simpl. intros; lia.
  - split; [|split; [reflexivity|split; [apply lookup_insert_eq|reflexivity]]].
    split; [simpl; lia|]. split; simpl; [|auto].
    intros r Hr. apply lookup_insert_ne. lia.
Qed.

Lemma new_list_spec (refs : list ref) (h : heap) :
  wf h -> Forall (fun r => r < next_ref h) refs ->
  let '(l, h') := new_list refs h in
  l = next_ref h /\ wf h' /\ extends h h' /\ next_ref h' = S (next_ref h)
  /\ list_at h' !! l = Some refs /\ obj_at h' = obj_at h.
Proof.
  intros [Ho Hl] Hrefs. simpl. split; [reflexivity|]. split; [split|].
  - intros r y. simpl. intros Hr%Ho. lia.
  - intros l refs'. simpl. destruct (decide (next_ref h = l)) as [<-|Hne].
    + rewrite lookup_insert_eq. intros [= <-]. split; [lia|].
      eapply Forall_impl; [exact Hrefs|]. simpl. intros; lia.
    + rewrite lookup_insert_ne by assumption. intros [Hlt Hall]%Hl.
      split; [lia|]. eapply Forall_impl; [exact Hall|]. simpl. intros; lia.
  - split; [|split; [reflexivity|split; [apply lookup_insert_eq|reflexivity]]].
    split; [simpl; lia|]. split; simpl; [auto|].
    intros l Hlt. apply lookup_insert_ne. lia.
Qed.


(** What [copy_all] allocates: one object per key that has a value and is
    not in the memo yet; every reference it returns is a reference of the
    memo or a new one, and holds the value of its key. *)
Lemma copy_all_spec {K} `{Countable K} (value_of : K -> option object)
    (base : ref) (keys : list K) :
  forall memo h refs memo' h',
    copy_all value_of keys memo h = (refs, memo', h') ->
    wf h ->
    base <= next_ref h ->
    (forall k r, memo !! k = Some r ->
                 base <= r < next_ref h /\ obj_at h !! r = value_of k
                 /\ is_Some (value_of k)) ->
    wf h' /\ extends h h'
    /\ list_at h' = list_at h
    /\ (forall k r, memo' !! k = Some r ->
                    base <= r < next_ref h' /\ obj_at h' !! r = value_of k
                    /\ is_Some (value_of k))
    /\ Forall (fun r => base <= r < next_ref h') refs
    /\ List.map (fun r => obj_at h' !! r) refs
       = List.map Some (omap value_of keys).
Proof.
  induction keys as [|k rest IH]; intros memo h refs memo' h' Hrun Hwf Hbase Hmemo.
  - injection Hrun as <- <- <-.
    conjs; auto using extends_refl.
  - cbn [copy_all] in Hrun. destruct (memo !! k) as [r|] eqn:Hk.
    + destruct (copy_all value_of rest memo h) as [[refs0 memo0] h0] eqn:Hrest.
      injection Hrun as <- <- <-.
      destruct (IH _ _ _ _ _ Hrest Hwf Hbase Hmemo)
        as (Hwf' & Hext & Hlists & Hmemo' & Hrefs & Hvals).
      destruct (Hmemo k r Hk) as (Hr & Hobj & [x Hx]).
      conjs; auto.
      * constructor; [|assumption]. destruct Hext as (Hn & _). lia.
      * simpl. rewrite Hx. simpl. rewrite Hvals. f_equal.
        destruct Hext as (_ & Ho & _). rewrite Ho by lia. congruence.
    + destruct (value_of k) as [x|] eqn:Hx.
      * pose proof (new_object_spec x h Hwf) as Hnew.
        destruct (new_object x h) as [r h1].
        destruct Hnew as (-> & Hwf1 & Hext1 & Hnext1 & Hobj1 & Hlist1).
        destruct (copy_all value_of rest (<[k := next_ref h]> memo) h1)
          as [[refs0 memo0] h0] eqn:Hrest.
        injection Hrun as <- <- <-.
        destruct (IH _ _ _ _ _ Hrest Hwf1) as
          (Hwf' & Hext & Hlists & Hmemo' & Hrefs & Hvals).
        { lia. }
        { intros k' r'. destruct (decide (k = k')) as [<-|Hne].
          - rewrite lookup_insert_eq. intros [= <-].
            split; [lia|]. split; [rewrite Hx; exact Hobj1|eauto].
          - rewrite lookup_insert_ne by assumption. intros Hk'.
            destruct (Hmemo k' r' Hk') as (Hr & Hobj & Hsome).
            split; [lia|]. split; [|assumption].
            destruct Hext1 as (_ & Ho & _). rewrite Ho by lia. assumption. }
        conjs; auto.
        -- eapply extends_trans; eassumption.
        -- congruence.
        -- constructor; [|assumption]. destruct Hext as (Hn & _). lia.
        -- simpl. rewrite Hx. simpl. rewrite Hvals. f_equal.
           destruct Hext as (_ & Ho & _). rewrite Ho by lia. assumption.
      * destruct (IH _ _ _ _ _ Hrun Hwf Hbase Hmemo)
          as (Hwf' & Hext & Hlists & Hmemo' & Hrefs & Hvals).
        conjs; auto.
        simpl. rewrite Hx. assumption.
Qed.


Lemma map_Some_omap {A B} (f : A -> option B) (l : list A) :
  Forall (fun a => is_Some (f a)) l ->
  List.map Some (omap f l) = List.map f l.
Proof.
  induction 1 as [|a l [b Hb] _ IH]; simpl; [reflexivity|].
  rewrite Hb. simpl. f_equal. exact IH.
Qed.

Lemma elements_lookup (h : heap) (l : ref) (refs : list ref) :
  list_at h !! l = Some refs -> elements h l = refs.
Proof. unfold elements. intros ->. reflexivity. Qed.

Lemma wf_elements (h : heap) (l : ref) :
  wf h -> Forall (fun r => r < next_ref h) (elements h l).
Proof.
  intros [_ Hl]. unfold elements.
  destruct (list_at h !! l) as [refs|] eqn:Hrefs; simpl; [|constructor].
  apply (Hl _ _ Hrefs).
Qed.

Lemma deepcopy_spec (l : ref) (h : heap) :
  wf h ->
  Forall (fun r => is_Some (obj_at h !! r)) (elements h l) ->
  wf (deepcopy l h).2 /\ extends h (deepcopy l h).2
  /\ (deepcopy l h).1 < next_ref (deepcopy l h).2
  /\ next_ref h <= (deepcopy l h).1
  /\ is_Some (list_at (deepcopy l h).2 !! (deepcopy l h).1)
  /\ Forall (fun r => next_ref h <= r)
            (elements (deepcopy l h).2 (deepcopy l h).1)
  /\ values (deepcopy l h).2 (deepcopy l h).1 = values h l.
Proof.
  intros Hwf Hall. unfold deepcopy.
  destruct (copy_all (fun r => obj_at h !! r) (elements h l) ∅ h)
    as [[refs memo] h1] eqn:Hcopy.
  destruct (copy_all_spec _ (next_ref h) _ _ _ _ _ _ Hcopy Hwf)
    as (Hwf1 & Hext1 & Hlists & _ & Hrefs & Hvals).
  { lia. }
  { intros k r. rewrite lookup_empty. discriminate. }
  pose proof (new_list_spec refs h1 Hwf1) as Hnew.
  destruct (new_list refs h1) as [l' h'] eqn:Hnl.
  destruct Hnew as (-> & Hwf' & Hext' & Hnext & Hlist & Hobj).
  { eapply Forall_impl; [exact Hrefs|]. simpl. intros; lia. }
  cbn [fst snd]. conjs; auto.
  - eapply extends_trans; eassumption.
  - lia.
  - destruct Hext1 as (Hn & _). lia.
  - rewrite (elements_lookup _ _ _ Hlist).
    eapply Forall_impl; [exact Hrefs|]. simpl. intros; lia.
  - unfold values. rewrite (elements_lookup _ _ _ Hlist), Hobj, Hvals.
    apply map_Some_omap. assumption.
Qed.


Lemma set_list_wf (l : ref) (refs : list ref) (h : heap) :
  wf h -> l < next_ref h -> Forall (fun r => r < next_ref h) refs ->
  wf (set_list l refs h).
Proof.
  intros [Ho Hl] Hlt Hrefs. split; [exact Ho|].
  intros l' refs'. simpl. destruct (decide (l = l')) as [<-|Hne].
  - rewrite lookup_insert_eq. intros [= <-]. auto.
  - rewrite lookup_insert_ne by assumption. apply Hl.
Qed.


Lemma is_dict_values (h : heap) (refs : list ref) (vals : list object) :
  List.map (fun r => obj_at h !! r) refs = List.map Some vals ->
  Forall (fun v => exists c, v = Dict c) vals ->
  Forall (is_dict h) refs.
Proof.
  revert vals. induction refs as [|r refs IH]; intros [|v vals]; simpl;
    try discriminate; [constructor|].
  intros [= Hr Hrest] Hall. apply Forall_cons in Hall as [[c ->] Hall].
  constructor; [exists c; exact Hr|]. eapply IH; eassumption.
Qed.

Lemma omap_Dict {K} (g : K -> option currency) (keys : list K) :
  Forall (fun v => exists c, v = Dict c)
         (omap (fun k => Dict <$> g k) keys).
Proof.
  induction keys as [|k keys IH]; simpl; [constructor|].
  destruct (g k) as [c|]; simpl; [constructor; eauto|exact IH].
Qed.

Lemma values_dicts (h h' : heap) (l l' : ref) :
  values h' l' = values h l ->
  Forall (is_dict h) (elements h l) ->
  Forall (is_dict h') (elements h' l').
Proof.
  unfold values.
  generalize (elements h' l'). generalize (elements h l).
  intros refs refs'. revert refs.
  induction refs' as [|r' refs' IH]; intros [|r refs] Heq Hall;
    try discriminate Heq; [constructor|].
  injection Heq as Hr Hrest. apply Forall_cons in Hall as [[c Hc] Hall].
  constructor; [exists c; congruence|]. eapply IH; eassumption.
Qed.

End HeapFacts.

Section ObjectFacts.

Import Objects.

Context `{PyRuntime}.

(** *** The objects behave as the values do *)

Lemma records_values (h h' : heap) (l l' : ref) :
  values h' l' = values h l -> records h' l' = records h l.
Proof. unfold records. intros ->. reflexivity. Qed.

Lemma omap_record_of (vals : list object) :
  omap record_of (List.map Some vals)
  = omap (fun v => match v with Dict c => Some c | Other => None end) vals.
Proof.
  induction vals as [|v vals IH]; simpl; [reflexivity|].
  destruct v; simpl; [f_equal|]; exact IH.
Qed.

Lemma omap_Dict_back {K} (g : K -> option currency) (keys : list K) :
  omap (fun v => match v with Dict c => Some c | Other => None end)
       (omap (fun k => Dict <$> g k) keys)
  = omap g keys.
Proof.
  induction keys as [|k keys IH]; simpl; [reflexivity|].
  destruct (g k) as [c|]; simpl; [f_equal|]; exact IH.
Qed.

Lemma omap_record_cons (h : heap) (r : ref) (l : list ref) (c : currency) :
  obj_at h !! r = Some (Dict c) ->
  omap record_of (List.map (fun r => obj_at h !! r) (r :: l))
  = c :: omap record_of (List.map (fun r => obj_at h !! r) l).
Proof. intros Hc. simpl. rewrite Hc. reflexivity. Qed.

Lemma lists_match_records (h : heap) (l1 l2 : list ref) :
  Forall (is_dict h) l1 -> Forall (is_dict h) l2 ->
  lists_match (List.map (fun r => obj_at h !! r) l1)
              (List.map (fun r => obj_at h !! r) l2)
  = value_lists_match
      (omap record_of (List.map (fun r => obj_at h !! r) l1))
      (omap record_of (List.map (fun r => obj_at h !! r) l2)).
Proof.
  intros H1 H2. unfold lists_match, value_lists_match.
  assert (Hlen : forall l, Forall (is_dict h) l ->
            length (omap record_of (List.map (fun r => obj_at h !! r) l))
            = length l).
  { induction 1 as [|r l [c Hc] _ IH]; [reflexivity|].
    rewrite (omap_record_cons _ _ _ _ Hc). simpl. f_equal. exact IH. }
  rewrite !length_map, !Hlen by assumption.
  destruct (length l1 =? length l2)%nat; cbn [negb]; [|reflexivity].
  revert l2 H2. induction H1 as [|r1 l1 [c1 Hc1] _ IH]; intros l2 H2.
  - reflexivity.
  - destruct H2 as [|r2 l2 [c2 Hc2] H2];
      [rewrite (omap_record_cons _ _ _ _ Hc1); reflexivity|].
    rewrite (omap_record_cons _ _ _ _ Hc1), (omap_record_cons _ _ _ _ Hc2).
    cbn [List.map combine forallb fst snd]. rewrite Hc1, Hc2.
    cbn [object_eq]. f_equal. apply IH, H2.
Qed.

Lemma records_dicts (h : heap) (l : ref) (refs : list ref) (vals : list object) :
  elements h l = refs ->
  List.map (fun r => obj_at h !! r) refs = List.map Some vals ->
  records h l
  = omap (fun v => match v with Dict c => Some c | Other => None end) vals.
Proof.
  intros Hel Hvals. unfold records, values. rewrite Hel, Hvals.
  apply omap_record_of.
Qed.


(** The state in which [fill] leaves the objects: the working list is a
    new list of new dicts, none of them held by a caller, and the
    published list is another new list that shares no dict with it. *)
Lemma fill_separated (w : world) (h : heap) (self : attributes)
    (held : list ref) (r : result unit) (h' : heap) (self' : attributes) :
  wf h -> Forall (fun x => x < next_ref h) held ->
  fill w (h, self) = (r, (h', self')) ->
  separated h' self' held
  /\ cached_date self' = Some (today w)
  /\ next_ref h <= next_ref h'
  /\ value_fill w (view (h, self)) = (r, view (h', self'))
  /\ Forall (is_dict h') (elements h' (read_only self')).
Proof.
  intros Hwf Hheld. rewrite fill_unfold. cbv zeta.
  change (requests_log (view (h, self))) with (log self).
  unfold fill, reset. cbn [fst snd].
  pose proof (new_list_spec [] h Hwf (List.Forall_nil _)) as Hn1.
  destruct (new_list [] h) as [wo h1].
  destruct Hn1 as (-> & Hwf1 & Hext1 & Hnext1 & Hlist1 & Hobj1).
  pose proof (new_list_spec [] h1 Hwf1 (List.Forall_nil _)) as Hn2.
  destruct (new_list [] h1) as [ro h2].
  destruct Hn2 as (-> & Hwf2 & Hext2 & Hnext2 & Hlist2 & Hobj2).
  cbn [write_only read_only log].
  assert (Hwo2 : list_at h2 !! next_ref h = Some []).
  { destruct Hext2 as (_ & _ & Hl). rewrite Hl by lia. exact Hlist1. }
  assert (Hfresh : forall x, x ∈ held -> x < next_ref h).
  { rewrite Forall_forall in Hheld. exact Hheld. }
  assert (Hheld2 : Forall (fun x => x < next_ref h2) held).
  { eapply Forall_impl; [exact Hheld|]. simpl. intros; lia. }
  assert (Hearly : forall d sent,
            separated h2 (mkAttributes (next_ref h) (next_ref h1) d sent) held).
  { intros d sent. unfold separated. cbn [write_only read_only].
    conjs; auto.
    - exists []. conjs; auto.
      + rewrite (elements_lookup _ _ _ Hlist2). constructor.
      + apply not_elem_of_nil.
    - intros Hin%Hfresh. lia.
    - lia.
    - lia. }
  assert (Hro2 : elements h2 (next_ref h1) = [])
    by apply (elements_lookup _ _ _ Hlist2).
  assert (Hview : forall d sent,
            view (h2, mkAttributes (next_ref h) (next_ref h1) d sent)
            = mkStorage [] [] d sent).
  { intros d sent. unfold view, records, values. cbn [fst snd write_only read_only
                                                     cached_date log].
    rewrite (elements_lookup _ _ _ Hwo2), Hro2. reflexivity. }
  destruct (vocabulary_feed w) as [cls| |items];
    try (intros [= <- <- <-]; conjs;
         [apply Hearly|reflexivity|lia|rewrite Hview; reflexivity
         |cbn [read_only]; rewrite Hro2; constructor]).
  destruct (vocabulary_items items ∅) as [e|vocabulary];
    try (intros [= <- <- <-]; conjs;
         [apply Hearly|reflexivity|lia|rewrite Hview; reflexivity
         |cbn [read_only]; rewrite Hro2; constructor]).
  destruct (rates_feed w (today w)) as [cls| |valutes];
    try (intros [= <- <- <-]; conjs;
         [apply Hearly|reflexivity|lia|rewrite Hview; reflexivity
         |cbn [read_only]; rewrite Hro2; constructor]).
  destruct (valute_items valutes vocabulary []) as [[stopped vocabulary'] appended].
  destruct (copy_all _ appended ∅ h2) as [[refs memo] h3] eqn:Hcopy.
  destruct (copy_all_spec _ (next_ref h2) _ _ _ _ _ _ Hcopy Hwf2)
    as (Hwf3 & Hext3 & Hlists3 & _ & Hrefs & Hvals).
  { lia. }
  { intros k x. rewrite lookup_empty. discriminate. }
  assert (Hdicts : Forall (is_dict h3) refs).
  { eapply is_dict_values; [exact Hvals|]. apply omap_Dict. }
  assert (Hn3 : next_ref h2 <= next_ref h3) by apply Hext3.
  assert (Hrefs_lt : Forall (fun x => x < next_ref h3) refs).
  { eapply Forall_impl; [exact Hrefs|]. simpl. intros; lia. }
  assert (Hrefs_held : Forall (fun x => x ∉ held) refs).
  { eapply Forall_impl; [exact Hrefs|]. simpl. intros x Hx Hin%Hfresh. lia. }
  assert (Hcontents : omap (fun v => match v with
                                     | Dict c => Some c
                                     | Other => None
                                     end)
                           (omap (fun id => Dict <$> (vocabulary' !! id
                                                      ≫= as_currency))
                                 appended)
                      = contents vocabulary' appended)
    by apply omap_Dict_back.
  destruct stopped as [e|].
  - intros [= <- <- <-].
    assert (Hro : elements (set_list (next_ref h) refs h3) (next_ref h1) = []).
    { unfold elements. simpl. rewrite lookup_insert_ne by lia.
      rewrite Hlists3, Hlist2. reflexivity. }
    split; [|split; [reflexivity|split; [simpl; lia|split]]];
      [| |cbn [read_only]; rewrite Hro; constructor].
    2:{ unfold view. cbn [fst snd write_only read_only cached_date log].
        rewrite (records_dicts (set_list (next_ref h) refs h3) (next_ref h)
                   refs _ (elements_lookup _ _ _ (lookup_insert_eq _ _ _))
                   Hvals), Hcontents.
        unfold records, values. rewrite Hro. reflexivity. }
    unfold separated. cbn [write_only read_only].
    conjs.
    + apply set_list_wf; [assumption|lia|assumption].
    + eapply Forall_impl; [exact Hheld|]. simpl. intros; lia.
    + exists refs. conjs.
      * simpl. apply lookup_insert_eq.
      * exact Hdicts.
      * exact Hrefs_held.
      * rewrite Hro. constructor.
      * intros Hin. rewrite Forall_forall in Hrefs. apply Hrefs in Hin. lia.
    + intros Hin%Hfresh. lia.
    + lia.
    + simpl. lia.
  - pose proof (new_object_spec (Dict RUR) h3 Hwf3) as Hn4.
    destruct (new_object (Dict RUR) h3) as [rouble h4].
    destruct Hn4 as (-> & Hwf4 & Hext4 & Hnext4 & Hobj4 & Hlist4).
    set (working := refs ++ [next_ref h3]).
    set (h5 := set_list (next_ref h) working h4).
    assert (Hworking_lt : Forall (fun x => x < next_ref h4) working).
    { apply Forall_app. split.
      - eapply Forall_impl; [exact Hrefs_lt|]. simpl. intros; lia.
      - constructor; [lia|constructor]. }
    assert (Hwf5 : wf h5) by (apply set_list_wf; [assumption|lia|assumption]).
    assert (Hel5 : elements h5 (next_ref h) = working).
    { unfold elements, h5. simpl. rewrite lookup_insert_eq. reflexivity. }
    assert (Hdicts5 : Forall (is_dict h5) working).
    { apply Forall_app. split.
      - eapply Forall_impl; [exact Hdicts|]. simpl. intros x [c Hc].
        exists c. simpl. destruct Hext4 as (_ & Ho & _). rewrite Ho; [exact Hc|].
        destruct Hwf3 as [Hlt _]. eapply Hlt, Hc.
      - constructor; [|constructor]. exists RUR. exact Hobj4. }
    pose proof (deepcopy_spec (next_ref h) h5 Hwf5) as Hcopy5.
    destruct (deepcopy (next_ref h) h5) as [ro h6].
    cbn [fst snd] in Hcopy5.
    destruct Hcopy5 as (Hwf6 & Hext6 & Hro_lt & Hro_ge & Hro_list & Hro_el & Hro_vals).
    { rewrite Hel5. eapply Forall_impl; [exact Hdicts5|].
      simpl. intros x [c Hc]. eauto. }
    intros [= <- <- <-].
    assert (Hn5 : next_ref h5 = next_ref h4) by reflexivity.
    assert (Hn6 : next_ref h5 <= next_ref h6) by apply Hext6.
    assert (Hvals5 : List.map (fun x => obj_at h5 !! x) working
                     = List.map Some
                         (omap (fun id => Dict <$> (vocabulary' !! id
                                                    ≫= as_currency)) appended
                          ++ [Dict RUR])).
    { unfold working. rewrite !map_app. cbn [List.map]. f_equal.
      - rewrite <- Hvals. apply map_ext_in. intros x Hx%list_elem_of_In.
        change (obj_at h5) with (obj_at h4).
        destruct Hext4 as (_ & Ho & _). apply Ho.
        rewrite Forall_forall in Hrefs_lt. apply Hrefs_lt, Hx.
      - change (obj_at h5) with (obj_at h4). rewrite Hobj4. reflexivity. }
    assert (Hrec5 : records h5 (next_ref h)
                    = contents vocabulary' appended ++ [RUR]).
    { rewrite (records_dicts _ _ working _ Hel5 Hvals5).
      rewrite omap_app, Hcontents. reflexivity. }
    assert (Hvals6 : values h6 (next_ref h) = values h5 (next_ref h)).
    { unfold values.
      assert (Hel6 : elements h6 (next_ref h) = working).
      { unfold elements. destruct Hext6 as (_ & _ & Hl). rewrite Hl by lia.
        unfold h5. simpl. rewrite lookup_insert_eq. reflexivity. }
      rewrite Hel6, Hel5. apply map_ext_in. intros x Hx%list_elem_of_In.
      destruct Hext6 as (_ & Ho & _). apply Ho.
      rewrite Forall_forall in Hworking_lt. apply Hworking_lt in Hx. lia. }
    split; [|split; [reflexivity|split; [lia|split]]].
    2:{ unfold view. cbn [fst snd write_only read_only cached_date log].
        rewrite (records_values _ _ _ _ Hro_vals).
        rewrite (records_values _ _ _ _ Hvals6), Hrec5. reflexivity. }
    2:{ cbn [read_only]. apply (values_dicts _ _ _ _ Hro_vals).
        rewrite Hel5. exact Hdicts5. }
    unfold separated. cbn [write_only read_only].
    conjs.
    + exact Hwf6.
    + eapply Forall_impl; [exact Hheld|]. simpl. intros; lia.
    + exists working. conjs.
      * destruct Hext6 as (_ & _ & Hl). rewrite Hl by lia.
        unfold h5. simpl. apply lookup_insert_eq.
      * eapply Forall_impl; [exact Hdicts5|]. simpl. intros x [c Hc].
        exists c. destruct Hext6 as (_ & Ho & _). rewrite Ho; [exact Hc|].
        destruct Hwf5 as [Hlt _]. eapply Hlt, Hc.
      * apply Forall_app. split; [exact Hrefs_held|].
        constructor; [|constructor]. intros Hin%Hfresh. lia.
      * eapply Forall_impl; [exact Hro_el|]. simpl. intros x Hx.
        split; [|lia]. intros Hin.
        rewrite Forall_forall in Hworking_lt. apply Hworking_lt in Hin. lia.
      * intros Hin. rewrite Forall_forall in Hworking_lt.
        apply Hworking_lt in Hin. lia.
    + intros Hin%Hfresh. lia.
    + lia.
    + exact Hro_lt.
Qed.


Lemma lists_match_dicts (h : heap) (refs : list ref) :
  Forall (is_dict h) refs ->
  lists_match (List.map (fun r => obj_at h !! r) refs)
              (List.map (fun r => obj_at h !! r) refs) = true.
Proof.
  intros Hall. unfold lists_match. rewrite Nat.eqb_refl. simpl.
  induction Hall as [|r refs [c Hc] _ IH]; simpl; [reflexivity|].
  rewrite Hc. simpl. rewrite currency_eq_refl. simpl. exact IH.
Qed.

Lemma separated_working_lt (h : heap) (self : attributes) (held : list ref)
    (working : list ref) :
  wf h -> list_at h !! write_only self = Some working ->
  Forall (is_dict h) working ->
  write_only self < next_ref h /\ Forall (fun x => x < next_ref h) working.
Proof.
  intros [Ho Hl] Hw Hd. split; [apply (Hl _ _ Hw)|].
  eapply Forall_impl; [exact Hd|]. simpl. intros x [c Hc]. eapply Ho, Hc.
Qed.

(** The second step of [data] and what it returns. *)
Lemma publish_separated (h : heap) (self : attributes) (held : list ref)
    (l : ref) (h' : heap) (self' : attributes) :
  separated h self held ->
  (if negb (lists_match (values h (write_only self))
                        (values h (read_only self)))
   then
     let '(ro, h1) := deepcopy (write_only self) h in
     (Return ro,
      (h1, mkAttributes (write_only self) ro (cached_date self) (log self)))
   else (Return (read_only self), (h, self)))
  = (Return l, (h', self')) ->
  l = read_only self'
  /\ write_only self' = write_only self
  /\ cached_date self' = cached_date self
  /\ log self' = log self
  /\ values h' (write_only self') = values h (write_only self)
  /\ separated h' self' (l :: elements h' l ++ held)
  /\ lists_match (values h' (write_only self')) (values h' l) = true
  /\ ((lists_match (values h (write_only self)) (values h (read_only self))
       = true
       /\ l = read_only self /\ h' = h /\ self' = self)
      \/ (lists_match (values h (write_only self)) (values h (read_only self))
          = false
          /\ values h' l = values h (write_only self)
          /\ next_ref h <= l)).
Proof.
  intros (Hwf & Hheld & (working & Hw & Hd & Hwh & Hro & Hrow) & Hwo & Hne & Hlt).
  destruct (separated_working_lt _ _ held _ Hwf Hw Hd) as [Hwo_lt Hw_lt].
  pose proof (elements_lookup _ _ _ Hw) as Hel.
  rewrite Forall_forall in Hheld, Hwh, Hro, Hw_lt.
  destruct (lists_match _ _) eqn:Hmatch; cbn [negb].
  - intros [= <- <- <-]. conjs; auto.
    unfold separated. conjs; auto.
    + constructor; [assumption|]. apply Forall_app. split.
      * apply wf_elements, Hwf.
      * apply Forall_forall, Hheld.
    + exists working. conjs; auto.
      * apply Forall_forall. intros x Hx Hin.
        apply elem_of_cons in Hin as [->|Hin]; [contradiction|].
        apply elem_of_app in Hin as [Hin|Hin].
        -- apply (proj1 (Hro x Hin)), Hx.
        -- apply (Hwh x Hx), Hin.
      * apply Forall_forall, Hro.
    + intros Hin. apply elem_of_cons in Hin as [Heq|Hin]; [congruence|].
      apply elem_of_app in Hin as [Hin|Hin]; [|contradiction].
      apply (proj2 (Hro _ Hin)). reflexivity.
  - pose proof (deepcopy_spec (write_only self) h Hwf) as Hcopy.
    destruct (deepcopy (write_only self) h) as [ro h1].
    cbn [fst snd] in Hcopy.
    destruct Hcopy as (Hwf1 & Hext & Hro_lt & Hro_ge & Hro_list & Hro_el & Hro_vals).
    { rewrite Hel. eapply Forall_impl; [exact Hd|]. simpl. intros x [c Hc]. eauto. }
    intros [= <- <- <-]. cbn [write_only read_only cached_date log].
    destruct Hext as (Hn & Hobj & Hlist).
    assert (Hw1 : list_at h1 !! write_only self = Some working)
      by (rewrite Hlist by assumption; exact Hw).
    assert (Hvals : values h1 (write_only self) = values h (write_only self)).
    { unfold values. rewrite (elements_lookup _ _ _ Hw1), Hel.
      apply map_ext_in. intros x Hx%list_elem_of_In. apply Hobj, Hw_lt, Hx. }
    rewrite Forall_forall in Hro_el.
    conjs; auto.
    + unfold separated. cbn [write_only read_only]. conjs; auto.
      * constructor; [assumption|]. apply Forall_app. split.
        -- apply wf_elements, Hwf1.
        -- apply Forall_forall. intros x Hx%Hheld. lia.
      * exists working. conjs; auto.
        -- eapply Forall_impl; [exact Hd|]. simpl. intros x [c Hc].
           exists c. rewrite Hobj; [exact Hc|].
           destruct Hwf as [Ho _]. eapply Ho, Hc.
        -- apply Forall_forall. intros x Hx Hin.
           pose proof (Hw_lt x Hx).
           apply elem_of_cons in Hin as [->|Hin]; [lia|].
           apply elem_of_app in Hin as [Hin|Hin].
           ++ apply Hro_el in Hin. lia.
           ++ apply (Hwh x Hx), Hin.
        -- apply Forall_forall. intros x Hx. apply Hro_el in Hx.
           split; [|lia]. intros Hin%Hw_lt. lia.
        -- intros Hin%Hw_lt. lia.
      * intros Hin. apply elem_of_cons in Hin as [Heq|Hin]; [lia|].
        apply elem_of_app in Hin as [Hin|Hin]; [|contradiction].
        apply Hro_el in Hin. lia.
      * lia.
    + rewrite Hro_vals, Hvals. unfold values. rewrite Hel.
      apply lists_match_dicts, Hd.
Qed.

(** The same step on the values. *)
Lemma publish_refines (h : heap) (self : attributes) (held : list ref)
    (l : ref) (h' : heap) (self' : attributes) :
  separated h self held ->
  Forall (is_dict h) (elements h (read_only self)) ->
  (if negb (lists_match (values h (write_only self))
                        (values h (read_only self)))
   then
     let '(ro, h1) := deepcopy (write_only self) h in
     (Return ro,
      (h1, mkAttributes (write_only self) ro (cached_date self) (log self)))
   else (Return (read_only self), (h, self)))
  = (Return l, (h', self')) ->
  republish (view (h, self)) = view (h', self')
  /\ _data_read_only (view (h', self')) = records h' l
  /\ Forall (is_dict h') (elements h' (read_only self')).
Proof.
  intros Hsep Hro Hrun.
  destruct (publish_separated _ _ _ _ _ _ Hsep Hrun)
    as (-> & Hwo & Hdate & Hlog & Hvals & _ & _ & Hcases).
  destruct Hsep as (_ & _ & (working & Hw & Hd & _) & _).
  pose proof (elements_lookup _ _ _ Hw) as Hel.
  assert (Hm : value_lists_match (records h (write_only self))
                                     (records h (read_only self))
               = lists_match (values h (write_only self))
                             (values h (read_only self))).
  { unfold records, values. symmetry. apply lists_match_records; [|assumption].
    rewrite Hel. assumption. }
  unfold republish. cbn [view _data_write_only _data_read_only fst snd
                         _cached_date requests_log].
  rewrite Hm.
  destruct Hcases as [(Hyes & _ & -> & ->)|(Hnot & Hcopy & _)].
  - rewrite Hyes. auto.
  - rewrite Hnot. split; [|split; [reflexivity|]].
    + unfold view. cbn [fst snd].
      rewrite (records_values _ _ _ _ Hcopy), (records_values _ _ _ _ Hvals).
      rewrite Hdate, Hlog. reflexivity.
    + apply (values_dicts _ _ _ _ Hcopy). rewrite Hel. assumption.
Qed.

Lemma data_separated (w : world) (h : heap) (self : attributes)
    (held : list ref) (r : result ref) (h' : heap) (self' : attributes) :
  separated h self held ->
  data w (h, self) = (r, (h', self')) ->
  match r with
  | Return l =>
      l = read_only self'
      /\ separated h' self' (l :: elements h' l ++ held)
      /\ lists_match (values h' (write_only self')) (values h' l) = true
  | Raise e => separated h' self' held
  end.
Proof.
  intros Hsep. unfold data. cbn [snd].
  destruct (bool_decide (Some (today w) = cached_date self)); cbn [negb].
  - destruct r as [l|e]; [|destruct (negb _); [destruct (deepcopy _ _)|];
                            discriminate].
    intros Hrun. apply (publish_separated _ _ _ _ _ _ Hsep) in Hrun.
    destruct Hrun as (? & _ & _ & _ & _ & ? & ? & _). auto.
  - destruct (fill w (h, self)) as [[[]|e] [h1 self1]] eqn:Hfill.
    + destruct (fill_separated _ _ _ _ _ _ _ (proj1 Hsep) (proj1 (proj2 Hsep)) Hfill)
        as (Hsep1 & _).
      destruct r as [l|e]; [|destruct (negb _); [destruct (deepcopy _ _)|];
                              discriminate].
      intros Hrun. apply (publish_separated _ _ _ _ _ _ Hsep1) in Hrun.
      destruct Hrun as (? & _ & _ & _ & _ & ? & ? & _). auto.
    + intros [= <- <- <-].
      apply (fill_separated _ _ _ _ _ _ _ (proj1 Hsep) (proj1 (proj2 Hsep)) Hfill).
Qed.


Lemma fresh_lists_separated (h : heap) (held : list ref) (d : option pystr)
    (sent : list request) :
  wf h -> Forall (fun x => x < next_ref h) held ->
  separated (new_list [] (new_list [] h).2).2
            (mkAttributes (new_list [] h).1 (new_list [] (new_list [] h).2).1
                          d sent)
            held.
Proof.
  intros Hwf Hheld.
  pose proof (new_list_spec [] h Hwf (List.Forall_nil _)) as Hn1.
  destruct (new_list [] h) as [wo h1].
  destruct Hn1 as (-> & Hwf1 & Hext1 & Hnext1 & Hlist1 & Hobj1).
  cbn [fst snd].
  pose proof (new_list_spec [] h1 Hwf1 (List.Forall_nil _)) as Hn2.
  destruct (new_list [] h1) as [ro h2].
  destruct Hn2 as (-> & Hwf2 & Hext2 & Hnext2 & Hlist2 & Hobj2).
  cbn [fst snd].
  assert (Hwo2 : list_at h2 !! next_ref h = Some []).
  { destruct Hext2 as (_ & _ & Hl). rewrite Hl by lia. exact Hlist1. }
  unfold separated. cbn [write_only read_only].
  conjs; auto.
  - eapply Forall_impl; [exact Hheld|]. simpl. intros; lia.
  - exists []. conjs; auto.
    + rewrite (elements_lookup _ _ _ Hlist2). constructor.
    + apply not_elem_of_nil.
  - rewrite Forall_forall in Hheld. intros Hin%Hheld. lia.
  - lia.
  - lia.
Qed.

Lemma start_separated : separated (objects start) (storage start) (held start).
Proof.
  apply (fresh_lists_separated (mkHeap ∅ ∅ 0) [] None []); [|constructor].
  split.
  - intros r x. simpl. rewrite lookup_empty. discriminate.
  - intros l refs. simpl. rewrite lookup_empty. discriminate.
Qed.







(** [data] on the objects computes what [data] on the values computes, as
    long as no caller has put anything but dicts in the published list. *)
Lemma data_refines (w : world) (h : heap) (self : attributes)
    (held : list ref) (r : result ref) (h' : heap) (self' : attributes) :
  separated h self held ->
  Forall (is_dict h) (elements h (read_only self)) ->
  data w (h, self) = (r, (h', self')) ->
  value_data w (view (h, self))
  = (match r with
     | Return l => Return (records h' l)
     | Raise e => Raise e
     end, view (h', self'))
  /\ Forall (is_dict h') (elements h' (read_only self')).
Proof.
  intros Hsep Hro. rewrite data_unfold.
  change (_cached_date (view (h, self))) with (cached_date self).
  unfold data. cbn [snd].
  destruct (bool_decide (Some (today w) = cached_date self)); cbn [negb].
  - destruct r as [l|e]; [|destruct (negb _); [destruct (deepcopy _ _)|];
                            discriminate].
    intros Hrun.
    destruct (publish_refines _ _ _ _ _ _ Hsep Hro Hrun) as (-> & <- & Hro').
    auto.
  - destruct (fill w (h, self)) as [[[]|e] [h1 self1]] eqn:Hfill;
      destruct (fill_separated _ _ _ _ _ _ _ (proj1 Hsep) (proj1 (proj2 Hsep))
                               Hfill) as (Hsep1 & _ & _ & -> & Hro1).
    + destruct r as [l|e]; [|destruct (negb _); [destruct (deepcopy _ _)|];
                              discriminate].
      intros Hrun.
      destruct (publish_refines _ _ _ _ _ _ Hsep1 Hro1 Hrun) as (-> & <- & Hro').
      auto.
    + intros [= <- <- <-]. auto.
Qed.


Lemma reads_refine_from (worlds : list world) (p : process) :
  separated (objects p) (storage p) (held p) ->
  Forall (is_dict (objects p)) (elements (objects p) (read_only (storage p))) ->
  view (objects (session (List.map Read worlds) p).1,
        storage (session (List.map Read worlds) p).1)
  = (reads worlds (view (objects p, storage p))).1
  /\ List.map answer_records (session (List.map Read worlds) p).2
     = (reads worlds (view (objects p, storage p))).2.
Proof.
  revert p. induction worlds as [|w rest IH]; intros p Hsep Hro; [auto|].
  cbn [List.map session reads act].
  destruct (data w (objects p, storage p)) as [r [h self]] eqn:Hdata.
  destruct (data_refines _ _ _ _ _ _ _ Hsep Hro Hdata) as [Hval Hro'].
  pose proof (data_separated _ _ _ _ _ _ _ Hsep Hdata) as Hsep'.
  rewrite Hval.
  destruct r as [l|e].
  - destruct Hsep' as (_ & Hsep' & _).
    specialize (IH (mkProcess h self (l :: elements h l ++ held p)) Hsep' Hro').
    cbn [objects storage] in IH. destruct IH as [IH1 IH2].
    destruct (session (List.map Read rest) _) as [p2 answers].
    destruct (reads rest (view (h, self))) as [self2 answers'].
    cbn [fst snd] in *. split; [exact IH1|].
    cbn [List.map answer_records]. f_equal. exact IH2.
  - specialize (IH (mkProcess h self (held p)) Hsep' Hro').
    cbn [objects storage] in IH. destruct IH as [IH1 IH2].
    destruct (session (List.map Read rest) _) as [p2 answers].
    destruct (reads rest (view (h, self))) as [self2 answers'].
    cbn [fst snd] in *. split; [exact IH1|].
    cbn [List.map answer_records]. f_equal. exact IH2.
Qed.

(** Without callers, the reads on the objects are the reads on the
    values. *)
Lemma reads_refine (worlds : list world) :
  view (objects (session (List.map Read worlds) start).1,
        storage (session (List.map Read worlds) start).1)
  = (reads worlds value_init).1
  /\ List.map answer_records (session (List.map Read worlds) start).2
     = (reads worlds value_init).2.
Proof.
  apply (reads_refine_from worlds start start_separated). constructor.
Qed.

End ObjectFacts.


(** * The claims *)

Section Claims.

Context `{PyRuntime}.


(** C2, amended. On a snapshot whose records have strings as code and
    names, [get_currency_data] first compares the lowered request with the
    lowered code, Russian name and English name of every record, and
    returns the first record, in snapshot order, for which one of the three
    is equal. Hence a request equal to the code of a record up to case is
    answered by this first stage, whatever the edit distances are: by the
    first record that matches on its code or on one of its names, which is
    the record with that code only when no record before it matches. The
    stage by edit distance decides the result exactly when no record
    matches on any of the three. *)
Theorem exact_match_first (w : world) (self self' : RatesStorage)
    (s : list currency) (request : pystr) :
  data w self = (Return s, self') ->
  Forall strings s ->
  (forall l1 c l2,
      s = l1 ++ c :: l2 ->
      lower_method (code c) = Return (lower request)
      \/ lower_method (rus_name c) = Return (lower request)
      \/ lower_method (eng_name c) = Return (lower request) ->
      Forall (fun x => lower_method (code x) <> Return (lower request)
                       /\ lower_method (rus_name x) <> Return (lower request)
                       /\ lower_method (eng_name x) <> Return (lower request))
             l1 ->
      get_currency_data request w self = (Return (Some c), self'))
  /\ (forall r,
      r ∈ s -> lower_method (code r) = Return (lower request) ->
      exists l1 c l2,
        s = l1 ++ c :: l2
        /\ (lower_method (code c) = Return (lower request)
            \/ lower_method (rus_name c) = Return (lower request)
            \/ lower_method (eng_name c) = Return (lower request))
        /\ Forall (fun x => lower_method (code x) <> Return (lower request)
                            /\ lower_method (rus_name x) <> Return (lower request)
                            /\ lower_method (eng_name x) <> Return (lower request))
                  l1
        /\ (r ∈ l1 -> False)
        /\ get_currency_data request w self = (Return (Some c), self'))
  /\ (Forall (fun x => lower_method (code x) <> Return (lower request)
                       /\ lower_method (rus_name x) <> Return (lower request)
                       /\ lower_method (eng_name x) <> Return (lower request))
             s <->
      Forall (fun x => equality_comparator x request = Return false) s)
  /\ (Forall (fun x => lower_method (code x) <> Return (lower request)
                       /\ lower_method (rus_name x) <> Return (lower request)
                       /\ lower_method (eng_name x) <> Return (lower request))
             s ->
      get_currency_data request w self = (fuzzy_in s request, self')).
Proof.
  intros Hdata Hstr. rewrite (get_currency_data_snapshot _ _ _ _ _ Hdata).
  assert (Hreturns : Forall (fun x => exists found,
                       equality_comparator x request = Return found) s).
  { eapply Forall_impl; [exact Hstr|]. simpl. intros x Hx.
    rewrite (equality_comparator_strings _ _ Hx). eauto. }
  assert (Hyes : forall c,
             strings c ->
             lower_method (code c) = Return (lower request)
             \/ lower_method (rus_name c) = Return (lower request)
             \/ lower_method (eng_name c) = Return (lower request) ->
             matches c request = true).
  { intros c (k & r & e & Hk & Hr & He) Hc.
    unfold matches, equality_comparator. rewrite Hk, Hr, He in *. simpl in *.
    repeat case_bool_decide; try reflexivity.
    destruct Hc as [Hc|[Hc|Hc]]; congruence. }
  assert (Hnot : forall x,
             strings x ->
             (lower_method (code x) <> Return (lower request)
              /\ lower_method (rus_name x) <> Return (lower request)
              /\ lower_method (eng_name x) <> Return (lower request))
             <-> equality_comparator x request = Return false).
  { intros x (k & r & e & Hk & Hr & He).
    rewrite equality_comparator_false. rewrite Hk, Hr, He. simpl. split.
    - intros (Hnk & Hnr & Hne). exists k, r, e.
      repeat split; congruence.
    - intros (k' & r' & e' & [= <-] & [= <-] & [= <-] & Hnk & Hnr & Hne).
      repeat split; congruence. }
  assert (Hall : forall l,
             Forall strings l ->
             Forall (fun x => lower_method (code x) <> Return (lower request)
                              /\ lower_method (rus_name x) <> Return (lower request)
                              /\ lower_method (eng_name x) <> Return (lower request))
                    l <->
             Forall (fun x => equality_comparator x request = Return false) l).
  { intros l Hl. rewrite !Forall_forall. rewrite Forall_forall in Hl.
    split; intros Hx x Hin; apply (Hnot x (Hl x Hin)), Hx, Hin. }
  assert (Hfirst : forall l1 c l2,
             s = l1 ++ c :: l2 ->
             lower_method (code c) = Return (lower request)
             \/ lower_method (rus_name c) = Return (lower request)
             \/ lower_method (eng_name c) = Return (lower request) ->
             Forall (fun x => lower_method (code x) <> Return (lower request)
                              /\ lower_method (rus_name x) <> Return (lower request)
                              /\ lower_method (eng_name x) <> Return (lower request))
                    l1 ->
             resolve_in s request = Return (Some c)).
  { intros l1 c l2 Hs Hc Hl1. apply resolve_in_exact; [assumption|].
    assert (Hstr' := Hstr). rewrite Hs in Hstr'.
    apply Forall_app in Hstr' as [Hs1 Hs2].
    apply Forall_cons in Hs2 as [Hsc _].
    exists l1, l2. split; [assumption|]. split; [apply Hyes; assumption|].
    eapply Forall_impl; [apply (proj1 (Hall l1 Hs1) Hl1)|].
    simpl. intros x Hx. apply matches_false, Hx. }
  split; [|split; [|split]].
  - intros l1 c l2 Hs Hc Hl1. rewrite (Hfirst l1 c l2); auto.
  - intros r Hin Hr.
    assert (Hsr : strings r) by (rewrite Forall_forall in Hstr; auto).
    destruct (first_such_exists (fun x => matches x request) s r Hin)
      as (c & l1 & l2 & Hs & Hc & Hl1); [apply Hyes; auto|].
    assert (Hstr' := Hstr). rewrite Hs in Hstr'.
    apply Forall_app in Hstr' as [Hs1 Hs2].
    apply Forall_cons in Hs2 as [Hsc _].
    assert (Hl1' : Forall (fun x => equality_comparator x request = Return false)
                          l1).
    { rewrite Forall_forall in Hl1, Hs1. apply Forall_forall. intros x Hx.
      specialize (Hl1 x Hx). simpl in Hl1.
      rewrite (equality_comparator_strings _ _ (Hs1 x Hx)), Hl1. reflexivity. }
    exists l1, c, l2. split; [assumption|].
    split; [apply equality_comparator_true, matches_true, Hc|].
    split; [apply Hall; assumption|].
    split.
    + intros Hr1. rewrite Forall_forall in Hl1'. specialize (Hl1' r Hr1).
      rewrite (equality_comparator_code _ _ Hr) in Hl1'. discriminate.
    + rewrite (Hfirst l1 c l2); auto.
      * apply equality_comparator_true, matches_true, Hc.
      * apply Hall; assumption.
  - apply Hall, Hstr.
  - intros Hno. rewrite resolve_in_no_exact; [reflexivity|].
    apply Hall; assumption.
Qed.

(** C4, amended. [find_currency_by_code] compares the code with the
    argument as it is, case included: it returns the first record of the
    snapshot whose code is the argument, and [None] when no record has
    that code. *)
Theorem find_currency_by_code_exact (w : world) (self self' : RatesStorage)
    (s : list currency) (code0 : pystr) :
  data w self = (Return s, self') ->
  (forall c,
      first_such (fun x => bool_decide (code x = code0)) s c ->
      find_currency_by_code code0 w self = (Return (Some c), self'))
  /\ (forall r,
      r ∈ s -> code r = code0 ->
      exists c, c ∈ s /\ code c = code0
                /\ find_currency_by_code code0 w self = (Return (Some c), self'))
  /\ (Forall (fun x => code x <> code0) s ->
      find_currency_by_code code0 w self = (Return None, self')).
Proof.
  intros Hdata. rewrite (find_currency_by_code_snapshot _ _ _ _ _ Hdata).
  split; [|split].
  - intros c Hc. rewrite (proj2 (find_in_first _ _ _) Hc). reflexivity.
  - intros r Hin Hr.
    destruct (first_such_exists (fun x => bool_decide (code x = code0)) s r Hin)
      as [c Hc]; [apply bool_decide_eq_true_2, Hr|].
    exists c. rewrite (proj2 (find_in_first _ _ _) Hc).
    destruct Hc as (l1 & l2 & -> & Hcode & _).
    apply bool_decide_eq_true in Hcode.
    repeat split; auto. apply elem_of_app. right. left.
  - intros Hno. rewrite (proj2 (find_in_none _ _) Hno). reflexivity.
Qed.

(** C6. When [get_price] returns the sentence with a price, the amount is
    the parsed text, the two currencies are the ones [get_currency_data]
    found, and the quantity is [round(v, 2)] for
    [v = base rate / quote rate * amount]. That is: when [v] is finite with
    the exact value [m * 2 ^ e], the quantity is the double nearest to
    [n / 100], where [n] is the integer nearest to [100 * m * 2 ^ e] and
    the even one of the two when that value lies halfway; when [v] is a
    zero, an infinity or NaN, the quantity is [v]. With rates 90.0 and
    100.0 and amount 10 the quantity is 9.0; 1/8 gives 0.12 and 3/8 gives
    0.38 (ties go to the even hundredth), 5.35/2 gives 2.67 (the double
    2.675 lies below the tie) and 1/3 gives 0.33. *)
Theorem get_price_quantity (w : world) (self self' : RatesStorage)
    (base quote amount : pystr) (a qty : float) (b q : currency) :
  get_price base quote amount w self = (Return (Price a b qty q), self') ->
  py_float amount = Some a
  /\ (exists self1,
        get_currency_data base w self = (Return (Some b), self1)
        /\ get_currency_data quote w self1 = (Return (Some q), self'))
  /\ qty = round (rub_rate b / rub_rate q * a)%float 2
  /\ match Prim2SF (rub_rate b / rub_rate q * a)%float with
     | S754_finite sign m e =>
         exists n : Z,
           (0 <= n)%Z
           /\ nearest_even (Zpos m * 100 * 2 ^ Z.max e 0) (2 ^ Z.max (- e) 0) n
           /\ qty = of_hundredths sign n
     | _ => qty = (rub_rate b / rub_rate q * a)%float
     end
  /\ (rub_rate b = 90.0%float -> rub_rate q = 100.0%float -> a = 10.0%float ->
      qty = 9.0%float)
  /\ (rub_rate b = 1.0%float -> rub_rate q = 8.0%float -> a = 1.0%float ->
      qty = of_hundredths false 12)
  /\ (rub_rate b = 3.0%float -> rub_rate q = 8.0%float -> a = 1.0%float ->
      qty = of_hundredths false 38)
  /\ (rub_rate b = of_hundredths false 535 -> rub_rate q = 2.0%float ->
      a = 1.0%float -> qty = of_hundredths false 267)
  /\ (rub_rate b = 1.0%float -> rub_rate q = 3.0%float -> a = 1.0%float ->
      qty = of_hundredths false 33).
Proof.
  unfold get_price, catch_api.
  destruct (py_float amount) as [a0|]; [|intros [=]].
  destruct (PrimFloat.leb a0 0%float); [intros [=]|].
  unfold bind.
  destruct (get_currency_data base w self) as [[[b0|]|[]] self1] eqn:Hb;
    try (intros Hx; discriminate Hx).
  destruct (get_currency_data quote w self1) as [[[q0|]|[]] self2] eqn:Hq;
    try (intros Hx; discriminate Hx).
  destruct (bool_decide (code b0 = code q0)); [intros [=]|].
  destruct (PrimFloat.eqb (rub_rate q0) 0%float); [intros [=]|].
  intros [= -> -> <- -> ->].
  split; [reflexivity|]. split; [eauto|]. split; [reflexivity|].
  split; [apply round_hundredths|].
  repeat split; intros -> -> ->; vm_compute; reflexivity.
Qed.

(** C7. A refresh that succeeds leaves, as working list and as published
    list, the fetched records (one per [Valute] element of the feed, with
    a code of the feed) followed by the one record [RUR], whose code is
    fixed and whose rate is 1.0; [RUR] is the last element, a read that
    refreshes returns this list, and when no element of the feed is
    called RUR it is the only record with that code. *)
Theorem fill_appends_RUR (w : world) (self self' : RatesStorage) :
  fill w self = (Return tt, self') ->
  exists valutes fetched,
    rates_feed w (today w) = Xml valutes
    /\ length fetched = length valutes
    /\ _data_write_only self' = fetched ++ [RUR]
    /\ _data_read_only self' = fetched ++ [RUR]
    /\ last (_data_read_only self') = Some RUR
    /\ code RUR = u"RUR" /\ rub_rate RUR = 1.0%float
    /\ (_cached_date self <> Some (today w) ->
        data w self = (Return (fetched ++ [RUR]), self'))
    /\ (Forall (fun v => valute_CharCode v <> Some (Str (u"RUR"))) valutes ->
        List.filter (fun c => bool_decide (code c = u"RUR")) (fetched ++ [RUR])
        = [RUR]).
Proof.
  intros Hfill.
  destruct (fill_return _ _ _ Hfill)
    as (valutes & fetched & Hfeed & Hlen & Hcodes & Hwo & Hro).
  exists valutes, fetched. repeat split; auto.
  - rewrite Hro. apply last_snoc.
  - intros Hstale. rewrite data_unfold.
    rewrite bool_decide_eq_false_2 by congruence. rewrite Hfill.
    assert (Hrep : republish self' = self').
    { unfold republish. rewrite Hwo, Hro, lists_match_refl. reflexivity. }
    rewrite Hrep, Hro. reflexivity.
  - intros Hno. rewrite List.filter_app. simpl.
    replace (List.filter _ fetched) with (@nil currency); [reflexivity|].
    symmetry. apply filter_nil_all.
    rewrite Forall_forall in Hcodes. rewrite Forall_forall in Hno.
    apply Forall_forall.
    intros c Hc. apply bool_decide_eq_false. intros Heq.
    destruct (Hcodes c Hc) as (v & Hv & Hcode).
    apply (Hno v Hv). rewrite Hcode, Heq. reflexivity.
Qed.

(** C8. Two consecutive reads of [data] on the same day: the second one
    returns, sends no request to the bank whatever the first one did, and
    when the first one returned a snapshot it returns that same snapshot
    and leaves the storage as it was. The two reads may see different
    feeds; only the date has to be the same. *)
Theorem data_twice_same_day (w w' : world) (self self1 : RatesStorage)
    (r : result (list currency)) :
  today w' = today w ->
  data w self = (r, self1) ->
  exists s2 self2,
    data w' self1 = (Return s2, self2)
    /\ requests_log self2 = requests_log self1
    /\ (forall s1, r = Return s1 -> s2 = s1 /\ self2 = self1).
Proof.
  intros Hday Hfirst.
  pose proof (data_cached_date _ _ _ _ Hfirst) as Hdate.
  rewrite <- Hday in Hdate.
  exists (_data_read_only (republish self1)), (republish self1).
  split; [apply data_same_day, Hdate|].
  split; [apply republish_facts|].
  intros s1 ->. apply data_return in Hfirst as [Hs ->].
  rewrite (republish_settled _ _ Hs). auto.
Qed.

(** C10. When the snapshot that [data] returns is empty,
    [get_currency_data] raises [IndexError] for every request, and so
    does [get_price] for every amount that parses to a number above zero:
    the exception is not an [APIException], so [get_price] does not turn
    it into a message. *)
Theorem empty_snapshot_IndexError (w : world) (self self' : RatesStorage)
    (request : pystr) :
  data w self = (Return [], self') ->
  get_currency_data request w self = (Raise IndexError, self')
  /\ (forall quote amount a,
        py_float amount = Some a -> PrimFloat.leb a 0%float = false ->
        get_price request quote amount w self = (Raise IndexError, self')).
Proof.
  intros Hdata.
  assert (Hres : get_currency_data request w self = (Raise IndexError, self')).
  { rewrite (get_currency_data_snapshot _ _ _ _ _ Hdata). reflexivity. }
  split; [exact Hres|].
  intros quote amount a Hparse Hpos.
  unfold get_price, catch_api. rewrite Hparse, Hpos.
  unfold bind. rewrite Hres. reflexivity.
Qed.

End Claims.

Section CallerClaims.

Import Objects.

Context `{PyRuntime}.


End CallerClaims.

(** * Further properties of the code *)

Section Refresh.

Context `{PyRuntime}.

(** X1. [fill] returns without an exception exactly when both documents
    arrive and are XML, every [Item] has its two names, and every [Valute]
    has an id of the vocabulary, a code and a rate that [float] accepts
    once the comma is replaced; what the storage held before plays no
    part. *)
Theorem fill_returns_iff (w : world) (self : RatesStorage) :
  (exists self', fill w self = (Return tt, self')) <-> feeds_ok w = true.
Proof.
  rewrite fill_unfold. cbv zeta. unfold feeds_ok.
  destruct (vocabulary_feed w) as [cls| |items];
    try (split; [intros [? [=]]|discriminate]).
  pose proof (vocabulary_items_result items ∅) as Hvoc.
  destruct (forallb item_ok items).
  - destruct Hvoc as [vocabulary Hvoc]. rewrite Hvoc.
    destruct (rates_feed w (today w)) as [cls| |valutes];
      try (split; [intros [? [=]]|discriminate]).
    simpl. rewrite <- (valute_items_result _ valutes vocabulary []).
    + destruct (valute_items valutes vocabulary [])
        as [[[e|] vocabulary'] appended]; simpl.
      * split; [intros [? [=]]|discriminate].
      * split; [reflexivity|eauto].
    + intros id. apply vocabulary_items_ids, Hvoc.
  - rewrite Hvoc. simpl.
    destruct (rates_feed w (today w)); split;
      first [intros [? [=]]|discriminate].
Qed.

(** X2. Whatever its outcome, [fill] first asks for the vocabulary and
    asks for the rates of today only when the vocabulary arrived with all
    its parts: one request or two, never more, and none repeated. *)
Theorem fill_requests (w : world) (self self' : RatesStorage) (r : result unit) :
  fill w self = (r, self') ->
  requests_log self'
  = requests_log self
    ++ GetVocabulary
       :: (if vocabulary_ok w then [GetRates (today w)] else []).
Proof.
  rewrite fill_unfold. cbv zeta. unfold vocabulary_ok.
  destruct (vocabulary_feed w) as [cls| |items];
    try (intros [= <- <-]; reflexivity).
  pose proof (vocabulary_items_result items ∅) as Hvoc.
  destruct (forallb item_ok items).
  - destruct Hvoc as [vocabulary ->].
    destruct (rates_feed w (today w)) as [cls| |valutes];
      try (intros [= <- <-]; simpl; rewrite <- app_assoc; reflexivity).
    destruct (valute_items valutes vocabulary [])
      as [[[e|] vocabulary'] appended];
      intros [= <- <-]; simpl; rewrite <- app_assoc; reflexivity.
  - rewrite Hvoc. intros [= <- <-]. reflexivity.
Qed.

(** X3. After a [fill] that returns, the working list holds one record per
    [Valute] element, in the order of the feed, then [RUR]. The record of
    an element has the names of the last [Item] with its id and the code
    and rate of the last [Valute] with its id: two elements with one id
    give two equal records, both with the values of the later one. When
    the ids of the feed are pairwise different, every record has the code
    and the rate of its own element. *)
Theorem fill_merges_by_id (w : world) (self self' : RatesStorage)
    (items : list voc_item) (valutes : list valute) :
  fill w self = (Return tt, self') ->
  vocabulary_feed w = Xml items ->
  rates_feed w (today w) = Xml valutes ->
  exists fetched,
    _data_write_only self' = fetched ++ [RUR]
    /\ Forall2 (merged items valutes) valutes fetched
    /\ (NoDup (List.map valute_ID valutes) ->
        Forall2 (fun v c =>
                   valute_CharCode v = Some (code c)
                   /\ exists unit_rate,
                        valute_VunitRate v = Some (Str unit_rate)
                        /\ py_float (replace_comma unit_rate)
                           = Some (rub_rate c))
                valutes fetched).
Proof.
  rewrite fill_unfold. cbv zeta. intros Hfill Hitems Hvalutes.
  rewrite Hitems, Hvalutes in Hfill.
  destruct (vocabulary_items items ∅) as [e|vocabulary] eqn:Hvoc;
    [discriminate|].
  destruct (valute_items valutes vocabulary [])
    as [[[e|] vocabulary'] appended] eqn:Hloop; [discriminate|].
  injection Hfill as <-. simpl.
  exists (contents vocabulary' appended). split; [reflexivity|].
  destruct (valute_items_lookup valutes NoneText _ _ _ _ Hloop) as [Happ _].
  simpl in Happ. subst appended.
  assert (Hall : forall l, Forall (fun v => v ∈ valutes) l ->
            Forall2 (fun v c => v ∈ valutes /\ merged items valutes v c) l
                    (contents vocabulary' (List.map valute_ID l))).
  { induction 1 as [|v l Hv _ IH]; [constructor|].
    destruct (valute_items_lookup valutes (valute_ID v) _ _ _ _ Hloop)
      as [_ Hlook].
    destruct (last_with_elem (fun x => bool_decide (valute_ID x = valute_ID v))
                             valutes v Hv) as [lv Hlv];
      [apply bool_decide_eq_true_2; reflexivity|].
    rewrite Hlv in Hlook.
    destruct Hlook as (d & c & unit_rate & r & Hd & Hc & Ht & Hr & Hv').
    pose proof (vocabulary_items_lookup items (valute_ID v) _ _ Hvoc) as Hnames.
    destruct (last_with _ items) as [it|] eqn:Hit;
      [|rewrite lookup_empty in Hnames; congruence].
    destruct Hnames as (rus & eng & Hrus & Heng & Hd').
    rewrite Hd in Hd'. injection Hd' as ->. simpl in Hv'.
    unfold contents. simpl. rewrite Hv'. simpl.
    constructor; [|exact IH]. split; [exact Hv|].
    exists it, lv, unit_rate. simpl. auto 10. }
  assert (Hmerged : Forall2 (fun v c => v ∈ valutes /\ merged items valutes v c)
                            valutes
                            (contents vocabulary' (List.map valute_ID valutes))).
  { apply Hall. apply Forall_forall. auto. }
  split; [eapply Forall2_impl; [exact Hmerged|]; intros v c [_ Hm]; exact Hm|].
  intros Hnd. eapply Forall2_impl; [exact Hmerged|].
  intros v c [Hv (it & lv & unit_rate & _ & Hlv & _ & _ & Hc & Ht & Hr)].
  apply last_with_Some in Hlv as [Hid Hin].
  apply bool_decide_eq_true in Hid.
  assert (lv = v) by (apply (injective_on_NoDup valute_ID valutes); auto).
  subst lv. eauto.
Qed.

End Refresh.

Section Reads.

Context `{PyRuntime}.

(** X4. A read on a new day keeps nothing of the cache it finds: from two
    storages whose date is not today, whatever their lists are, it gives
    the same result (the same snapshot or the same exception) and leaves
    the same working list, published list and date. *)
Theorem stale_read_forgets (w : world) (a b : RatesStorage) :
  _cached_date a <> Some (today w) ->
  _cached_date b <> Some (today w) ->
  (data w a).1 = (data w b).1
  /\ _data_write_only (data w a).2 = _data_write_only (data w b).2
  /\ _data_read_only (data w a).2 = _data_read_only (data w b).2
  /\ _cached_date (data w a).2 = _cached_date (data w b).2.
Proof.
  intros Ha Hb. rewrite !data_unfold.
  rewrite !bool_decide_eq_false_2 by congruence.
  rewrite !fill_unfold. cbv zeta.
  destruct (vocabulary_feed w) as [cls| |items]; simpl; auto.
  destruct (vocabulary_items items ∅) as [e|vocabulary]; simpl; auto.
  destruct (rates_feed w (today w)) as [cls| |valutes]; simpl; auto.
  destruct (valute_items valutes vocabulary [])
    as [[[e|] vocabulary'] appended]; simpl; auto.
  unfold republish. simpl. rewrite lists_match_refl. simpl. auto.
Qed.

(** X5. A read raises only when the date of the cache is not today, and
    then an [APIException] about one of the two feeds; it leaves the date
    of today in the cache and an empty published list. On the day of the
    cache a read always returns. *)
Theorem data_fails_only_on_refresh (w : world) (self self' : RatesStorage)
    (e : exn) :
  data w self = (Raise e, self') ->
  _cached_date self <> Some (today w)
  /\ (exists m, e = APIException m /\ upstream m = true)
  /\ _cached_date self' = Some (today w)
  /\ _data_read_only self' = [].
Proof.
  intros Hdata. pose proof (data_cached_date _ _ _ _ Hdata) as Hdate.
  destruct (data_raise_inv _ _ _ _ Hdata) as (Hstale & _ & m & -> & Hm & Hro).
  eauto 10.
Qed.

End Reads.

Section Lookups.

Context `{PyRuntime}.

(** X6. On the snapshot that [data] returns, [get_currency_data] raises
    [IndexError] exactly when the snapshot is empty, and [AttributeError]
    exactly when the comparator meets [None] in some record: a code that
    is [None], or, after a code that differs from the request, a Russian
    name that is [None], or, after a Russian name that differs too, an
    English name that is [None]. It raises nothing else. A record it
    returns is the first record of the snapshot on which the comparator
    returns [True]; or, when the comparator returns [False] on every
    record, the first record with the code of the closest record, which
    is then at distance at most 3 from the request. *)
Theorem get_currency_data_outcomes (w : world) (self self' : RatesStorage)
    (s : list currency) (request : pystr) :
  data w self = (Return s, self') ->
  (get_currency_data request w self = (Raise IndexError, self') <-> s = [])
  /\ (get_currency_data request w self = (Raise (Error AttributeError), self')
      <-> exists c,
            c ∈ s
            /\ (code c = NoneText
                \/ (lower_method (code c) <> Return (lower request)
                    /\ (rus_name c = NoneText
                        \/ (lower_method (rus_name c) <> Return (lower request)
                            /\ eng_name c = NoneText)))))
  /\ (forall e, get_currency_data request w self = (Raise e, self') ->
                e = IndexError \/ e = Error AttributeError)
  /\ (forall c,
        get_currency_data request w self = (Return (Some c), self') ->
        c ∈ s
        /\ ((exists l1 l2,
                s = l1 ++ c :: l2
                /\ equality_comparator c request = Return true
                /\ Forall (fun x => equality_comparator x request
                                    = Return false) l1)
            \/ (Forall (fun x => equality_comparator x request = Return false)
                       s
                /\ exists best,
                    closest request s best
                    /\ min_distance best request <= 3
                    /\ first_such (fun x => bool_decide (code x = code best))
                                  s c))).
Proof.
  intros Hdata. rewrite (get_currency_data_snapshot _ _ _ _ _ Hdata).
  pose proof (resolve_in_outcomes s request) as Hout.
  pose proof (resolve_in_found s request) as Hfound.
  assert (Hraises : (exists c, c ∈ s
                       /\ equality_comparator c request
                          = Raise (Error AttributeError)) ->
                    resolve_in s request = Raise (Error AttributeError)).
  { intros (c & Hc & Hraise). unfold resolve_in.
    destruct (filter_list_raises (fun x => equality_comparator x request)
                                 s c _ Hc Hraise) as [e' He'].
    rewrite He'. apply filter_list_Raise in He' as (c' & _ & Hc').
    destruct (equality_comparator_raise _ _ _ Hc') as [-> _]. reflexivity. }
  assert (Hiff : (exists c, c ∈ s
                    /\ equality_comparator c request
                       = Raise (Error AttributeError))
                 <-> exists c,
                       c ∈ s
                       /\ (code c = NoneText
                           \/ (lower_method (code c) <> Return (lower request)
                               /\ (rus_name c = NoneText
                                   \/ (lower_method (rus_name c)
                                       <> Return (lower request)
                                       /\ eng_name c = NoneText))))).
  { split; intros (c & Hc & Hx); exists c; (split; [assumption|]);
      apply equality_comparator_raise_iff; assumption. }
  rewrite <- Hiff. clear Hiff.
  destruct (resolve_in s request) as [[c|]|e].
  - split; [split; [discriminate|]|].
    + intros ->. destruct Hout as [Hin _]. inversion Hin.
    + split; [split; [discriminate|intros Hx%Hraises; discriminate]|].
      split; [discriminate|]. intros c' [= <-].
      split; [apply Hout|apply Hfound; reflexivity].
  - split; [split; [discriminate|]|].
    + intros ->. destruct Hout as [Hne _]. congruence.
    + split; [split; [discriminate|intros Hx%Hraises; discriminate]|].
      split; discriminate.
  - destruct Hout as [[-> ->]|[-> Hc]].
    + split; [split; reflexivity|].
      split; [split; [discriminate|]|].
      * intros (c & Hc & _). inversion Hc.
      * split; [intros e [= <-]; auto|discriminate].
    + split; [split; [discriminate|]|].
      * intros ->. destruct Hc as (c & Hc & _). inversion Hc.
      * split; [split; [auto|reflexivity]|].
        split; [intros e [= <-]; auto|discriminate].
Qed.

(** X7. On records with strings as code and names: a request whose length
    (in lower case) differs by more than 3 from the length of both names
    of every record, and which is the code of none, is not found: each
    edit changes the length by one at most. *)
Theorem far_lengths_not_found (w : world) (self self' : RatesStorage)
    (s : list currency) (request : pystr) :
  data w self = (Return s, self') ->
  s <> [] ->
  Forall (fun c =>
            exists k r e,
              code c = Str k /\ rus_name c = Str r /\ eng_name c = Str e
              /\ lower k <> lower request
              /\ 3 < length_gap (lower r) (lower request)
              /\ 3 < length_gap (lower e) (lower request)) s ->
  get_currency_data request w self = (Return None, self').
Proof.
  intros Hdata Hne Hfar.
  rewrite (get_currency_data_snapshot _ _ _ _ _ Hdata).
  assert (Hgap0 : forall a : pystr, length_gap a a = 0)
    by (intros a; unfold length_gap; lia).
  rewrite resolve_in_no_exact.
  - destruct (closest_exists request s Hne) as [best Hbest].
    rewrite (fuzzy_in_closest _ _ _ Hbest).
    assert (Hin : best ∈ s).
    { destruct Hbest as (l1 & l2 & -> & _). apply elem_of_app. right. left. }
    rewrite Forall_forall in Hfar.
    destruct (Hfar best Hin) as (k & r & e & _ & Hrus & Heng & _ & Hr & He).
    pose proof (distance_lower_bound (lower r) (lower request)).
    pose proof (distance_lower_bound (lower e) (lower request)).
    replace (min_distance best request <=? 3)%nat with false; [reflexivity|].
    symmetry. apply Nat.leb_gt.
    rewrite (min_distance_strings _ _ _ _ Hrus Heng). lia.
  - eapply Forall_impl; [exact Hfar|].
    intros c (k & r & e & Hk & Hrus & Heng & Hc & Hr & He).
    apply equality_comparator_false. exists k, r, e.
    repeat split; try assumption.
    + intros Heq. rewrite Heq, Hgap0 in Hr. lia.
    + intros Heq. rewrite Heq, Hgap0 in He. lia.
Qed.

(** X8. When some record has a name of at most 3 characters (in lower
    case), every request of at most 3 characters is answered with a record
    of the snapshot: the edit distance of two strings is at most the
    length of the longer one. The one other outcome is the
    [AttributeError] of a snapshot with a record whose code or one of
    whose names is [None]. *)
Theorem short_request_finds_short_name (w : world) (self self' : RatesStorage)
    (s : list currency) (request : pystr) (c : currency) :
  data w self = (Return s, self') ->
  c ∈ s ->
  (exists r, rus_name c = Str r /\ length (lower r) <= 3)
  \/ (exists e, eng_name c = Str e /\ length (lower e) <= 3) ->
  length (lower request) <= 3 ->
  (exists found,
      found ∈ s
      /\ get_currency_data request w self = (Return (Some found), self'))
  \/ (get_currency_data request w self = (Raise (Error AttributeError), self')
      /\ exists x, x ∈ s
           /\ (code x = NoneText \/ rus_name x = NoneText
               \/ eng_name x = NoneText)).
Proof.
  intros Hdata Hc Hshort Hreq.
  rewrite (get_currency_data_snapshot _ _ _ _ _ Hdata).
  pose proof (resolve_in_outcomes s request) as Hout.
  destruct (resolve_in s request) as [[found|]|e] eqn:Hres.
  - left. destruct Hout as [Hin _]. eauto.
  - exfalso. destruct Hout as [_ Hno].
    rewrite resolve_in_no_exact in Hres by assumption.
    destruct (closest_exists request s) as [best Hbest];
      [intros ->; inversion Hc|].
    rewrite (fuzzy_in_closest _ _ _ Hbest) in Hres.
    pose proof (closest_le _ _ _ _ Hbest Hc) as Hle.
    assert (Hnear : min_distance c request <= 3).
    { rewrite Forall_forall in Hno.
      destruct (equality_comparator_false_strings _ _ (Hno c Hc))
        as (k & r & e & _ & Hrus & Heng).
      rewrite (min_distance_strings _ _ _ _ Hrus Heng).
      pose proof (distance_upper_bound (lower r) (lower request)).
      pose proof (distance_upper_bound (lower e) (lower request)).
      destruct Hshort as [(r' & Hr' & Hlen)|(e' & He' & Hlen)].
      - rewrite Hrus in Hr'. injection Hr' as <-. lia.
      - rewrite Heng in He'. injection He' as <-. lia. }
    replace (min_distance best request <=? 3)%nat with true in Hres
      by (symmetry; apply Nat.leb_le; lia).
    assert (Hin : best ∈ s).
    { destruct Hbest as (l1 & l2 & -> & _). apply elem_of_app. right. left. }
    destruct (first_such_exists (fun x => bool_decide (code x = code best))
                                s best Hin) as [found Hfound];
      [apply bool_decide_eq_true_2; reflexivity|].
    apply find_in_first in Hfound. rewrite Hfound in Hres. discriminate.
  - destruct Hout as [[_ ->]|[-> (x & Hx & Hraise)]]; [inversion Hc|].
    right. split; [reflexivity|]. exists x. split; [exact Hx|].
    apply equality_comparator_raise_iff in Hraise
      as [Hk|[_ [Hr|[_ He]]]]; auto.
Qed.

End Lookups.

Section Prices.

Context `{PyRuntime}.

(** X9. [get_price] answers that the amount is not a number exactly when
    [float] refuses the text, and that it must be above zero exactly when
    the parsed amount satisfies [amount <= 0]. In both cases the storage
    is left as it was: the amount is checked before the cache is read, so
    no request is sent. *)
Theorem get_price_amount_checks (w : world) (self self' : RatesStorage)
    (base quote amount : pystr) :
  (get_price base quote amount w self
   = (Return (Message AmountNotNumber), self')
   <-> py_float amount = None /\ self' = self)
  /\ (get_price base quote amount w self
      = (Return (Message AmountNotPositive), self')
      <-> (exists x, py_float amount = Some x /\ PrimFloat.leb x 0%float = true)
          /\ self' = self).
Proof.
  rewrite get_price_cases.
  assert (Hsnap : forall s x m,
            upstream m = false ->
            m <> BaseNotFound base -> m <> QuoteNotFound quote ->
            m <> SameCurrency ->
            price_in s base quote x <> Return (Message m)).
  { intros s x m _ Hb Hq Hs. unfold price_in.
    repeat match goal with
           | |- context [match ?t with _ => _ end] => destruct t
           end; congruence. }
  destruct (py_float amount) as [x|].
  - destruct (PrimFloat.leb x 0%float) eqn:Hle.
    + split; split.
      * discriminate.
      * intros [[=] _].
      * intros [= <-]. eauto.
      * intros [_ ->]. reflexivity.
    + destruct (data w self) as [[s|e] self1] eqn:Hdata.
      * split; split.
        -- intros [= Hp _]. exfalso. revert Hp.
           apply Hsnap; first [reflexivity | discriminate].
        -- intros [[=] _].
        -- intros [= Hp _]. exfalso. revert Hp.
           apply Hsnap; first [reflexivity | discriminate].
        -- intros [(y & [= <-] & Hy) _]. congruence.
      * destruct (data_raise_inv _ _ _ _ Hdata) as (_ & _ & m & -> & Hm & _).
        split; split.
        -- intros [= -> _]. discriminate.
        -- intros [[=] _].
        -- intros [= -> _]. discriminate.
        -- intros [(y & [= <-] & Hy) _]. congruence.
  - split; split.
    + intros [= <-]. auto.
    + intros [_ ->]. reflexivity.
    + discriminate.
    + intros [(y & [=] & _) _].
Qed.

(** X10. [get_price] raises [ZeroDivisionError] exactly when the amount is
    accepted, both currencies are found, their codes differ and the rate
    of the second one (the divisor) is zero. Two requests for one currency
    are refused as the same currency before the division. *)
Theorem get_price_ZeroDivisionError (w : world) (self self' : RatesStorage)
    (base quote amount : pystr) :
  get_price base quote amount w self = (Raise ZeroDivisionError, self')
  <-> exists x base_data quote_data self1,
        py_float amount = Some x /\ PrimFloat.leb x 0%float = false
        /\ get_currency_data base w self = (Return (Some base_data), self1)
        /\ get_currency_data quote w self1 = (Return (Some quote_data), self')
        /\ code base_data <> code quote_data
        /\ PrimFloat.eqb (rub_rate quote_data) 0%float = true.
Proof.
  split.
  - rewrite get_price_cases.
    destruct (py_float amount) as [x|]; [|discriminate].
    destruct (PrimFloat.leb x 0%float) eqn:Hle; [discriminate|].
    destruct (data w self) as [[s|e] self1] eqn:Hdata.
    + pose proof (data_again _ _ _ _ Hdata) as Hagain.
      pose proof (get_currency_data_snapshot _ _ _ _ base Hdata) as Hb.
      pose proof (get_currency_data_snapshot _ _ _ _ quote Hagain) as Hq.
      pose proof (resolve_in_outcomes s base) as Hob.
      pose proof (resolve_in_outcomes s quote) as Hoq.
      unfold price_in.
      destruct (resolve_in s base) as [[b|]|eb];
        [|discriminate|destruct Hob as [[-> _]|[-> _]]; discriminate].
      destruct (resolve_in s quote) as [[q|]|eq];
        [|discriminate|destruct Hoq as [[-> _]|[-> _]]; discriminate].
      destruct (bool_decide (code b = code q)) eqn:Hcode; [discriminate|].
      destruct (PrimFloat.eqb (rub_rate q) 0%float) eqn:Hzero; [|discriminate].
      intros [= <-]. apply bool_decide_eq_false in Hcode.
      exists x, b, q, self1. auto 10.
    + destruct (data_raise_inv _ _ _ _ Hdata) as (_ & _ & m & -> & _).
      discriminate.
  - intros (x & b & q & self1 & Hp & Hle & Hb & Hq & Hcode & Hzero).
    rewrite (get_price_resolved _ _ _ _ _ _ _ _ _ _ Hp Hle Hb Hq).
    rewrite bool_decide_eq_false_2 by assumption. rewrite Hzero. reflexivity.
Qed.

(** X11. The only exceptions that leave [get_price] are
    [ZeroDivisionError], [IndexError] and [AttributeError]: [IndexError]
    only when the cache serves an empty snapshot, [AttributeError] only
    when the snapshot has a record whose code or one of whose names is
    [None]; every [APIException], also one about the feeds, is turned into
    a message. *)
Theorem get_price_exceptions (w : world) (self self' : RatesStorage)
    (base quote amount : pystr) (e : exn) :
  get_price base quote amount w self = (Raise e, self') ->
  e = ZeroDivisionError
  \/ (e = IndexError /\ data w self = (Return [], self'))
  \/ (e = Error AttributeError
      /\ exists s c, data w self = (Return s, self') /\ c ∈ s
                      /\ (code c = NoneText \/ rus_name c = NoneText
                          \/ eng_name c = NoneText)).
Proof.
  rewrite get_price_cases.
  destruct (py_float amount) as [x|]; [|discriminate].
  destruct (PrimFloat.leb x 0%float); [discriminate|].
  assert (Hnone : forall c request,
            equality_comparator c request = Raise (Error AttributeError) ->
            code c = NoneText \/ rus_name c = NoneText
            \/ eng_name c = NoneText).
  { intros c request [Hk|[_ [Hr|[_ He]]]]%equality_comparator_raise_iff; auto. }
  destruct (data w self) as [[s|e0] self1] eqn:Hdata.
  - pose proof (resolve_in_outcomes s base) as Hob.
    pose proof (resolve_in_outcomes s quote) as Hoq.
    unfold price_in.
    destruct (resolve_in s base) as [[b|]|eb].
    + destruct (resolve_in s quote) as [[q|]|eq].
      * destruct (bool_decide (code b = code q)); [discriminate|].
        destruct (PrimFloat.eqb (rub_rate q) 0%float); [|discriminate].
        intros [= <- <-]. auto.
      * discriminate.
      * destruct Hoq as [[-> ->]|[-> (c & Hc & Hraise)]]; intros [= <- <-];
          [auto|].
        right. right. split; [reflexivity|]. exists s, c. eauto.
    + discriminate.
    + destruct Hob as [[-> ->]|[-> (c & Hc & Hraise)]]; intros [= <- <-];
        [auto|].
      right. right. split; [reflexivity|]. exists s, c. eauto.
  - destruct (data_raise_inv _ _ _ _ Hdata) as (_ & _ & m & -> & _).
    discriminate.
Qed.

(** X12. Whatever [get_price] answered, except a message about a failure
    of the feeds, the same request on the same day gets the same answer,
    sends no request to the bank and leaves the storage as it is, also
    when the bank has changed its documents in between. *)
Theorem get_price_repeats (w w' : world) (self self' : RatesStorage)
    (base quote amount : pystr) (out : result reply) :
  get_price base quote amount w self = (out, self') ->
  today w' = today w ->
  (forall m, out = Return (Message m) -> upstream m = false) ->
  get_price base quote amount w' self' = (out, self').
Proof.
  rewrite !get_price_cases. intros Hfirst Hday Hout.
  destruct (py_float amount) as [x|];
    [|injection Hfirst as <- <-; reflexivity].
  destruct (PrimFloat.leb x 0%float);
    [injection Hfirst as <- <-; reflexivity|].
  destruct (data w self) as [[s|e] self1] eqn:Hdata.
  - injection Hfirst as <- <-.
    apply data_return in Hdata as [Hs ->].
    rewrite (data_settled w' self1 (settled_same_day _ _ _ Hday Hs)).
    reflexivity.
  - destruct (data_raise_inv _ _ _ _ Hdata) as (_ & _ & m & -> & Hm & _).
    injection Hfirst as <- <-.
    specialize (Hout m eq_refl). congruence.
Qed.

(** X13. One call of [get_price] sends at most the two requests of one
    refresh, and none at all when the amount is refused or the cache is of
    today: it sends what the first read of the cache sends. *)
Theorem get_price_requests (w : world) (self self' : RatesStorage)
    (base quote amount : pystr) (out : result reply) :
  get_price base quote amount w self = (out, self') ->
  requests_log self'
  = requests_log self
    ++ (if amount_accepted amount
           && negb (bool_decide (Some (today w) = _cached_date self))
        then GetVocabulary
             :: (if vocabulary_ok w then [GetRates (today w)] else [])
        else []).
Proof.
  rewrite get_price_cases. unfold amount_accepted.
  destruct (py_float amount) as [x|];
    [|intros [= <- <-]; rewrite app_nil_r; reflexivity].
  destruct (PrimFloat.leb x 0%float);
    [intros [= <- <-]; rewrite app_nil_r; reflexivity|].
  simpl. destruct (data w self) as [[s|e] self1] eqn:Hdata.
  - intros [= <- <-]. rewrite (data_requests _ _ _ _ Hdata).
    destruct (bool_decide _); reflexivity.
  - pose proof (data_requests _ _ _ _ Hdata) as Hlog.
    destruct e; intros [= <- <-]; rewrite Hlog;
      destruct (bool_decide _); reflexivity.
Qed.

End Prices.

Section FrontEnd.

Context `{PyRuntime}.

(** X14. [API.get_vocabulary] never raises. It answers with the message of
    an [APIException] only when the read had to refresh and a feed failed;
    otherwise with a listing, and on the day of the cache without any
    request to the bank. *)
Theorem API_get_vocabulary_outcomes (w : world) (self self' : RatesStorage)
    (out : result listing) :
  API_get_vocabulary w self = (out, self') ->
  (exists s text, out = Return (Listing text)
                  /\ data w self = (Return s, self'))
  \/ (exists m, out = Return (ListingMessage m) /\ upstream m = true
                 /\ _cached_date self <> Some (today w)).
Proof.
  unfold API_get_vocabulary.
  destruct (data w self) as [[s|e] self1] eqn:Hdata.
  - intros [= <- <-]. left. eauto.
  - destruct (data_raise_inv _ _ _ _ Hdata) as (Hstale & _ & m & -> & Hm & _).
    intros [= <- <-]. right. eauto.
Qed.

(** X15. The listing of [API.get_vocabulary] has, line by line, the three
    lines of the header, one line [code, rus_name, eng_name] for every
    record of the snapshot in its order, and the two lines of the footer,
    as long as no code or name contains a line break; the rate is not
    shown, and a code or name that is [None] is shown as the word None.
    An empty snapshot gives the header and the footer alone. *)
Theorem API_get_vocabulary_lines (w : world) (self self' : RatesStorage)
    (s : list currency) :
  data w self = (Return s, self') ->
  exists text,
    API_get_vocabulary w self = (Return (Listing text), self')
    /\ (Forall (fun c => Forall (fun ch => ch <> 10%N)
                           (format_text (code c) ++ format_text (rus_name c)
                            ++ format_text (eng_name c))) s ->
        split 10 text
        = vocabulary_header ++ List.map vocabulary_row s ++ vocabulary_footer
        /\ length (split 10 text) = 5 + length s).
Proof.
  intros Hdata. unfold API_get_vocabulary. rewrite Hdata.
  eexists. split; [reflexivity|]. intros Hclean.
  assert (Hsplit : split 10 (join [10%N]
                     (vocabulary_header ++ List.map vocabulary_row s
                      ++ vocabulary_footer))
                   = vocabulary_header ++ List.map vocabulary_row s
                     ++ vocabulary_footer).
  { apply split_join; [discriminate|].
    apply Forall_app. split; [|apply Forall_app; split].
    - apply header_footer_lines.
    - apply Forall_forall.
      intros row [c [<- Hc]]%list_elem_of_In%in_map_iff.
      rewrite Forall_forall in Hclean.
      specialize (Hclean c (proj2 (list_elem_of_In _ _) Hc)).
      rewrite !Forall_app in Hclean. destruct Hclean as (Hcode & Hrus & Heng).
      unfold vocabulary_row. rewrite !Forall_app.
      assert (Hsep : Forall (fun ch => ch <> 10%N) (u", "))
        by (apply (bool_decide_unpack _); vm_compute; exact I).
      auto 10.
    - apply header_footer_lines. }
  rewrite Hsplit. split; [reflexivity|].
  rewrite !length_app, length_map. simpl. lia.
Qed.

(** X16. [align_and_pad] never cuts the text: for the keys [l], [c] and
    [r] the result is the text between two runs of the filler whose total
    length is what the text lacks to the width (nothing when it is
    already that long); [l] puts the whole run after the text, [r] before
    it, and [c] splits it in two runs that differ by one character at
    most. Any other key raises [KeyError]. *)
Theorem align_and_pad_spec (txt : pystr) (width : Z) (filler : N) (align : pystr) :
  match align_and_pad txt width filler align with
  | inr out =>
      exists left right,
        out = repeat filler left ++ txt ++ repeat filler right
        /\ Z.of_nat (left + right) = Z.max 0 (width - Z.of_nat (length txt))
        /\ Z.of_nat (length out) = Z.max (Z.of_nat (length txt)) width
        /\ (align = u"l" -> left = 0)
        /\ (align = u"r" -> right = 0)
        /\ (align = u"c" -> left <= right + 1 /\ right <= left + 1)
  | inl e =>
      e = KeyError /\ align <> u"l" /\ align <> u"c" /\ align <> u"r"
  end.
Proof.
  unfold align_and_pad.
  destruct (bool_decide (align = u"l")) eqn:Hl.
  { apply bool_decide_eq_true in Hl. subst align.
    exists 0, (Z.to_nat (width - Z.of_nat (length txt))). unfold ljust.
    rewrite !length_app, repeat_length. simpl.
    repeat split; try lia; discriminate. }
  destruct (bool_decide (align = u"c")) eqn:Hc.
  { apply bool_decide_eq_true in Hc. subst align. unfold center.
    set (marg := (width - Z.of_nat (length txt))%Z).
    destruct (marg <=? 0)%Z eqn:Hmarg.
    - apply Z.leb_le in Hmarg. exists 0, 0. simpl. rewrite app_nil_r.
      repeat split; try lia; discriminate.
    - apply Z.leb_gt in Hmarg.
      set (bit := Z.land (Z.land marg width) 1).
      assert (Hbit : bit = if Z.odd marg && Z.odd width then 1%Z else 0%Z).
      { unfold bit. change 1%Z with (Z.ones 1).
        rewrite Z.land_ones by lia. change (2 ^ 1)%Z with 2%Z.
        rewrite Zmod_odd, <- Z.bit0_odd, Z.land_spec, !Z.bit0_odd.
        reflexivity. }
      pose proof (Zmod_odd marg) as Hodd.
      pose proof (Z.div_mod marg 2 ltac:(lia)) as Hdiv.
      exists (Z.to_nat (marg / 2 + bit)), (Z.to_nat (marg - (marg / 2 + bit))).
      rewrite !length_app, !repeat_length.
      destruct (Z.odd marg); destruct (Z.odd width); simpl in Hbit;
        repeat split; try lia; discriminate. }
  destruct (bool_decide (align = u"r")) eqn:Hr.
  { apply bool_decide_eq_true in Hr. subst align.
    exists (Z.to_nat (width - Z.of_nat (length txt))), 0. unfold rjust.
    rewrite !length_app, repeat_length. simpl. rewrite app_nil_r.
    repeat split; try lia; discriminate. }
  apply bool_decide_eq_false in Hl, Hc, Hr. auto.
Qed.

(** X17. The pattern of [handle_message] matches a text exactly when it is
    made of three fields between angle brackets, each not empty and
    without [>], with any white space before the first, between the first
    and the second and after the third, and exactly one white space
    character between the second and the third; the three groups are the
    fields as they are typed, blanks inside the brackets included. *)
Theorem re_match_iff (text a b c : pystr) :
  re_match text = Some (a, b, c)
  <-> exists ws1 ws2 blank ws3,
        text = framed ws1 a ws2 b blank c ws3
        /\ blanks ws1 /\ blanks ws2 /\ is_whitespace blank = true
        /\ blanks ws3 /\ field a /\ field b /\ field c.
Proof.
  split.
  - unfold re_match.
    destruct (skip_whitespace_split text) as (ws1 & Htext & Hws1).
    destruct (group (skip_whitespace text)) as [[g1 rest1]|] eqn:Hg1;
      [|discriminate].
    apply group_iff in Hg1 as [Ha Hs1].
    destruct (skip_whitespace_split rest1) as (ws2 & Hrest1 & Hws2).
    destruct (group (skip_whitespace rest1)) as [[g2 [|blank rest2]]|] eqn:Hg2;
      try discriminate.
    apply group_iff in Hg2 as [Hb Hs2].
    destruct (is_whitespace blank) eqn:Hblank; [|discriminate].
    destruct (group rest2) as [[g3 rest3]|] eqn:Hg3; [|discriminate].
    apply group_iff in Hg3 as [Hc Hs3].
    destruct (skip_whitespace rest3) eqn:Hend; [|discriminate].
    apply skip_whitespace_nil in Hend.
    intros [= <- <- <-].
    exists ws1, ws2, blank, rest3. unfold framed.
    repeat split; try assumption; try apply Ha; try apply Hb; try apply Hc.
    rewrite Htext, Hs1, Hrest1, Hs2, Hs3. reflexivity.
  - intros (ws1 & ws2 & blank & ws3 & -> & H1 & H2 & Hblank & H3 & Ha & Hb & Hc).
    apply (re_match_blanks ws1 a ws2 b [blank] c ws3); auto.
    constructor; [assumption|constructor].
Qed.

(** X18. Between the first and the second field any white space is
    accepted, none included; between the second and the third there must
    be exactly one white space character: with none, or with two or more,
    the text is refused. *)
Theorem re_match_one_blank (ws1 a ws2 b ws c ws3 : pystr) :
  blanks ws1 -> blanks ws2 -> blanks ws -> blanks ws3 ->
  field a -> field b -> field c ->
  (length ws = 1 ->
   re_match (ws1 ++ 60%N :: a ++ 62%N :: ws2 ++ 60%N :: b ++ 62%N
               :: ws ++ 60%N :: c ++ 62%N :: ws3) = Some (a, b, c))
  /\ (length ws <> 1 ->
      re_match (ws1 ++ 60%N :: a ++ 62%N :: ws2 ++ 60%N :: b ++ 62%N
                  :: ws ++ 60%N :: c ++ 62%N :: ws3) = None).
Proof.
  intros H1 H2 Hws H3 Ha Hb Hc.
  rewrite (re_match_blanks ws1 a ws2 b ws c ws3) by assumption.
  destruct ws as [|w1 [|w2 ws']]; simpl; split; intros; congruence || lia.
Qed.

(** X19. [handle_message] answers a text that the pattern refuses with the
    format message, without reading the cache. A text of three framed
    fields is answered with what [get_price] returns for these fields, in
    the order target, source, amount; an exception of [get_price] leaves
    [handle_message] too, and nothing is sent. *)
Theorem handle_message_framed (w : world) (self : RatesStorage) :
  (forall text,
      re_match text = None ->
      handle_message text w self = (Return SendBadFormat, self))
  /\ (forall ws1 a ws2 b blank c ws3,
        blanks ws1 -> blanks ws2 -> is_whitespace blank = true -> blanks ws3 ->
        field a -> field b -> field c ->
        handle_message (framed ws1 a ws2 b blank c ws3) w self
        = match get_price a b c w self with
          | (Return r, self') => (Return (SendPrice r), self')
          | (Raise e, self') => (Raise e, self')
          end).
Proof.
  split.
  - intros text Hno. unfold handle_message. rewrite Hno. reflexivity.
  - intros ws1 a ws2 b blank c ws3 H1 H2 Hblank H3 Ha Hb Hc.
    unfold handle_message, framed.
    change (re_match _)
      with (re_match (ws1 ++ 60%N :: a ++ 62%N :: ws2 ++ 60%N :: b ++ 62%N
                        :: [blank] ++ 60%N :: c ++ 62%N :: ws3)).
    assert (Hone : blanks [blank]) by (constructor; [assumption|constructor]).
    rewrite (re_match_blanks ws1 a ws2 b [blank] c ws3) by assumption.
    unfold bind. destruct (get_price a b c w self) as [[r|e] self'];
      reflexivity.
Qed.

End FrontEnd.

(** * Runs on the scenarios *)

Module Runs.

Import Examples Scenario.

Ltac by_computation := vm_compute; reflexivity.

Ltac all_by_computation :=
  repeat (constructor; [vm_compute; first [reflexivity | lia]|]); constructor.

Example distance_examples :
  distance (u"us dollar") (u"us dolar") = 1
  /\ distance (u"kitten") (u"sitting") = 3
  /\ distance (u"российский рубль") (u"росийский рубль") = 1
  /\ distance (u"euro") [] = 4.
Proof. repeat split; by_computation. Qed.

Example bank_snapshot :
  fst (data bank __init__) = Return [USD; EUR; RUR].
Proof. by_computation. Qed.

(** The messages of [get_price] on requests that are refused. *)
Example get_price_refusals :
  fst (get_price (u"USD") (u"USD") (u"5") bank __init__)
  = Return (Message SameCurrency)
  /\ fst (get_price (u"USD") (u"EUR") (u"-3") bank __init__)
     = Return (Message AmountNotPositive)
  /\ fst (get_price (u"USD") (u"EUR") (u"abc") bank __init__)
     = Return (Message AmountNotNumber)
  /\ fst (get_price (u"Xyzzyqq") (u"EUR") (u"5") bank __init__)
     = Return (Message (BaseNotFound (u"Xyzzyqq")))
  /\ fst (get_price (u"USD") (u"EUR") (u"5") offline __init__)
     = Return (Message (VocabularyNotFetched
                          (RequestException (u"ConnectionError")))).
Proof. repeat split; by_computation. Qed.

(** With two records of one code, the lookup by distance finds the second
    and returns the first. *)
Example same_code_lookup :
  fst (data same_code __init__) = Return [XXX_euro; XXX_dollar; RUR]
  /\ min_distance XXX_euro (u"us dolar") = 7
  /\ min_distance XXX_dollar (u"us dolar") = 1
  /\ min_distance RUR (u"us dolar") = 10
  /\ fst (get_currency_data (u"us dolar") same_code __init__)
     = Return (Some XXX_euro).
Proof. repeat split; by_computation. Qed.

(** C3. A refresh stops at the second [Valute] element, whose id the
    vocabulary lacks: the read raises the parse error and leaves the date
    of today and the one record merged so far in the cache. The next read
    of the day, with a bank that now answers well, sends no request and
    returns that one record, without [RUR] and without an error. *)
Theorem partial_snapshot_is_served :
  fst (data unknown_id __init__)
  = Raise (APIException (RatesNotParsed day KeyError))
  /\ _data_write_only (snd (data unknown_id __init__)) = [USD]
  /\ _cached_date (snd (data unknown_id __init__)) = Some day
  /\ fst (data bank (snd (data unknown_id __init__))) = Return [USD]
  /\ requests_log (snd (data bank (snd (data unknown_id __init__))))
     = requests_log (snd (data unknown_id __init__))
  /\ fst (data bank __init__) = Return [USD; EUR; RUR].
Proof. repeat split; by_computation. Qed.

(** C5. The amount [nan] parses, is not above zero, and is not refused:
    [get_price] answers with a price whose amount and quantity are NaN. *)
Theorem nan_amount_is_accepted :
  py_float (u"nan") = Some nan
  /\ PrimFloat.ltb 0%float nan = false
  /\ fst (get_price (u"USD") (u"EUR") (u"nan") bank __init__)
     = Return (Price nan USD nan EUR).
Proof. repeat split; by_computation. Qed.


(** C4 as stated fails on a code in lower case: [USD] is in the snapshot
    and nothing is found for [usd]. *)
Lemma finds_ignoring_case_fails :
  ~ finds_ignoring_case bank __init__ (u"usd").
Proof.
  intros Hclaim.
  destruct (Hclaim [USD; EUR; RUR] open_bank) as (c & Hfind & _).
  - by_computation.
  - exists USD. split; [left|by_computation].
  - assert (Hrun : find_currency_by_code (u"usd") bank __init__
                   = (Return None, open_bank)) by by_computation.
    rewrite Hrun in Hfind. discriminate Hfind.
Qed.


(** C2 as stated fails when a record before the one with the requested
    code has that code as a name: [EUR] is the code of the second record
    and the English name of the first, and the first is returned. *)
Lemma returns_record_of_code_fails :
  ~ returns_record_of_code name_is_code __init__ (u"EUR").
Proof.
  intros Hclaim.
  specialize (Hclaim [XEU; EUR; RUR] (snd (data name_is_code __init__)) EUR).
  assert (Hrun : get_currency_data (u"EUR") name_is_code __init__
                 = (Return (Some XEU), snd (data name_is_code __init__)))
    by by_computation.
  rewrite Hrun in Hclaim.
  assert (Hne : (Return (Some XEU), snd (data name_is_code __init__))
                <> (Return (Some EUR), snd (data name_is_code __init__))).
  { vm_compute. discriminate. }
  apply Hne, Hclaim.
  - by_computation.
  - right. left.
  - by_computation.
Qed.

Lemma exact_match_first_witness :
  data name_is_code __init__
  = (Return [XEU; EUR; RUR], snd (data name_is_code __init__))
  /\ lower_method (eng_name XEU) = Return (lower (u"EUR"))
  /\ lower_method (code EUR) = Return (lower (u"EUR"))
  /\ get_currency_data (u"EUR") name_is_code __init__
     = (Return (Some XEU), snd (data name_is_code __init__))
  /\ get_currency_data (u"eur") name_is_code __init__
     = (Return (Some XEU), snd (data name_is_code __init__)).
Proof.
  assert (Hdata : data name_is_code __init__
                  = (Return [XEU; EUR; RUR], snd (data name_is_code __init__)))
    by by_computation.
  assert (Hstr : Forall strings [XEU; EUR; RUR]).
  { repeat (constructor; [eexists _, _, _; repeat split; reflexivity|]).
    constructor. }
  split; [exact Hdata|]. split; [by_computation|]. split; [by_computation|].
  split.
  - refine (proj1 (exact_match_first name_is_code __init__ _
                     [XEU; EUR; RUR] (u"EUR") Hdata Hstr)
                  [] XEU [EUR; RUR] _ _ _).
    + reflexivity.
    + right. right. by_computation.
    + constructor.
  - refine (proj1 (exact_match_first name_is_code __init__ _
                     [XEU; EUR; RUR] (u"eur") Hdata Hstr)
                  [] XEU [EUR; RUR] _ _ _).
    + reflexivity.
    + right. right. by_computation.
    + constructor.
Defined.

Lemma find_currency_by_code_exact_witness :
  data bank __init__ = (Return [USD; EUR; RUR], open_bank)
  /\ find_currency_by_code (u"EUR") bank __init__ = (Return (Some EUR), open_bank)
  /\ find_currency_by_code (u"eur") bank __init__ = (Return None, open_bank).
Proof.
  assert (Hdata : data bank __init__ = (Return [USD; EUR; RUR], open_bank))
    by by_computation.
  split; [exact Hdata|]. split.
  - apply (proj1 (find_currency_by_code_exact bank __init__ open_bank
                    [USD; EUR; RUR] (u"EUR") Hdata)).
    exists [USD], [RUR]. split; [reflexivity|]. split; [by_computation|].
    all_by_computation.
  - apply (proj2 (proj2 (find_currency_by_code_exact bank __init__ open_bank
                           [USD; EUR; RUR] (u"eur") Hdata))).
    repeat (constructor; [discriminate|]). constructor.
Defined.

Lemma get_price_quantity_witness :
  get_price (u"Доллар США") (u"Euro") (u"1.25") bank __init__
  = (Return (Price 1.25%float USD (of_hundredths false 112) EUR), open_bank)
  /\ (rub_rate USD / rub_rate EUR * 1.25 = 1.125)%float
  /\ of_hundredths false 112
     = round (rub_rate USD / rub_rate EUR * 1.25)%float 2
  /\ match Prim2SF (rub_rate USD / rub_rate EUR * 1.25)%float with
     | S754_finite sign m e =>
         exists n : Z,
           (0 <= n)%Z
           /\ nearest_even (Zpos m * 100 * 2 ^ Z.max e 0) (2 ^ Z.max (- e) 0) n
           /\ of_hundredths false 112 = of_hundredths sign n
     | _ => of_hundredths false 112
            = (rub_rate USD / rub_rate EUR * 1.25)%float
     end.
Proof.
  assert (Hrun : get_price (u"Доллар США") (u"Euro") (u"1.25") bank __init__
                 = (Return (Price 1.25%float USD (of_hundredths false 112) EUR),
                    open_bank))
    by by_computation.
  split; [exact Hrun|]. split; [by_computation|].
  destruct (get_price_quantity bank __init__ open_bank _ _ _ _ _ _ _ Hrun)
    as (_ & _ & Hround & Hnear & _).
  split; [exact Hround|exact Hnear].
Defined.

(** C7 as stated fails on a feed that lists the rouble itself: the
    snapshot then has two records with the code RUR and the rate 1.0. *)
Lemma publishes_one_rouble_fails :
  ~ publishes_one_rouble own_rouble __init__.
Proof.
  intros Hclaim.
  destruct (Hclaim [RUR; RUR] (snd (data own_rouble __init__)))
    as (fetched & Hs & Hnone); [by_computation|].
  assert (Hfetched : fetched = [RUR]).
  { apply (app_inj_tail fetched [RUR] RUR RUR). symmetry. exact Hs. }
  subst fetched. apply Forall_cons in Hnone as [Hnot _].
  apply Hnot. split; reflexivity.
Qed.

Lemma fill_appends_RUR_witness :
  exists valutes fetched,
    rates_feed bank (today bank) = Xml valutes
    /\ length fetched = length valutes
    /\ _data_write_only (snd (fill bank __init__)) = fetched ++ [RUR]
    /\ _data_read_only (snd (fill bank __init__)) = fetched ++ [RUR]
    /\ last (_data_read_only (snd (fill bank __init__))) = Some RUR
    /\ code RUR = u"RUR" /\ rub_rate RUR = 1.0%float
    /\ (_cached_date __init__ <> Some (today bank) ->
        data bank __init__
        = (Return (fetched ++ [RUR]), snd (fill bank __init__)))
    /\ (Forall (fun v => valute_CharCode v <> Some (Str (u"RUR"))) valutes ->
        List.filter (fun c => bool_decide (code c = u"RUR")) (fetched ++ [RUR])
        = [RUR]).
Proof.
  apply (fill_appends_RUR bank __init__ (snd (fill bank __init__))).
  vm_compute. reflexivity.
Defined.

Lemma data_twice_same_day_witness :
  exists s2 self2,
    data bank (snd (data bank __init__)) = (Return s2, self2)
    /\ requests_log self2 = requests_log (snd (data bank __init__))
    /\ (forall s1, fst (data bank __init__) = Return s1 ->
                   s2 = s1 /\ self2 = snd (data bank __init__)).
Proof.
  apply (data_twice_same_day bank bank __init__ (snd (data bank __init__))
                             (fst (data bank __init__))).
  - reflexivity.
  - vm_compute. reflexivity.
Defined.

(** A caller of [data] on the day of [zero_rate]. The read returns the
    list object 10, whose second element is the dict object 8, a copy of
    the euro. The caller writes the rate [-0.0] there: [0.0 == -0.0], the
    next read returns the same list with that rate, and the working list
    keeps [0.0]. Then the caller writes the rate 50.0: the next read
    returns a new list, object 14, with the rate [0.0] again. *)
Example caller_writes :
  let first := [Objects.Read zero_rate] in
  let unseen := first ++ [Objects.Write 8 (Objects.Dict EUR_negative);
                          Objects.Read zero_rate] in
  let seen := unseen ++ [Objects.Write 8 (Objects.Dict XEU);
                         Objects.Read zero_rate] in
  (Objects.session first Objects.start).2
  = [Return [Some (Objects.Dict USD); Some (Objects.Dict EUR_free);
             Some (Objects.Dict RUR)]]
  /\ Objects.read_only (Objects.storage (Objects.session first Objects.start).1)
     = 10
  /\ Objects.elements (Objects.objects (Objects.session first Objects.start).1)
                      10 = [7; 8; 9]
  /\ (Objects.session unseen Objects.start).2
     = [Return [Some (Objects.Dict USD); Some (Objects.Dict EUR_free);
                Some (Objects.Dict RUR)];
        Return [Some (Objects.Dict USD); Some (Objects.Dict EUR_negative);
                Some (Objects.Dict RUR)]]
  /\ Objects.read_only (Objects.storage (Objects.session unseen Objects.start).1)
     = 10
  /\ Objects.records (Objects.objects (Objects.session unseen Objects.start).1)
        (Objects.write_only
           (Objects.storage (Objects.session unseen Objects.start).1))
     = [USD; EUR_free; RUR]
  /\ (Objects.session seen Objects.start).2
     = [Return [Some (Objects.Dict USD); Some (Objects.Dict EUR_free);
                Some (Objects.Dict RUR)];
        Return [Some (Objects.Dict USD); Some (Objects.Dict EUR_negative);
                Some (Objects.Dict RUR)];
        Return [Some (Objects.Dict USD); Some (Objects.Dict EUR_free);
                Some (Objects.Dict RUR)]]
  /\ Objects.read_only (Objects.storage (Objects.session seen Objects.start).1)
     = 14.
Proof. repeat split; by_computation. Qed.



Lemma empty_snapshot_IndexError_witness :
  data offline after_failure = (Return [], after_failure)
  /\ get_currency_data (u"USD") offline after_failure
     = (Raise IndexError, after_failure)
  /\ (forall quote amount a,
        py_float amount = Some a -> PrimFloat.leb a 0%float = false ->
        get_price (u"USD") quote amount offline after_failure
        = (Raise IndexError, after_failure)).
Proof.
  split; [vm_compute; reflexivity|].
  apply (empty_snapshot_IndexError offline after_failure after_failure (u"USD")).
  vm_compute. reflexivity.
Defined.

End Runs.

(** * Runs for the further properties *)

Module MoreRuns.

Import Examples Scenario.

Ltac by_computation := vm_compute; reflexivity.

Ltac by_decision := apply (bool_decide_unpack _); vm_compute; exact I.

Example same_id_snapshot :
  (data same_id __init__).1 = Return [AUD_dollar; AUD_dollar; RUR].
Proof. by_computation. Qed.

Example korea_lookup :
  (get_currency_data (u"zzz") korea __init__).1 = Return (Some KRW)
  /\ (get_currency_data (u"") korea __init__).1 = Return (Some KRW).
Proof. split; by_computation. Qed.

Example messages :
  re_match (u"<USD> <EUR> <10>") = Some (u"USD", u"EUR", u"10")
  /\ re_match (u"  <Доллар США><Euro> < 10 >  ")
     = Some (u"Доллар США", u"Euro", u" 10 ")
  /\ re_match (u"<USD> <EUR>  <10>") = None
  /\ re_match (u"<USD> <EUR><10>") = None
  /\ re_match (u"USD EUR 10") = None
  /\ (handle_message (u"<USD> <EUR> <10>") bank __init__).1
     = Return (SendPrice (Price 10%float USD 9%float EUR)).
Proof. repeat split; by_computation. Qed.

Example padding :
  align_and_pad (u"RUR") 8 42%N (u"c") = inr (u"**RUR***")
  /\ align_and_pad (u"RUR") 7 42%N (u"c") = inr (u"**RUR**")
  /\ align_and_pad (u"RU") 7 42%N (u"c") = inr (u"***RU**")
  /\ align_and_pad (u"RUR") 2 42%N (u"l") = inr (u"RUR")
  /\ align_and_pad (u"RUR") 5 42%N (u"x") = inl KeyError.
Proof. repeat split; by_computation. Qed.

Lemma fill_returns_iff_witness :
  feeds_ok bank = true
  /\ exists self', fill bank __init__ = (Return tt, self').
Proof.
  assert (Hok : feeds_ok bank = true) by by_computation.
  split; [exact Hok|].
  exact (proj2 (fill_returns_iff bank __init__) Hok).
Defined.

Lemma fill_requests_witness :
  requests_log (fill offline __init__).2 = [GetVocabulary]
  /\ requests_log (fill unknown_id __init__).2 = [GetVocabulary; GetRates day].
Proof.
  split.
  - apply (fill_requests offline __init__ _ (fill offline __init__).1).
    by_computation.
  - apply (fill_requests unknown_id __init__ _ (fill unknown_id __init__).1).
    by_computation.
Defined.

Lemma fill_merges_by_id_witness :
  fill same_id __init__ = (Return tt, (fill same_id __init__).2)
  /\ exists fetched,
      _data_write_only (fill same_id __init__).2 = fetched ++ [RUR]
      /\ Forall2 (merged names [rate (u"R01235") (u"USD") (u"90,0000");
                                rate (u"R01235") (u"AUD") (u"60,5")])
                 [rate (u"R01235") (u"USD") (u"90,0000");
                  rate (u"R01235") (u"AUD") (u"60,5")] fetched.
Proof.
  assert (Hfill : fill same_id __init__ = (Return tt, (fill same_id __init__).2))
    by by_computation.
  split; [exact Hfill|].
  destruct (fill_merges_by_id same_id __init__ _ names
              [rate (u"R01235") (u"USD") (u"90,0000");
               rate (u"R01235") (u"AUD") (u"60,5")] Hfill eq_refl eq_refl)
    as (fetched & Hwo & Hmerged & _).
  exists fetched. split; assumption.
Defined.

Lemma stale_read_forgets_witness :
  _cached_date __init__ <> Some (today bank)
  /\ _cached_date old_cache <> Some (today bank)
  /\ (data bank __init__).1 = (data bank old_cache).1
  /\ _data_write_only (data bank old_cache).2 = [USD; EUR; RUR].
Proof.
  assert (Ha : _cached_date __init__ <> Some (today bank)) by discriminate.
  assert (Hb : _cached_date old_cache <> Some (today bank)) by discriminate.
  destruct (stale_read_forgets bank __init__ old_cache Ha Hb)
    as (Hres & Hwo & _).
  split; [exact Ha|]. split; [exact Hb|]. split; [exact Hres|].
  rewrite <- Hwo. by_computation.
Defined.

Lemma data_fails_only_on_refresh_witness :
  data offline __init__
  = (Raise (APIException
              (VocabularyNotFetched (RequestException (u"ConnectionError")))),
     after_failure)
  /\ _cached_date after_failure = Some day
  /\ _data_read_only after_failure = [].
Proof.
  assert (Hrun : data offline __init__
                 = (Raise (APIException
                      (VocabularyNotFetched
                         (RequestException (u"ConnectionError")))),
                    after_failure)) by by_computation.
  split; [exact Hrun|].
  destruct (data_fails_only_on_refresh offline __init__ _ _ Hrun)
    as (_ & _ & Hdate & Hro).
  split; assumption.
Defined.

Lemma get_currency_data_outcomes_witness :
  data empty_name __init__
  = (Return [USD; EUR_unnamed; RUR], (data empty_name __init__).2)
  /\ get_currency_data (u"USD") empty_name __init__
     = (Raise (Error AttributeError), (data empty_name __init__).2)
  /\ (get_currency_data (u"EUR") empty_name __init__).1
     = Return (Some EUR_unnamed).
Proof.
  assert (Hdata : data empty_name __init__
                  = (Return [USD; EUR_unnamed; RUR],
                     (data empty_name __init__).2)) by by_computation.
  split; [exact Hdata|]. split; [|by_computation].
  apply (proj1 (proj2 (get_currency_data_outcomes empty_name __init__ _
                         [USD; EUR_unnamed; RUR] (u"USD") Hdata))).
  exists EUR_unnamed. split; [right; left|].
  right. split; [discriminate|]. right. split; [discriminate|reflexivity].
Defined.

Lemma far_lengths_not_found_witness :
  get_currency_data (u"Xyzzyqqxyzzyqqxyzzyqq") bank __init__
  = (Return None, open_bank).
Proof.
  apply (far_lengths_not_found bank __init__ open_bank [USD; EUR; RUR]).
  - by_computation.
  - discriminate.
  - repeat (constructor;
            [eexists _, _, _;
             split; [reflexivity|]; split; [reflexivity|];
             split; [reflexivity|];
             split; [discriminate|split; vm_compute; lia]|]).
    constructor.
Defined.

Lemma short_request_finds_short_name_witness :
  exists found,
    found ∈ [KRW; RUR]
    /\ get_currency_data (u"zzz") korea __init__
       = (Return (Some found), (data korea __init__).2).
Proof.
  destruct (short_request_finds_short_name korea __init__
              (data korea __init__).2 [KRW; RUR] (u"zzz") KRW)
    as [Hfound|[Hraise _]].
  - by_computation.
  - left.
  - left. eexists. split; [reflexivity|]. vm_compute. lia.
  - vm_compute. lia.
  - exact Hfound.
  - exfalso. revert Hraise. vm_compute. discriminate.
Defined.

Lemma get_price_amount_checks_witness :
  get_price (u"USD") (u"EUR") (u"abc") bank __init__
  = (Return (Message AmountNotNumber), __init__)
  /\ get_price (u"USD") (u"EUR") (u"-3") bank __init__
     = (Return (Message AmountNotPositive), __init__).
Proof.
  split.
  - apply (proj1 (get_price_amount_checks bank __init__ __init__
                    (u"USD") (u"EUR") (u"abc"))).
    split; [by_computation|reflexivity].
  - apply (proj2 (get_price_amount_checks bank __init__ __init__
                    (u"USD") (u"EUR") (u"-3"))).
    split; [|reflexivity]. exists (-3)%float. split; by_computation.
Defined.

Lemma get_price_ZeroDivisionError_witness :
  (get_price (u"USD") (u"EUR") (u"5") zero_rate __init__).1
  = Raise ZeroDivisionError
  /\ exists x base_data quote_data,
      py_float (u"5") = Some x
      /\ code base_data <> code quote_data
      /\ PrimFloat.eqb (rub_rate quote_data) 0%float = true.
Proof.
  assert (Hrun : get_price (u"USD") (u"EUR") (u"5") zero_rate __init__
                 = (Raise ZeroDivisionError,
                    (get_price (u"USD") (u"EUR") (u"5") zero_rate __init__).2))
    by by_computation.
  split; [rewrite Hrun; reflexivity|].
  destruct (proj1 (get_price_ZeroDivisionError zero_rate __init__ _
                     (u"USD") (u"EUR") (u"5")) Hrun)
    as (x & b & q & self1 & Hp & _ & _ & _ & Hcode & Hzero).
  exists x, b, q. auto.
Defined.

Lemma get_price_exceptions_witness :
  get_price (u"USD") (u"EUR") (u"5") empty_name __init__
  = (Raise (Error AttributeError), (data empty_name __init__).2)
  /\ exists s c,
      data empty_name __init__ = (Return s, (data empty_name __init__).2)
      /\ c ∈ s
      /\ (code c = NoneText \/ rus_name c = NoneText \/ eng_name c = NoneText).
Proof.
  assert (Hrun : get_price (u"USD") (u"EUR") (u"5") empty_name __init__
                 = (Raise (Error AttributeError), (data empty_name __init__).2))
    by by_computation.
  split; [exact Hrun|].
  destruct (get_price_exceptions empty_name __init__ _ _ _ _ _ Hrun)
    as [Habs|[[Habs _]|[_ Hrecord]]];
    [discriminate Habs|discriminate Habs|exact Hrecord].
Defined.

Lemma get_price_repeats_witness :
  get_price (u"Доллар США") (u"Euro") (u"10") bank __init__
  = (Return (Price 10%float USD 9%float EUR), open_bank)
  /\ get_price (u"Доллар США") (u"Euro") (u"10") offline open_bank
     = (Return (Price 10%float USD 9%float EUR), open_bank).
Proof.
  assert (Hrun : get_price (u"Доллар США") (u"Euro") (u"10") bank __init__
                 = (Return (Price 10%float USD 9%float EUR), open_bank))
    by by_computation.
  split; [exact Hrun|].
  apply (get_price_repeats bank offline __init__ open_bank _ _ _ _ Hrun).
  - reflexivity.
  - intros m [=].
Defined.

Lemma get_price_requests_witness :
  requests_log (get_price (u"USD") (u"EUR") (u"5") bank __init__).2
  = [GetVocabulary; GetRates day]
  /\ requests_log (get_price (u"USD") (u"EUR") (u"5") bank open_bank).2
     = requests_log open_bank.
Proof.
  split.
  - rewrite (get_price_requests bank __init__ _ (u"USD") (u"EUR") (u"5")
               (get_price (u"USD") (u"EUR") (u"5") bank __init__).1)
      by by_computation.
    by_computation.
  - rewrite (get_price_requests bank open_bank _ (u"USD") (u"EUR") (u"5")
               (get_price (u"USD") (u"EUR") (u"5") bank open_bank).1)
      by by_computation.
    by_computation.
Defined.

Lemma API_get_vocabulary_outcomes_witness :
  API_get_vocabulary offline __init__
  = (Return (ListingMessage
               (VocabularyNotFetched (RequestException (u"ConnectionError")))),
     after_failure)
  /\ exists text, (API_get_vocabulary offline after_failure).1
                  = Return (Listing text).
Proof.
  split; [by_computation|].
  destruct (API_get_vocabulary_outcomes offline after_failure
              (API_get_vocabulary offline after_failure).2
              (API_get_vocabulary offline after_failure).1)
    as [(s & text & Hout & _)|(m & _ & _ & Hstale)].
  - by_computation.
  - exists text. exact Hout.
  - exfalso. apply Hstale. by_computation.
Defined.

Lemma API_get_vocabulary_lines_witness :
  exists text,
    API_get_vocabulary bank __init__ = (Return (Listing text), open_bank)
    /\ split 10 text
       = vocabulary_header
         ++ [u"USD, Доллар США, US Dollar"; u"EUR, Евро, Euro";
             u"RUR, Российский рубль, Russian Ruble"]
         ++ vocabulary_footer.
Proof.
  destruct (API_get_vocabulary_lines bank __init__ open_bank [USD; EUR; RUR])
    as (text & Hrun & Hlines); [by_computation|].
  exists text. split; [exact Hrun|].
  destruct Hlines as [-> _]; [by_decision|by_computation].
Defined.

Lemma align_and_pad_spec_witness :
  align_and_pad (u"RUR") 8 42%N (u"c") = inr (u"**RUR***")
  /\ exists left right,
      u"**RUR***" = repeat 42%N left ++ u"RUR" ++ repeat 42%N right
      /\ Z.of_nat (left + right) = Z.max 0 (8 - Z.of_nat (length (u"RUR")))
      /\ Z.of_nat (length (u"**RUR***")) = Z.max (Z.of_nat (length (u"RUR"))) 8
      /\ (u"c" = u"l" -> left = 0)
      /\ (u"c" = u"r" -> right = 0)
      /\ (u"c" = u"c" -> left <= right + 1 /\ right <= left + 1).
Proof.
  assert (Hrun : align_and_pad (u"RUR") 8 42%N (u"c") = inr (u"**RUR***"))
    by by_computation.
  split; [exact Hrun|].
  pose proof (align_and_pad_spec (u"RUR") 8 42%N (u"c")) as Hspec.
  rewrite Hrun in Hspec. exact Hspec.
Defined.

Lemma re_match_iff_witness :
  re_match (u"<USD> <EUR> <10>") = Some (u"USD", u"EUR", u"10").
Proof.
  apply (proj2 (re_match_iff (u"<USD> <EUR> <10>") (u"USD") (u"EUR") (u"10"))).
  exists [], [32%N], 32%N, [].
  split; [by_computation|].
  split; [by_decision|]. split; [by_decision|]. split; [reflexivity|].
  split; [by_decision|]. split; [by_decision|]. split; by_decision.
Defined.

Lemma re_match_one_blank_witness :
  re_match (u"<USD><EUR> <10>") = Some (u"USD", u"EUR", u"10")
  /\ re_match (u"<USD><EUR>  <10>") = None.
Proof.
  split.
  - apply (proj1 (re_match_one_blank [] (u"USD") [] (u"EUR") [32%N] (u"10") []
                    ltac:(by_decision) ltac:(by_decision) ltac:(by_decision)
                    ltac:(by_decision) ltac:(by_decision) ltac:(by_decision)
                    ltac:(by_decision))).
    reflexivity.
  - apply (proj2 (re_match_one_blank [] (u"USD") [] (u"EUR") [32%N; 32%N]
                    (u"10") []
                    ltac:(by_decision) ltac:(by_decision) ltac:(by_decision)
                    ltac:(by_decision) ltac:(by_decision) ltac:(by_decision)
                    ltac:(by_decision))).
    discriminate.
Defined.

Lemma handle_message_framed_witness :
  handle_message (u"USD EUR 10") bank __init__ = (Return SendBadFormat, __init__)
  /\ handle_message (u"<USD> <EUR> <10>") bank __init__
     = (Return (SendPrice (Price 10%float USD 9%float EUR)), open_bank).
Proof.
  split.
  - apply (proj1 (handle_message_framed bank __init__)). by_computation.
  - change (u"<USD> <EUR> <10>")
      with (framed [] (u"USD") [32%N] (u"EUR") 32%N (u"10") []).
    rewrite (proj2 (handle_message_framed bank __init__)
               [] (u"USD") [32%N] (u"EUR") 32%N (u"10") [])
      by (by_decision || by_computation).
    by_computation.
Defined.

End MoreRuns.
